(** * Block Builder workflow engine: retry layer, circuit breaker,
      state persistence and the LangGraph pipeline.

    Shallow embedding of [block-builder/src]: [retry.ts], [types.ts],
    [nodes.ts], [workflow.ts] and [persistence.ts].

    Conventions.
    - The numbers of the retry layer are IEEE 754 doubles ([Double.t], the
      binary64 instance of the Standard Library's [SpecFloat]), with
      [undefined] beside them where a key may hold it; a loop counter that
      starts at 0 and is incremented by 1 is the integer it holds, with the
      increment stopping at 2^53 as it does in doubles; millisecond clocks
      and failure counters are integers ([Z]).
    - Asynchronous functions run to completion one after the other (for
      calls of the circuit breaker that overlap, the two halves of
      [execute] are given apart); an effectful function is a function of
      an explicit world [W] that returns its result with the next world.
    - The retry loop, which need not end, runs on fuel: [None] when the
      fuel is used up.
    - A rejected promise / thrown exception is the [inr] side of a sum.
    - The state store runs on Node's [path] and [fs.promises], which are
      not in the repository: [Path] follows the POSIX flavour of [path],
      [Fs] is a POSIX disk of directories and files holding JSON texts,
      without symbolic links, permissions or quotas. What the store must
      do is therefore stated of a save that resolved. *)

From Stdlib Require Import ZArith QArith Qpower Lia String Ascii List Bool.
From Stdlib Require Import Floats.SpecFloat.
From stdpp Require Import base option list strings gmap.

Local Open Scope string_scope.
Local Open Scope list_scope.

(** ** JavaScript errors *)

(** An [Error] object: only [name] and [message] are ever read. *)
Record Error := mkError { err_name : string; err_message : string }.

(** [new Error(message)] *)
Definition new_Error (message : string) : Error :=
  {| err_name := "Error"; err_message := message |}.

(** A thrown value is an [Error] instance or any other value; of the latter
    the code only uses [String(value)]. *)
Inductive Thrown :=
| ThrownError (e : Error)
| ThrownValue (str : string).

(** [error instanceof Error ? error : new Error(String(error))] *)
Definition toError (t : Thrown) : Error :=
  match t with
  | ThrownError e => e
  | ThrownValue s => new_Error s
  end.

(** ** Case-insensitive literal patterns ([/literal/i]) *)

Module Pattern.

(** Canonicalisation of a code unit under the [i] flag, on ASCII letters. *)
Definition fold_case (c : ascii) : ascii :=
  let n := nat_of_ascii c in
  if (65 <=? n)%nat && (n <=? 90)%nat then ascii_of_nat (n + 32) else c.

Definition char_eq_ci (a b : ascii) : bool :=
  Ascii.eqb (fold_case a) (fold_case b).

(** Does [s] start with [pat], ignoring case? *)
Fixpoint prefix_ci (pat s : string) : bool :=
  match pat, s with
  | EmptyString, _ => true
  | String _ _, EmptyString => false
  | String p pat', String c s' => char_eq_ci p c && prefix_ci pat' s'
  end.

(** [/pat/i.test(s)] for a pattern without metacharacters. *)
Fixpoint test (pat s : string) : bool :=
  prefix_ci pat s ||
  match s with
  | EmptyString => false
  | String _ s' => test pat s'
  end.

End Pattern.

(** ** JavaScript numbers *)

Module Double.

(** A value of the Number type: an IEEE 754 binary64. *)
Definition t : Type := spec_float.

Definition prec : Z := 53.
Definition emax : Z := 1024.

Definition NaN : t := S754_nan.

(** The double nearest to an integer; the integer itself up to 2^53. *)
Definition of_Z (z : Z) : t := binary_normalize prec emax z 0 false.

(** An integer as a number, not normalised: it takes part in comparisons
    only, which go by value. *)
Definition integer (z : Z) : t :=
  match z with
  | Z0 => S754_zero false
  | Zpos p => S754_finite false p 0
  | Zneg p => S754_finite true p 0
  end.

(** [x * y], rounded to nearest, ties to even. *)
Definition mul (x y : t) : t := SFmul prec emax x y.

(** What a number that is not [NaN] stands for. *)
Inductive extended :=
| NegInfinity
| Real (q : Q)
| PosInfinity.

Definition value (x : t) : option extended :=
  match x with
  | S754_nan => None
  | S754_infinity s => Some (if s then NegInfinity else PosInfinity)
  | S754_zero _ => Some (Real 0)
  | S754_finite s m e =>
      Some (Real (inject_Z (if s then Zneg m else Zpos m) * (2 ^ e))%Q)
  end.

Definition compare_extended (a b : extended) : comparison :=
  match a, b with
  | NegInfinity, NegInfinity => Eq
  | NegInfinity, _ => Lt
  | _, NegInfinity => Gt
  | PosInfinity, PosInfinity => Eq
  | PosInfinity, _ => Gt
  | _, PosInfinity => Lt
  | Real p, Real q => (p ?= q)%Q
  end.

(** The comparison of two numbers: none when one of them is [NaN]. *)
Definition compare (x y : t) : option comparison :=
  match value x, value y with
  | Some a, Some b => Some (compare_extended a b)
  | _, _ => None
  end.

(** [x < y] and [x <= y] *)
Definition ltb (x y : t) : bool :=
  match compare x y with Some Lt => true | _ => false end.

Definition leb (x y : t) : bool :=
  match compare x y with Some (Lt | Eq) => true | _ => false end.

Definition is_negative_zero (x : t) : bool :=
  match x with S754_zero true => true | _ => false end.

(** [Math.min(x, y)]: [NaN] when either is, and [-0] below [+0]. *)
Definition Math_min (x y : t) : t :=
  match compare x y with
  | None => NaN
  | Some Lt => x
  | Some Gt => y
  | Some Eq => if is_negative_zero x then x else y
  end.

(** [ToNumber] of a number or [undefined]. *)
Definition to_number (v : option t) : t := default NaN v.

(** A finite number, in the representation IEEE 754 gives it. *)
Definition finite (x : t) : bool :=
  match x with
  | S754_zero _ => true
  | S754_finite _ _ _ => valid_binary prec emax x
  | _ => false
  end.

(** Zero, or a positive finite number whose significand has at most 53
    bits: what a finite number that is not negative is. *)
Definition nonnegative (x : t) : Prop :=
  match x with
  | S754_zero _ => True
  | S754_finite false m e => (Zpos (digits2_pos m) ≤ 53 ∧ -1074 ≤ e)%Z
  | _ => False
  end.

(** [x] is the integer [z]. *)
Definition is_integer (x : t) (z : Z) : Prop :=
  match value x with
  | Some (Real q) => (q == inject_Z z)%Q
  | _ => False
  end.

End Double.

(** ** retry.ts *)

Module Retry.

(** The settings after [{ ...DEFAULT_RETRY_CONFIG, ...config }]: a key of
    [config] may hold [undefined] ([None]) and then overrides the
    default. *)
Record RetryConfig := mkRetryConfig {
  maxRetries : option Double.t;
  initialDelay : option Double.t;
  maxDelay : option Double.t;
  backoffMultiplier : option Double.t;
}.

(** [Partial<RetryConfig>]: [None] is an absent key, [Some None] a key
    that holds [undefined]. *)
Record PartialRetryConfig := mkPartialRetryConfig {
  opt_maxRetries : option (option Double.t);
  opt_initialDelay : option (option Double.t);
  opt_maxDelay : option (option Double.t);
  opt_backoffMultiplier : option (option Double.t);
}.

Definition DEFAULT_RETRY_CONFIG : RetryConfig :=
  {| maxRetries := Some (Double.of_Z 3);
     initialDelay := Some (Double.of_Z 1000);
     maxDelay := Some (Double.of_Z 10000);
     backoffMultiplier := Some (Double.of_Z 2) |}.

(** [{ ...DEFAULT_RETRY_CONFIG, ...config }] *)
Definition withDefaults (config : PartialRetryConfig) : RetryConfig :=
  {| maxRetries := default (maxRetries DEFAULT_RETRY_CONFIG) (opt_maxRetries config);
     initialDelay := default (initialDelay DEFAULT_RETRY_CONFIG) (opt_initialDelay config);
     maxDelay := default (maxDelay DEFAULT_RETRY_CONFIG) (opt_maxDelay config);
     backoffMultiplier :=
       default (backoffMultiplier DEFAULT_RETRY_CONFIG) (opt_backoffMultiplier config) |}.

(** [attempt + 1] on the loop counter: exact below 2^53, where the sum
    rounds back to 2^53. *)
Definition next (attempt : Z) : Z :=
  if (attempt <? 2 ^ 53)%Z then (attempt + 1)%Z else attempt.

(** [attempt <= maxRetries] and [attempt < maxRetries] *)
Definition attempt_le (attempt : Z) (limit : option Double.t) : bool :=
  Double.leb (Double.integer attempt) (Double.to_number limit).

Definition attempt_lt (attempt : Z) (limit : option Double.t) : bool :=
  Double.ltb (Double.integer attempt) (Double.to_number limit).

(** [Math.min(delay * backoffMultiplier, maxDelay)] *)
Definition next_delay (cfg : RetryConfig) (delay : option Double.t)
    : option Double.t :=
  Some (Double.Math_min
          (Double.mul (Double.to_number delay)
                      (Double.to_number (backoffMultiplier cfg)))
          (Double.to_number (maxDelay cfg))).

(** What an observer of a retried call sees, in order. *)
Inductive Event :=
| Call                                   (* [fn()] was invoked *)
| Caught (e : Error)                     (* [lastError = ...] in [catch] *)
| OnRetry (attempt : Z) (e : Error)      (* [onRetry(attempt, lastError)] *)
| Sleep (ms : option Double.t).          (* [setTimeout(resolve, ms)] *)

Definition isCall (ev : Event) : bool :=
  match ev with Call => true | _ => false end.

Definition calls (tr : list Event) : nat :=
  length (List.filter isCall tr).

Definition sleeps (tr : list Event) : list (option Double.t) :=
  omap (λ ev, match ev with Sleep d => Some d | _ => None end) tr.

Definition caught (tr : list Event) : list Error :=
  omap (λ ev, match ev with Caught e => Some e | _ => None end) tr.

(** Calls and sleeps only, in the order they happened. *)
Definition timeline (tr : list Event) : list Event :=
  List.filter (λ ev, match ev with Call | Sleep _ => true | _ => false end) tr.

Section retryWithBackoff.
Context {W T : Type}.

(** The wait between attempts, as an effect on the world. *)
Variable sleep : option Double.t → W → W.

(** Result of [retryWithBackoff]: the value or what is thrown, the
    observed events and the final world. What is thrown is [lastError],
    an [Error] or [undefined] ([None]), or whatever [onRetry] threw. *)
Record Run := mkRun {
  outcome : T + option Thrown;
  trace : list Event;
  world : W;
}.

(** The [for] loop from [attempt] on, at most [fuel] tests of its
    condition: [None] when the loop has not ended by then. *)
Fixpoint retry_loop (fn : W → (T + Thrown) * W)
    (onRetry : option (Z → Error → W → option Thrown * W))
    (cfg : RetryConfig) (fuel : nat) (attempt : Z)
    (delay : option Double.t)
    (lastError : option Error) (tr : list Event) (w : W) : option Run :=
  match fuel with
  | O => None
  | S fuel' =>
    if attempt_le attempt (maxRetries cfg) then
      let '(r, w1) := fn w in
      match r with
      | inl v => Some {| outcome := inl v; trace := tr ++ [Call]; world := w1 |}
      | inr thrown =>
        let lastError := toError thrown in
        let tr1 := tr ++ [Call; Caught lastError] in
        if attempt_lt attempt (maxRetries cfg) then
          let '(cb, w2, tr2) :=
            match onRetry with
            | Some f =>
                let '(res, w') := f (next attempt) lastError w1 in
                (res, w', tr1 ++ [OnRetry (next attempt) lastError])
            | None => (None, w1, tr1)
            end in
          match cb with
          | Some thrown' =>
              (* what the callback throws leaves the [catch] block and
                 the function as it is *)
              Some {| outcome := inr (Some thrown');
                      trace := tr2; world := w2 |}
          | None =>
              retry_loop fn onRetry cfg fuel' (next attempt)
                (next_delay cfg delay)
                (Some lastError) (tr2 ++ [Sleep delay]) (sleep delay w2)
          end
        else
          retry_loop fn onRetry cfg fuel' (next attempt) delay
            (Some lastError) tr1 w1
      end
    else
      (* [throw lastError] *)
      Some {| outcome := inr (ThrownError <$> lastError);
              trace := tr; world := w |}
  end.

Definition retryWithBackoff (fn : W → (T + Thrown) * W)
    (config : PartialRetryConfig)
    (onRetry : option (Z → Error → W → option Thrown * W))
    (fuel : nat) (w : W) : option Run :=
  let cfg := withDefaults config in
  retry_loop fn onRetry cfg fuel 0 (initialDelay cfg) None [] w.

End retryWithBackoff.

(** The delays the loop goes through: the variable [delay] after [n]
    sleeps. *)
Fixpoint delay_seq (cfg : RetryConfig) (n : nat) : option Double.t :=
  match n with
  | O => initialDelay cfg
  | S n' => next_delay cfg (delay_seq cfg n')
  end.

(** [maxRetries] is the integer [N], small enough for the counter to
    reach it. *)
Definition maxRetries_is (cfg : RetryConfig) (N : nat) : Prop :=
  Double.is_integer (Double.to_number (maxRetries cfg)) (Z.of_nat N) ∧
  (Z.of_nat N < 2 ^ 53)%Z.

(** The calls and sleeps expected of a call that fails [N + 1] times: a
    sleep of [delay_k] after failed attempt [k], except after the last
    one. *)
Definition pair_at (cfg : RetryConfig) (k : nat) : list Event :=
  [Call; Sleep (delay_seq cfg k)].

Definition expected_timeline (cfg : RetryConfig) (N : nat) : list Event :=
  flat_map (pair_at cfg) (seq 0 N) ++ [Call].

(** Timeline of the [iters] iterations that start at [attempt]. *)
Definition timeline_from (cfg : RetryConfig) (attempt iters : nat) : list Event :=
  match iters with
  | O => []
  | S i => flat_map (pair_at cfg) (seq attempt i) ++ [Call]
  end.

(** [fn] rejects whenever it is called. *)
Definition always_fails {W T} (fn : W → (T + Thrown) * W) : Prop :=
  ∀ w, ∃ t, (fn w).1 = inr t.

(** The [onRetry] callback, when given, returns without throwing. *)
Definition returns_normally {W}
    (onRetry : option (Z → Error → W → option Thrown * W)) : Prop :=
  ∀ f, onRetry = Some f → ∀ n e w, (f n e w).1 = None.

(** [delay > maxDelay] *)
Definition exceeds (cfg : RetryConfig) (delay : option Double.t) : bool :=
  Double.ltb (Double.to_number (maxDelay cfg)) (Double.to_number delay).

(** [0 <= initialDelay <= maxDelay] and [1 <= backoffMultiplier], the
    three of them finite numbers. *)
Definition grows (cfg : RetryConfig) : Prop :=
  let initial := Double.to_number (initialDelay cfg) in
  let cap := Double.to_number (maxDelay cfg) in
  let multiplier := Double.to_number (backoffMultiplier cfg) in
  Double.finite initial = true ∧ Double.finite cap = true ∧
  Double.finite multiplier = true ∧
  Double.leb (Double.of_Z 0) initial = true ∧
  Double.leb initial cap = true ∧
  Double.leb (Double.of_Z 1) multiplier = true.

(** No delay is greater than the next one. *)
Definition nondecreasing (l : list (option Double.t)) : Prop :=
  ∀ i a b, l !! i = Some a → l !! S i = Some b →
           Double.leb (Double.to_number a) (Double.to_number b) = true.

(** [isRetryableError] *)
Definition retryablePatterns : list string :=
  ["timeout"; "network"; "connection"; "ECONNREFUSED"; "ETIMEDOUT";
   "rate limit"; "too many requests"; "503"; "504"].

Definition isRetryableError (error : Error) : bool :=
  existsb (λ pattern,
             Pattern.test pattern (err_message error) ||
             Pattern.test pattern (err_name error))
          retryablePatterns.

End Retry.


(** ** retry.ts: [class CircuitBreaker] *)

Module CircuitBreaker.

Local Open Scope Z_scope.

Inductive BreakerState := closed | open | half_open.

(** The private fields and the two constructor parameters. *)
Record t := mk {
  failures : Z;
  lastFailureTime : option Z;
  state : BreakerState;
  threshold : Z;
  resetTimeout : Z;
}.

(** [new CircuitBreaker(threshold, resetTimeout)] *)
Definition new (threshold resetTimeout : Z) : t :=
  {| failures := 0; lastFailureTime := None; state := closed;
     threshold := threshold; resetTimeout := resetTimeout |}.

(** [new CircuitBreaker()] *)
Definition new_default : t := new 5 60000.

Definition open_error : Error :=
  new_Error "Circuit breaker is open - too many recent failures".

Definition set_state (s : BreakerState) (b : t) : t :=
  {| failures := failures b; lastFailureTime := lastFailureTime b; state := s;
     threshold := threshold b; resetTimeout := resetTimeout b |}.

Definition set_failures (n : Z) (b : t) : t :=
  {| failures := n; lastFailureTime := lastFailureTime b; state := state b;
     threshold := threshold b; resetTimeout := resetTimeout b |}.

Definition set_lastFailureTime (o : option Z) (b : t) : t :=
  {| failures := failures b; lastFailureTime := o; state := state b;
     threshold := threshold b; resetTimeout := resetTimeout b |}.

(** [this.lastFailureTime && now - this.lastFailureTime > this.resetTimeout]:
    an unset or zero timestamp is falsy. *)
Definition timeout_elapsed (b : t) (now : Z) : bool :=
  match lastFailureTime b with
  | Some last => negb (last =? 0) && (now - last >? resetTimeout b)
  | None => false
  end.

Section execute.
Context {W T : Type}.

(** [Date.now()] *)
Variable Date_now : W → Z * W.

(** What [execute] did: the value or the rejection, how often the wrapped
    function was invoked, the breaker afterwards and the next world. *)
Record Result := mkResult {
  result : T + Thrown;
  fn_calls : nat;
  breaker : t;
  world : W;
}.

(** The [try] / [catch] part of [execute]. *)
Definition attempt (b : t) (fn : W → (T + Thrown) * W) (w : W) : Result :=
  let '(r, w1) := fn w in
  match r with
  | inl v =>
      let b1 := match state b with
                | half_open => set_failures 0 (set_state closed b)
                | _ => b
                end in
      {| result := inl v; fn_calls := 1; breaker := b1; world := w1 |}
  | inr error =>
      let '(now, w2) := Date_now w1 in
      let b1 := set_lastFailureTime (Some now) (set_failures (failures b + 1) b) in
      let b2 := if failures b1 >=? threshold b1 then set_state open b1 else b1 in
      {| result := inr error; fn_calls := 1; breaker := b2; world := w2 |}
  end.

Definition execute (b : t) (fn : W → (T + Thrown) * W) (w : W) : Result :=
  match state b with
  | open =>
      let '(now, w1) := Date_now w in
      if timeout_elapsed b now then attempt (set_state half_open b) fn w1
      else {| result := inr (ThrownError open_error); fn_calls := 0;
              breaker := b; world := w1 |}
  | _ => attempt b fn w
  end.

(** [execute] on either side of [await fn()], for calls that overlap.
    Up to the call of [fn]: whether [fn] is called, and the breaker at
    that point. *)
Definition enter (b : t) (w : W) : bool * t * W :=
  match state b with
  | open =>
      let '(now, w1) := Date_now w in
      if timeout_elapsed b now then (true, set_state half_open b, w1)
      else (false, b, w1)
  | _ => (true, b, w)
  end.

(** Once the promise of [fn] has settled, on the breaker as it is by
    then. *)
Definition settle (b : t) (r : T + Thrown) (w : W) : t * W :=
  match r with
  | inl v =>
      (match state b with
       | half_open => set_failures 0 (set_state closed b)
       | _ => b
       end, w)
  | inr error =>
      let '(now, w1) := Date_now w in
      let b1 := set_lastFailureTime (Some now) (set_failures (failures b + 1) b) in
      (if failures b1 >=? threshold b1 then set_state open b1 else b1, w1)
  end.

(** Calls made one after the other on the same breaker. *)
Fixpoint execute_all (b : t) (fns : list (W → (T + Thrown) * W)) (w : W)
    : list Result * t * W :=
  match fns with
  | [] => ([], b, w)
  | fn :: rest =>
      let r := execute b fn w in
      let '(rs, b', w') := execute_all (breaker r) rest (world r) in
      (r :: rs, b', w')
  end.

End execute.

(** [reset()] *)
Definition reset (b : t) : t :=
  set_lastFailureTime None (set_state closed (set_failures 0 b)).

(** [getState()] *)
Definition getState (b : t) : string :=
  match state b with
  | closed => "closed"
  | open => "open"
  | half_open => "half-open"
  end.

Definition is_failure {T} (r : T + Thrown) : bool :=
  match r with inr _ => true | inl _ => false end.

(** How many of the calls were rejected. *)
Definition failed_calls {W T} (rs : list (Result (W := W) (T := T))) : Z :=
  Z.of_nat (length (List.filter (λ r, is_failure (result r)) rs)).

(** Every call reached the wrapped function, once. *)
Definition all_attempted {W T} (rs : list (Result (W := W) (T := T))) : Prop :=
  Forall (λ r, fn_calls r = 1%nat) rs.

End CircuitBreaker.


(** ** JavaScript values and JSON documents *)

Module JS.

(** A JavaScript number, as far as [JSON.stringify] distinguishes them. *)
Inductive number :=
| Finite (z : Z)
| NaN
| Infinity (negative : bool).

(** [a - b] *)
Definition number_sub (a b : number) : number :=
  match a, b with
  | Finite x, Finite y => Finite (x - y)
  | NaN, _ | _, NaN => NaN
  | Infinity s, Finite _ => Infinity s
  | Finite _, Infinity s => Infinity (negb s)
  | Infinity s, Infinity s' => if Bool.eqb s s' then NaN else Infinity s
  end.

(** Runtime values held by a workflow state. An object is the list of its
    own enumerable properties in enumeration order; an [Error] instance has
    none ([name] lives on the prototype, [message] and [stack] are not
    enumerable). *)
#[local] Unset Elimination Schemes.
Inductive value :=
| Undefined
| Null
| Bool (b : bool)
| Number (n : number)
| Str (s : string)
| Array (items : list value)
| Object (props : list (string * value))
| ErrorObject (e : Error).

(** A JSON document. The text written to a file is identified with the
    document it denotes: [JSON.parse] reads back exactly the document that
    [JSON.stringify] printed. *)
Inductive json :=
| JNull
| JBool (b : bool)
| JNumber (z : Z)
| JString (s : string)
| JArray (items : list json)
| JObject (members : list (string * json)).
#[local] Set Elimination Schemes.

Section value_ind.
Variable P : value → Prop.
Hypothesis case_Undefined : P Undefined.
Hypothesis case_Null : P Null.
Hypothesis case_Bool : ∀ b, P (Bool b).
Hypothesis case_Number : ∀ n, P (Number n).
Hypothesis case_Str : ∀ s, P (Str s).
Hypothesis case_Array : ∀ items, Forall P items → P (Array items).
Hypothesis case_Object : ∀ props, Forall (λ kv, P kv.2) props → P (Object props).
Hypothesis case_ErrorObject : ∀ e, P (ErrorObject e).

End value_ind.

(** [JSON.stringify(v)]: [None] is the result [undefined]. Properties whose
    value has no JSON form are left out, array holes of that kind and
    non-finite numbers become [null], an [Error] shows as an empty object. *)
Fixpoint stringify (v : value) : option json :=
  match v with
  | Undefined => None
  | Null => Some JNull
  | Bool b => Some (JBool b)
  | Number (Finite z) => Some (JNumber z)
  | Number _ => Some JNull
  | Str s => Some (JString s)
  | Array items =>
      Some (JArray (List.map (λ x, default JNull (stringify x)) items))
  | Object props =>
      Some (JObject
        ((fix members (ps : list (string * value)) : list (string * json) :=
            match ps with
            | [] => []
            | (k, x) :: ps' =>
                match stringify x with
                | Some j => (k, j) :: members ps'
                | None => members ps'
                end
            end) props))
  | ErrorObject _ => Some (JObject [])
  end.

(** [JSON.parse] of a document. *)
Fixpoint parse (j : json) : value :=
  match j with
  | JNull => Null
  | JBool b => Bool b
  | JNumber z => Number (Finite z)
  | JString s => Str s
  | JArray items => Array (List.map parse items)
  | JObject members =>
      Object
        ((fix props (ms : list (string * json)) : list (string * value) :=
            match ms with
            | [] => []
            | (k, x) :: ms' => (k, parse x) :: props ms'
            end) members)
  end.

(** Values that JSON represents exactly: no [undefined], no non-finite
    number, no [Error] instance, at any depth. *)
Fixpoint representable (v : value) : bool :=
  match v with
  | Undefined => false
  | Null | Bool _ | Str _ => true
  | Number (Finite _) => true
  | Number _ => false
  | Array items => forallb representable items
  | Object props =>
      (fix all (ps : list (string * value)) : bool :=
         match ps with
         | [] => true
         | (_, x) :: ps' => representable x && all ps'
         end) props
  | ErrorObject _ => false
  end.

(** What [loadState] reads back for a value that was saved. *)
Definition reread (v : value) : option value := parse <$> stringify v.

(** An object literal in which a key with an absent optional value is not
    written at all. *)
Definition field (k : string) (v : value) : list (string * value) := [(k, v)].

Definition optional {A} (k : string) (f : A → value) (o : option A)
    : list (string * value) :=
  match o with
  | Some a => [(k, f a)]
  | None => []
  end.

Definition strings (l : list string) : value := Array (List.map Str l).

End JS.


(** ** types.ts *)

(** One module per interface keeps the field names of the source. Each
    [to_js] gives the object as [JSON.stringify] sees it: an optional field
    that is not set is an absent property. *)

Inductive WorkflowStep :=
| INITIALIZED
| EXTRACTING_DESIGN
| GETTING_SCREENSHOT
| AWAITING_USER_INPUT
| GETTING_METADATA
| ANALYZING
| GENERATING
| VALIDATING
| UPDATING_SECTION_MODEL
| COMPLETED
| FAILED.

Global Instance WorkflowStep_eq_dec : EqDecision WorkflowStep.
Proof. solve_decision. Defined.

(** The string value of each member of the enum. *)
Definition WorkflowStep_value (s : WorkflowStep) : string :=
  match s with
  | INITIALIZED => "initialized"
  | EXTRACTING_DESIGN => "extracting_design"
  | GETTING_SCREENSHOT => "getting_screenshot"
  | AWAITING_USER_INPUT => "awaiting_user_input"
  | GETTING_METADATA => "getting_metadata"
  | ANALYZING => "analyzing"
  | GENERATING => "generating"
  | VALIDATING => "validating"
  | UPDATING_SECTION_MODEL => "updating_section_model"
  | COMPLETED => "completed"
  | FAILED => "failed"
  end.

Module WorkflowOptions.
Record t := mk {
  updateSectionModel : bool;
  validateOutput : bool;
  persistContext : bool;
  skipScreenshot : bool;
  strictValidation : bool;
}.

Definition to_js (o : t) : JS.value :=
  JS.Object [("updateSectionModel", JS.Bool (updateSectionModel o));
             ("validateOutput", JS.Bool (validateOutput o));
             ("persistContext", JS.Bool (persistContext o));
             ("skipScreenshot", JS.Bool (skipScreenshot o));
             ("strictValidation", JS.Bool (strictValidation o))].
End WorkflowOptions.

Module WorkflowInput.
Record t := mk {
  blockName : string;
  figmaUrl : option string;
  figmaNodeId : option string;
  figmaFileKey : option string;
  outputPath : string;
  options : option WorkflowOptions.t;
}.

Definition to_js (i : t) : JS.value :=
  JS.Object (JS.field "blockName" (JS.Str (blockName i)) ++
             JS.optional "figmaUrl" JS.Str (figmaUrl i) ++
             JS.optional "figmaNodeId" JS.Str (figmaNodeId i) ++
             JS.optional "figmaFileKey" JS.Str (figmaFileKey i) ++
             JS.field "outputPath" (JS.Str (outputPath i)) ++
             JS.optional "options" WorkflowOptions.to_js (options i)).

(** [input.options?.flag]: [undefined], hence falsy, without options. *)
Definition option_flag (flag : WorkflowOptions.t → bool) (i : t) : bool :=
  match options i with
  | Some o => flag o
  | None => false
  end.
End WorkflowInput.

Module DesignContext.
Record t := mk {
  generatedCode : string;
  nodeId : string;
  fileName : option string;
  timestamp : string;
}.

Definition to_js (d : t) : JS.value :=
  JS.Object (JS.field "generatedCode" (JS.Str (generatedCode d)) ++
             JS.field "nodeId" (JS.Str (nodeId d)) ++
             JS.optional "fileName" JS.Str (fileName d) ++
             JS.field "timestamp" (JS.Str (timestamp d))).
End DesignContext.

Inductive ImageFormat := png | jpg.

Definition ImageFormat_value (f : ImageFormat) : string :=
  match f with png => "png" | jpg => "jpg" end.

Module Screenshot.
Record t := mk {
  data : string;            (* base64 or URL *)
  format : ImageFormat;
  timestamp : string;
}.

Definition to_js (s : t) : JS.value :=
  JS.Object [("data", JS.Str (data s));
             ("format", JS.Str (ImageFormat_value (format s)));
             ("timestamp", JS.Str (timestamp s))].
End Screenshot.

Module FigmaMetadata.
Record t := mk {
  nodeId : string;
  nodeName : string;
  nodeType : string;
  structure : list (string * JS.value);     (* Record<string, unknown> *)
  timestamp : string;
}.

Definition to_js (m : t) : JS.value :=
  JS.Object [("nodeId", JS.Str (nodeId m));
             ("nodeName", JS.Str (nodeName m));
             ("nodeType", JS.Str (nodeType m));
             ("structure", JS.Object (structure m));
             ("timestamp", JS.Str (timestamp m))].
End FigmaMetadata.

Module FieldSpec.
(** An element of [containerFields] / [itemFields]. *)
Record t := mk {
  name : string;
  type : string;
  label : string;
  component : string;
}.

Definition to_js (f : t) : JS.value :=
  JS.Object [("name", JS.Str (name f));
             ("type", JS.Str (type f));
             ("label", JS.Str (label f));
             ("component", JS.Str (component f))].
End FieldSpec.

Inductive BlockType := single | multi_item.

Definition BlockType_value (b : BlockType) : string :=
  match b with single => "single" | multi_item => "multi-item" end.

Module BlockAnalysis.
Record ContentStructure := mkContentStructure {
  containerFields : list FieldSpec.t;
  itemFields : option (list FieldSpec.t);
}.

Record DesignTokens := mkDesignTokens {
  colors : list string;
  typography : list string;
  spacing : list string;
}.

Record t := mk {
  blockName : string;
  blockType : BlockType;
  contentStructure : ContentStructure;
  designTokens : DesignTokens;
  interactiveElements : list string;
  timestamp : string;
}.

(** [{ ...analysis, blockName }] *)
Definition with_blockName (name : string) (a : t) : t :=
  {| blockName := name; blockType := blockType a;
     contentStructure := contentStructure a; designTokens := designTokens a;
     interactiveElements := interactiveElements a; timestamp := timestamp a |}.

Definition fields_to_js (l : list FieldSpec.t) : JS.value :=
  JS.Array (List.map FieldSpec.to_js l).

Definition to_js (a : t) : JS.value :=
  JS.Object
    [("blockName", JS.Str (blockName a));
     ("blockType", JS.Str (BlockType_value (blockType a)));
     ("contentStructure",
       JS.Object (JS.field "containerFields"
                    (fields_to_js (containerFields (contentStructure a))) ++
                  JS.optional "itemFields" fields_to_js
                    (itemFields (contentStructure a))));
     ("designTokens",
       JS.Object [("colors", JS.strings (colors (designTokens a)));
                  ("typography", JS.strings (typography (designTokens a)));
                  ("spacing", JS.strings (spacing (designTokens a)))]);
     ("interactiveElements", JS.strings (interactiveElements a));
     ("timestamp", JS.Str (timestamp a))].
End BlockAnalysis.

Module GeneratedFiles.
Record t := mk {
  css : string;
  javascript : string;
  model : string;
  readme : option string;
}.

Definition to_js (g : t) : JS.value :=
  JS.Object (JS.field "css" (JS.Str (css g)) ++
             JS.field "javascript" (JS.Str (javascript g)) ++
             JS.field "model" (JS.Str (model g)) ++
             JS.optional "readme" JS.Str (readme g)).
End GeneratedFiles.

Module ValidationResult.
Inductive Status := PASSED | FAILED.

Definition Status_value (s : Status) : string :=
  match s with PASSED => "PASSED" | FAILED => "FAILED" end.

Record Summary := mkSummary {
  totalErrors : Z;
  totalWarnings : Z;
  status : Status;
}.

Record t := mk {
  validated : bool;
  errors : list string;
  warnings : list string;
  summary : Summary;
}.

Definition to_js (v : t) : JS.value :=
  JS.Object
    [("validated", JS.Bool (validated v));
     ("errors", JS.strings (errors v));
     ("warnings", JS.strings (warnings v));
     ("summary",
       JS.Object [("totalErrors", JS.Number (JS.Finite (totalErrors (summary v))));
                  ("totalWarnings", JS.Number (JS.Finite (totalWarnings (summary v))));
                  ("status", JS.Str (Status_value (status (summary v))))])].
End ValidationResult.

Inductive InputType := screenshot_input | confirmation_input | text_input.

Definition InputType_value (i : InputType) : string :=
  match i with
  | screenshot_input => "screenshot"
  | confirmation_input => "confirmation"
  | text_input => "text"
  end.

Module AwaitingUserInput.
Record t := mk {
  requestedAt : string;
  promptMessage : string;
  inputType : InputType;
}.

Definition to_js (a : t) : JS.value :=
  JS.Object [("requestedAt", JS.Str (requestedAt a));
             ("promptMessage", JS.Str (promptMessage a));
             ("inputType", JS.Str (InputType_value (inputType a)))].
End AwaitingUserInput.

Module WorkflowError.
Record t := mk {
  step : WorkflowStep;
  message : string;
  error : option Error;
  timestamp : string;
  retryable : bool;
  requiresUserInput : option bool;
  userPrompt : option string;
}.

Definition to_js (e : t) : JS.value :=
  JS.Object (JS.field "step" (JS.Str (WorkflowStep_value (step e))) ++
             JS.field "message" (JS.Str (message e)) ++
             JS.optional "error" JS.ErrorObject (error e) ++
             JS.field "timestamp" (JS.Str (timestamp e)) ++
             JS.field "retryable" (JS.Bool (retryable e)) ++
             JS.optional "requiresUserInput" JS.Bool (requiresUserInput e) ++
             JS.optional "userPrompt" JS.Str (userPrompt e)).
End WorkflowError.

Module MCPToolResult.
Record t (T : Type) := mk {
  success : bool;
  data : option T;
  error : option string;
}.
Arguments mk {T}.
Arguments success {T}.
Arguments data {T}.
Arguments error {T}.

(** [!result.success || !result.data], for object-valued data: the payload
    when the call counts as successful. *)
Definition payload {T} (r : t T) : option T :=
  if success r then data r else None.
End MCPToolResult.

Module WorkflowState.
Record t := mk {
  input : WorkflowInput.t;
  designContext : option DesignContext.t;
  screenshot : option Screenshot.t;
  userProvidedScreenshot : option bool;
  metadata : option FigmaMetadata.t;
  analysis : option BlockAnalysis.t;
  generatedFiles : option GeneratedFiles.t;
  validation : option ValidationResult.t;
  sectionModelUpdated : option bool;
  currentStep : WorkflowStep;
  awaitingUserInput : option AwaitingUserInput.t;
  errors : list WorkflowError.t;
  startTime : string;
  endTime : option string;
  duration : option JS.number;
}.

Definition to_js (s : t) : JS.value :=
  JS.Object
    (JS.field "input" (WorkflowInput.to_js (input s)) ++
     JS.optional "designContext" DesignContext.to_js (designContext s) ++
     JS.optional "screenshot" Screenshot.to_js (screenshot s) ++
     JS.optional "userProvidedScreenshot" JS.Bool (userProvidedScreenshot s) ++
     JS.optional "metadata" FigmaMetadata.to_js (metadata s) ++
     JS.optional "analysis" BlockAnalysis.to_js (analysis s) ++
     JS.optional "generatedFiles" GeneratedFiles.to_js (generatedFiles s) ++
     JS.optional "validation" ValidationResult.to_js (validation s) ++
     JS.optional "sectionModelUpdated" JS.Bool (sectionModelUpdated s) ++
     JS.field "currentStep" (JS.Str (WorkflowStep_value (currentStep s))) ++
     JS.optional "awaitingUserInput" AwaitingUserInput.to_js (awaitingUserInput s) ++
     JS.field "errors" (JS.Array (List.map WorkflowError.to_js (errors s))) ++
     JS.field "startTime" (JS.Str (startTime s)) ++
     JS.optional "endTime" JS.Str (endTime s) ++
     JS.optional "duration" JS.Number (duration s)).
End WorkflowState.


(** ** The state channels of the graph (workflow.ts, [WorkflowStateAnnotation]) *)

(** A node returns a [Partial<WorkflowState>]: an object literal that names
    the keys it writes. The graph merges it into the state key by key, each
    key through the reducer of its channel. *)

Module Update.

(** One [key: value] of a returned object literal. *)
Inductive entry :=
| input (v : WorkflowInput.t)
| designContext (v : DesignContext.t)
| screenshot (v : Screenshot.t)
| userProvidedScreenshot (v : bool)
| metadata (v : FigmaMetadata.t)
| analysis (v : BlockAnalysis.t)
| generatedFiles (v : GeneratedFiles.t)
| validation (v : ValidationResult.t)
| sectionModelUpdated (v : bool)
| currentStep (v : WorkflowStep)
| awaitingUserInput (v : option AwaitingUserInput.t)  (* may be [undefined] *)
| errors (v : list WorkflowError.t)
| startTime (v : string)
| endTime (v : string)
| duration (v : JS.number).

Definition t := list entry.

Definition set_input (v : WorkflowInput.t) (s : WorkflowState.t) : WorkflowState.t :=
  {| WorkflowState.input := v;
     WorkflowState.designContext := WorkflowState.designContext s;
     WorkflowState.screenshot := WorkflowState.screenshot s;
     WorkflowState.userProvidedScreenshot := WorkflowState.userProvidedScreenshot s;
     WorkflowState.metadata := WorkflowState.metadata s;
     WorkflowState.analysis := WorkflowState.analysis s;
     WorkflowState.generatedFiles := WorkflowState.generatedFiles s;
     WorkflowState.validation := WorkflowState.validation s;
     WorkflowState.sectionModelUpdated := WorkflowState.sectionModelUpdated s;
     WorkflowState.currentStep := WorkflowState.currentStep s;
     WorkflowState.awaitingUserInput := WorkflowState.awaitingUserInput s;
     WorkflowState.errors := WorkflowState.errors s;
     WorkflowState.startTime := WorkflowState.startTime s;
     WorkflowState.endTime := WorkflowState.endTime s;
     WorkflowState.duration := WorkflowState.duration s |}.

Definition set_designContext (v : option DesignContext.t) (s : WorkflowState.t) : WorkflowState.t :=
  {| WorkflowState.input := WorkflowState.input s;
     WorkflowState.designContext := v;
     WorkflowState.screenshot := WorkflowState.screenshot s;
     WorkflowState.userProvidedScreenshot := WorkflowState.userProvidedScreenshot s;
     WorkflowState.metadata := WorkflowState.metadata s;
     WorkflowState.analysis := WorkflowState.analysis s;
     WorkflowState.generatedFiles := WorkflowState.generatedFiles s;
     WorkflowState.validation := WorkflowState.validation s;
     WorkflowState.sectionModelUpdated := WorkflowState.sectionModelUpdated s;
     WorkflowState.currentStep := WorkflowState.currentStep s;
     WorkflowState.awaitingUserInput := WorkflowState.awaitingUserInput s;
     WorkflowState.errors := WorkflowState.errors s;
     WorkflowState.startTime := WorkflowState.startTime s;
     WorkflowState.endTime := WorkflowState.endTime s;
     WorkflowState.duration := WorkflowState.duration s |}.

Definition set_screenshot (v : option Screenshot.t) (s : WorkflowState.t) : WorkflowState.t :=
  {| WorkflowState.input := WorkflowState.input s;
     WorkflowState.designContext := WorkflowState.designContext s;
     WorkflowState.screenshot := v;
     WorkflowState.userProvidedScreenshot := WorkflowState.userProvidedScreenshot s;
     WorkflowState.metadata := WorkflowState.metadata s;
     WorkflowState.analysis := WorkflowState.analysis s;
     WorkflowState.generatedFiles := WorkflowState.generatedFiles s;
     WorkflowState.validation := WorkflowState.validation s;
     WorkflowState.sectionModelUpdated := WorkflowState.sectionModelUpdated s;
     WorkflowState.currentStep := WorkflowState.currentStep s;
     WorkflowState.awaitingUserInput := WorkflowState.awaitingUserInput s;
     WorkflowState.errors := WorkflowState.errors s;
     WorkflowState.startTime := WorkflowState.startTime s;
     WorkflowState.endTime := WorkflowState.endTime s;
     WorkflowState.duration := WorkflowState.duration s |}.

Definition set_userProvidedScreenshot (v : option bool) (s : WorkflowState.t) : WorkflowState.t :=
  {| WorkflowState.input := WorkflowState.input s;
     WorkflowState.designContext := WorkflowState.designContext s;
     WorkflowState.screenshot := WorkflowState.screenshot s;
     WorkflowState.userProvidedScreenshot := v;
     WorkflowState.metadata := WorkflowState.metadata s;
     WorkflowState.analysis := WorkflowState.analysis s;
     WorkflowState.generatedFiles := WorkflowState.generatedFiles s;
     WorkflowState.validation := WorkflowState.validation s;
     WorkflowState.sectionModelUpdated := WorkflowState.sectionModelUpdated s;
     WorkflowState.currentStep := WorkflowState.currentStep s;
     WorkflowState.awaitingUserInput := WorkflowState.awaitingUserInput s;
     WorkflowState.errors := WorkflowState.errors s;
     WorkflowState.startTime := WorkflowState.startTime s;
     WorkflowState.endTime := WorkflowState.endTime s;
     WorkflowState.duration := WorkflowState.duration s |}.

Definition set_metadata (v : option FigmaMetadata.t) (s : WorkflowState.t) : WorkflowState.t :=
  {| WorkflowState.input := WorkflowState.input s;
     WorkflowState.designContext := WorkflowState.designContext s;
     WorkflowState.screenshot := WorkflowState.screenshot s;
     WorkflowState.userProvidedScreenshot := WorkflowState.userProvidedScreenshot s;
     WorkflowState.metadata := v;
     WorkflowState.analysis := WorkflowState.analysis s;
     WorkflowState.generatedFiles := WorkflowState.generatedFiles s;
     WorkflowState.validation := WorkflowState.validation s;
     WorkflowState.sectionModelUpdated := WorkflowState.sectionModelUpdated s;
     WorkflowState.currentStep := WorkflowState.currentStep s;
     WorkflowState.awaitingUserInput := WorkflowState.awaitingUserInput s;
     WorkflowState.errors := WorkflowState.errors s;
     WorkflowState.startTime := WorkflowState.startTime s;
     WorkflowState.endTime := WorkflowState.endTime s;
     WorkflowState.duration := WorkflowState.duration s |}.

Definition set_analysis (v : option BlockAnalysis.t) (s : WorkflowState.t) : WorkflowState.t :=
  {| WorkflowState.input := WorkflowState.input s;
     WorkflowState.designContext := WorkflowState.designContext s;
     WorkflowState.screenshot := WorkflowState.screenshot s;
     WorkflowState.userProvidedScreenshot := WorkflowState.userProvidedScreenshot s;
     WorkflowState.metadata := WorkflowState.metadata s;
     WorkflowState.analysis := v;
     WorkflowState.generatedFiles := WorkflowState.generatedFiles s;
     WorkflowState.validation := WorkflowState.validation s;
     WorkflowState.sectionModelUpdated := WorkflowState.sectionModelUpdated s;
     WorkflowState.currentStep := WorkflowState.currentStep s;
     WorkflowState.awaitingUserInput := WorkflowState.awaitingUserInput s;
     WorkflowState.errors := WorkflowState.errors s;
     WorkflowState.startTime := WorkflowState.startTime s;
     WorkflowState.endTime := WorkflowState.endTime s;
     WorkflowState.duration := WorkflowState.duration s |}.

Definition set_generatedFiles (v : option GeneratedFiles.t) (s : WorkflowState.t) : WorkflowState.t :=
  {| WorkflowState.input := WorkflowState.input s;
     WorkflowState.designContext := WorkflowState.designContext s;
     WorkflowState.screenshot := WorkflowState.screenshot s;
     WorkflowState.userProvidedScreenshot := WorkflowState.userProvidedScreenshot s;
     WorkflowState.metadata := WorkflowState.metadata s;
     WorkflowState.analysis := WorkflowState.analysis s;
     WorkflowState.generatedFiles := v;
     WorkflowState.validation := WorkflowState.validation s;
     WorkflowState.sectionModelUpdated := WorkflowState.sectionModelUpdated s;
     WorkflowState.currentStep := WorkflowState.currentStep s;
     WorkflowState.awaitingUserInput := WorkflowState.awaitingUserInput s;
     WorkflowState.errors := WorkflowState.errors s;
     WorkflowState.startTime := WorkflowState.startTime s;
     WorkflowState.endTime := WorkflowState.endTime s;
     WorkflowState.duration := WorkflowState.duration s |}.

Definition set_validation (v : option ValidationResult.t) (s : WorkflowState.t) : WorkflowState.t :=
  {| WorkflowState.input := WorkflowState.input s;
     WorkflowState.designContext := WorkflowState.designContext s;
     WorkflowState.screenshot := WorkflowState.screenshot s;
     WorkflowState.userProvidedScreenshot := WorkflowState.userProvidedScreenshot s;
     WorkflowState.metadata := WorkflowState.metadata s;
     WorkflowState.analysis := WorkflowState.analysis s;
     WorkflowState.generatedFiles := WorkflowState.generatedFiles s;
     WorkflowState.validation := v;
     WorkflowState.sectionModelUpdated := WorkflowState.sectionModelUpdated s;
     WorkflowState.currentStep := WorkflowState.currentStep s;
     WorkflowState.awaitingUserInput := WorkflowState.awaitingUserInput s;
     WorkflowState.errors := WorkflowState.errors s;
     WorkflowState.startTime := WorkflowState.startTime s;
     WorkflowState.endTime := WorkflowState.endTime s;
     WorkflowState.duration := WorkflowState.duration s |}.

Definition set_sectionModelUpdated (v : option bool) (s : WorkflowState.t) : WorkflowState.t :=
  {| WorkflowState.input := WorkflowState.input s;
     WorkflowState.designContext := WorkflowState.designContext s;
     WorkflowState.screenshot := WorkflowState.screenshot s;
     WorkflowState.userProvidedScreenshot := WorkflowState.userProvidedScreenshot s;
     WorkflowState.metadata := WorkflowState.metadata s;
     WorkflowState.analysis := WorkflowState.analysis s;
     WorkflowState.generatedFiles := WorkflowState.generatedFiles s;
     WorkflowState.validation := WorkflowState.validation s;
     WorkflowState.sectionModelUpdated := v;
     WorkflowState.currentStep := WorkflowState.currentStep s;
     WorkflowState.awaitingUserInput := WorkflowState.awaitingUserInput s;
     WorkflowState.errors := WorkflowState.errors s;
     WorkflowState.startTime := WorkflowState.startTime s;
     WorkflowState.endTime := WorkflowState.endTime s;
     WorkflowState.duration := WorkflowState.duration s |}.

Definition set_currentStep (v : WorkflowStep) (s : WorkflowState.t) : WorkflowState.t :=
  {| WorkflowState.input := WorkflowState.input s;
     WorkflowState.designContext := WorkflowState.designContext s;
     WorkflowState.screenshot := WorkflowState.screenshot s;
     WorkflowState.userProvidedScreenshot := WorkflowState.userProvidedScreenshot s;
     WorkflowState.metadata := WorkflowState.metadata s;
     WorkflowState.analysis := WorkflowState.analysis s;
     WorkflowState.generatedFiles := WorkflowState.generatedFiles s;
     WorkflowState.validation := WorkflowState.validation s;
     WorkflowState.sectionModelUpdated := WorkflowState.sectionModelUpdated s;
     WorkflowState.currentStep := v;
     WorkflowState.awaitingUserInput := WorkflowState.awaitingUserInput s;
     WorkflowState.errors := WorkflowState.errors s;
     WorkflowState.startTime := WorkflowState.startTime s;
     WorkflowState.endTime := WorkflowState.endTime s;
     WorkflowState.duration := WorkflowState.duration s |}.

Definition set_awaitingUserInput (v : option AwaitingUserInput.t) (s : WorkflowState.t) : WorkflowState.t :=
  {| WorkflowState.input := WorkflowState.input s;
     WorkflowState.designContext := WorkflowState.designContext s;
     WorkflowState.screenshot := WorkflowState.screenshot s;
     WorkflowState.userProvidedScreenshot := WorkflowState.userProvidedScreenshot s;
     WorkflowState.metadata := WorkflowState.metadata s;
     WorkflowState.analysis := WorkflowState.analysis s;
     WorkflowState.generatedFiles := WorkflowState.generatedFiles s;
     WorkflowState.validation := WorkflowState.validation s;
     WorkflowState.sectionModelUpdated := WorkflowState.sectionModelUpdated s;
     WorkflowState.currentStep := WorkflowState.currentStep s;
     WorkflowState.awaitingUserInput := v;
     WorkflowState.errors := WorkflowState.errors s;
     WorkflowState.startTime := WorkflowState.startTime s;
     WorkflowState.endTime := WorkflowState.endTime s;
     WorkflowState.duration := WorkflowState.duration s |}.

Definition set_errors (v : list WorkflowError.t) (s : WorkflowState.t) : WorkflowState.t :=
  {| WorkflowState.input := WorkflowState.input s;
     WorkflowState.designContext := WorkflowState.designContext s;
     WorkflowState.screenshot := WorkflowState.screenshot s;
     WorkflowState.userProvidedScreenshot := WorkflowState.userProvidedScreenshot s;
     WorkflowState.metadata := WorkflowState.metadata s;
     WorkflowState.analysis := WorkflowState.analysis s;
     WorkflowState.generatedFiles := WorkflowState.generatedFiles s;
     WorkflowState.validation := WorkflowState.validation s;
     WorkflowState.sectionModelUpdated := WorkflowState.sectionModelUpdated s;
     WorkflowState.currentStep := WorkflowState.currentStep s;
     WorkflowState.awaitingUserInput := WorkflowState.awaitingUserInput s;
     WorkflowState.errors := v;
     WorkflowState.startTime := WorkflowState.startTime s;
     WorkflowState.endTime := WorkflowState.endTime s;
     WorkflowState.duration := WorkflowState.duration s |}.

Definition set_startTime (v : string) (s : WorkflowState.t) : WorkflowState.t :=
  {| WorkflowState.input := WorkflowState.input s;
     WorkflowState.designContext := WorkflowState.designContext s;
     WorkflowState.screenshot := WorkflowState.screenshot s;
     WorkflowState.userProvidedScreenshot := WorkflowState.userProvidedScreenshot s;
     WorkflowState.metadata := WorkflowState.metadata s;
     WorkflowState.analysis := WorkflowState.analysis s;
     WorkflowState.generatedFiles := WorkflowState.generatedFiles s;
     WorkflowState.validation := WorkflowState.validation s;
     WorkflowState.sectionModelUpdated := WorkflowState.sectionModelUpdated s;
     WorkflowState.currentStep := WorkflowState.currentStep s;
     WorkflowState.awaitingUserInput := WorkflowState.awaitingUserInput s;
     WorkflowState.errors := WorkflowState.errors s;
     WorkflowState.startTime := v;
     WorkflowState.endTime := WorkflowState.endTime s;
     WorkflowState.duration := WorkflowState.duration s |}.

Definition set_endTime (v : option string) (s : WorkflowState.t) : WorkflowState.t :=
  {| WorkflowState.input := WorkflowState.input s;
     WorkflowState.designContext := WorkflowState.designContext s;
     WorkflowState.screenshot := WorkflowState.screenshot s;
     WorkflowState.userProvidedScreenshot := WorkflowState.userProvidedScreenshot s;
     WorkflowState.metadata := WorkflowState.metadata s;
     WorkflowState.analysis := WorkflowState.analysis s;
     WorkflowState.generatedFiles := WorkflowState.generatedFiles s;
     WorkflowState.validation := WorkflowState.validation s;
     WorkflowState.sectionModelUpdated := WorkflowState.sectionModelUpdated s;
     WorkflowState.currentStep := WorkflowState.currentStep s;
     WorkflowState.awaitingUserInput := WorkflowState.awaitingUserInput s;
     WorkflowState.errors := WorkflowState.errors s;
     WorkflowState.startTime := WorkflowState.startTime s;
     WorkflowState.endTime := v;
     WorkflowState.duration := WorkflowState.duration s |}.

Definition set_duration (v : option JS.number) (s : WorkflowState.t) : WorkflowState.t :=
  {| WorkflowState.input := WorkflowState.input s;
     WorkflowState.designContext := WorkflowState.designContext s;
     WorkflowState.screenshot := WorkflowState.screenshot s;
     WorkflowState.userProvidedScreenshot := WorkflowState.userProvidedScreenshot s;
     WorkflowState.metadata := WorkflowState.metadata s;
     WorkflowState.analysis := WorkflowState.analysis s;
     WorkflowState.generatedFiles := WorkflowState.generatedFiles s;
     WorkflowState.validation := WorkflowState.validation s;
     WorkflowState.sectionModelUpdated := WorkflowState.sectionModelUpdated s;
     WorkflowState.currentStep := WorkflowState.currentStep s;
     WorkflowState.awaitingUserInput := WorkflowState.awaitingUserInput s;
     WorkflowState.errors := WorkflowState.errors s;
     WorkflowState.startTime := WorkflowState.startTime s;
     WorkflowState.endTime := WorkflowState.endTime s;
     WorkflowState.duration := v |}.

(** The reducer of each channel: the last value wins, except for [errors],
    whose reducer is [(existing, update) => [...existing, ...update]]. *)
Definition write (s : WorkflowState.t) (e : entry) : WorkflowState.t :=
  match e with
  | input v => set_input v s
  | designContext v => set_designContext (Some v) s
  | screenshot v => set_screenshot (Some v) s
  | userProvidedScreenshot v => set_userProvidedScreenshot (Some v) s
  | metadata v => set_metadata (Some v) s
  | analysis v => set_analysis (Some v) s
  | generatedFiles v => set_generatedFiles (Some v) s
  | validation v => set_validation (Some v) s
  | sectionModelUpdated v => set_sectionModelUpdated (Some v) s
  | currentStep v => set_currentStep v s
  | awaitingUserInput v => set_awaitingUserInput v s
  | errors v => set_errors (WorkflowState.errors s ++ v) s
  | startTime v => set_startTime v s
  | endTime v => set_endTime (Some v) s
  | duration v => set_duration (Some v) s
  end.

(** Merging a whole update into the state. *)
Definition merge (s : WorkflowState.t) (u : t) : WorkflowState.t :=
  fold_left write u s.

(** The value an update gives to a key, if it names the key. *)
Definition get_currentStep (u : t) : option WorkflowStep :=
  last (omap (λ e, match e with currentStep v => Some v | _ => None end) u).

Definition get_input (u : t) : option WorkflowInput.t :=
  last (omap (λ e, match e with input v => Some v | _ => None end) u).

Definition get_startTime (u : t) : option string :=
  last (omap (λ e, match e with startTime v => Some v | _ => None end) u).

Definition get_awaitingUserInput (u : t) : option (option AwaitingUserInput.t) :=
  last (omap (λ e, match e with awaitingUserInput v => Some v | _ => None end) u).

Definition get_errors (u : t) : option (list WorkflowError.t) :=
  last (omap (λ e, match e with errors v => Some v | _ => None end) u).

Definition get_validation (u : t) : option ValidationResult.t :=
  last (omap (λ e, match e with validation v => Some v | _ => None end) u).

(** The state of a thread without checkpoint after its first input: every
    channel is empty ([errors] has the default [[]]) and the input is
    written on top. The nodes read [input], [currentStep] and [startTime]
    without a guard, so an input that lacks one of them gives no usable
    state. *)
Definition first_state (u : t) : option WorkflowState.t :=
  i ← get_input u;
  c ← get_currentStep u;
  st ← get_startTime u;
  Some (merge
    {| WorkflowState.input := i;
       WorkflowState.designContext := None;
       WorkflowState.screenshot := None;
       WorkflowState.userProvidedScreenshot := None;
       WorkflowState.metadata := None;
       WorkflowState.analysis := None;
       WorkflowState.generatedFiles := None;
       WorkflowState.validation := None;
       WorkflowState.sectionModelUpdated := None;
       WorkflowState.currentStep := c;
       WorkflowState.awaitingUserInput := None;
       WorkflowState.errors := [];
       WorkflowState.startTime := st;
       WorkflowState.endTime := None;
       WorkflowState.duration := None |} u).

End Update.

(** ** Effects *)

(** A computation that reads and changes the world [W]: the clock and the
    external tools. *)
Definition M (W A : Type) : Type := W → A * W.

Global Instance M_ret {W} : MRet (M W) := λ A x w, (x, w).
Global Instance M_bind {W} : MBind (M W) :=
  λ A B f m w, let '(a, w') := m w in f a w'.

(** [value || fallback] on an optional string: unset and empty are falsy. *)
Definition or_else (value : option string) (fallback : string) : string :=
  match value with
  | Some (String c s) => String c s
  | _ => fallback
  end.

(** A string in a condition: the string itself when truthy. *)
Definition truthy (value : option string) : option string :=
  match value with
  | Some (String c s) => Some (String c s)
  | _ => None
  end.

(** [`${value}`] of an optional string. *)
Definition interpolate (value : option string) : string :=
  default "undefined" value.

(** ** retry.ts: [createWorkflowError] *)

Definition createWorkflowError {W} (now_iso : M W string)
    (step : WorkflowStep) (message : string) (error : option Error)
    (retryable : option bool) : M W WorkflowError.t :=
  ts ← now_iso;
  mret {| WorkflowError.step := step;
          WorkflowError.message := message;
          WorkflowError.error := error;
          WorkflowError.timestamp := ts;
          WorkflowError.retryable :=
            match retryable with
            | Some b => b
            | None => match error with
                      | Some e => Retry.isRetryableError e
                      | None => false
                      end
            end;
          WorkflowError.requiresUserInput := None;
          WorkflowError.userPrompt := None |}.


(** ** mcp-client.ts *)

Module McpClient.

(** The longest prefix without the character [c], and the rest. *)
Fixpoint span_not (c : ascii) (s : string) : string * string :=
  match s with
  | EmptyString => (EmptyString, EmptyString)
  | String a s' =>
      if Ascii.eqb a c then (EmptyString, s)
      else let '(run, rest) := span_not c s' in (String a run, rest)
  end.

Fixpoint strip_prefix (p s : string) : option string :=
  match p, s with
  | EmptyString, _ => Some s
  | String a p', String b s' => if Ascii.eqb a b then strip_prefix p' s' else None
  | String _ _, EmptyString => None
  end.

Definition nonempty (s : string) : option string :=
  match s with EmptyString => None | _ => Some s end.

(** A match of [<prefix>([^/]+)\/[^?]*\?node-id=([^&]+)] that starts at the
    head of [s]. Every class is followed by the one character it excludes,
    so the greedy run is the only candidate. *)
Definition match_here (lit s : string) : option (string * string) :=
  r0 ← strip_prefix lit s;
  let '(g1, r1) := span_not "/" r0 in
  fileKey ← nonempty g1;
  r2 ← strip_prefix "/" r1;
  let '(_, r3) := span_not "?" r2 in
  r4 ← strip_prefix "?node-id=" r3;
  let '(g2, _) := span_not "&" r4 in
  nodeId ← nonempty g2;
  Some (fileKey, nodeId).

(** [url.match(pattern)]: the leftmost start that matches. *)
Fixpoint match_anywhere (lit s : string) : option (string * string) :=
  match match_here lit s with
  | Some m => Some m
  | None =>
      match s with
      | EmptyString => None
      | String _ s' => match_anywhere lit s'
      end
  end.

(** [str.replace(/-/g, ':')] *)
Fixpoint dashes_to_colons (s : string) : string :=
  match s with
  | EmptyString => EmptyString
  | String a s' =>
      String (if Ascii.eqb a "-" then ":"%char else a) (dashes_to_colons s')
  end.

Definition patterns : list string := ["figma.com/design/"; "figma.com/file/"].

(** [parseFigmaUrl]: the file key and the node id with [:] for [-]. *)
Definition parseFigmaUrl (url : string) : option (string * string) :=
  (fix try (ps : list string) :=
     match ps with
     | [] => None
     | lit :: ps' =>
         match match_anywhere lit url with
         | Some (fileKey, nodeId) => Some (fileKey, dashes_to_colons nodeId)
         | None => try ps'
         end
     end) patterns.

(** What [generateEdsBlock] passes as [options]. *)
Record GenerateOptions := mkGenerateOptions {
  opt_screenshot : option string;
  opt_metadata : option JS.json;
  opt_persistContext : option bool;
  opt_updateSectionModel : option bool;
  opt_validateOutput : option bool;
}.

(** [FigmaMCPClient]: both methods catch every exception of the tool call
    and answer with an [MCPToolResult]. *)
Record FigmaMCPClient (W : Type) := mkFigmaMCPClient {
  getDesignContext : string → M W (MCPToolResult.t DesignContext.t);
  getScreenshot : string → M W (MCPToolResult.t Screenshot.t);
}.
Arguments getDesignContext {W}.
Arguments getScreenshot {W}.

(** [EDSGeneratorMCPClient] *)
Record EDSGeneratorMCPClient (W : Type) := mkEDSGeneratorMCPClient {
  analyzeBlockStructure :
    string → option string → option JS.json → M W (MCPToolResult.t BlockAnalysis.t);
  generateEdsBlock :
    string → string → string → GenerateOptions → M W (MCPToolResult.t GeneratedFiles.t);
  validateBlockOutput :
    string → string → bool → M W (MCPToolResult.t ValidationResult.t);
}.
Arguments analyzeBlockStructure {W}.
Arguments generateEdsBlock {W}.
Arguments validateBlockOutput {W}.

End McpClient.


(** ** nodes.ts *)

Module Nodes.
Import McpClient.

(** The argument of [interrupt(...)]. *)
Record InterruptPayload := mkInterruptPayload {
  message : string;
  options : list string;
}.

(** [string | { data: string; format: 'png' | 'jpg' }] *)
Inductive UserInput :=
| Text (s : string)
| Image (data : string) (format : ImageFormat).

(** The value of [interrupt(...)], of type [any]: a string, an object with
    whatever [data] and [format] it has, or something else. *)
Inductive ResumeValue :=
| ResumeText (s : string)
| ResumeObject (data : option string) (format : option ImageFormat)
| ResumeOther.

Definition double_quote : string := String (ascii_of_nat 34) EmptyString.

(** A node either returns its update, or stops in [interrupt(...)]: without
    a resume value the call raises [GraphInterrupt] and nothing is
    returned. *)
Inductive Outcome :=
| Return (update : Update.t)
| Interrupted (payload : InterruptPayload).

(** [s.toLowerCase()] on ASCII letters. *)
Fixpoint toLowerCase (s : string) : string :=
  match s with
  | EmptyString => EmptyString
  | String a s' => String (Pattern.fold_case a) (toLowerCase s')
  end.

Definition is_skip (s : string) : bool := String.eqb (toLowerCase s) "skip".

(** The error object a failed stage appends. *)
Definition stage_error (step : WorkflowStep) (message timestamp : string)
    (retryable : bool) : WorkflowError.t :=
  {| WorkflowError.step := step;
     WorkflowError.message := message;
     WorkflowError.error := None;
     WorkflowError.timestamp := timestamp;
     WorkflowError.retryable := retryable;
     WorkflowError.requiresUserInput := None;
     WorkflowError.userPrompt := None |}.

(** The payload of the interrupt raised for a failed capture. *)
Definition capture_failed (reason : option string) (nodeId : string)
    : InterruptPayload :=
  {| message :=
       "Screenshot capture failed: " +:+ interpolate reason +:+
       ". Please provide a screenshot of the Figma design (node: " +:+
       nodeId +:+ ") to improve block generation accuracy.";
     options := ["Provide screenshot URL/base64";
                 "Type " +:+ double_quote +:+ "skip" +:+ double_quote +:+
                 " to continue without it"] |}.

Section nodes.
Context {W : Type}.

(** [new Date().toISOString()] *)
Variable now_iso : M W string.

(** [new Date(s).getTime()] *)
Variable Date_getTime : string → JS.number.

Variable figmaClient : FigmaMCPClient W.
Variable edsClient : EDSGeneratorMCPClient W.

(** [JSON.stringify(state.metadata)] when metadata is set. *)
Definition metadata_json (state : WorkflowState.t) : option JS.json :=
  m ← WorkflowState.metadata state;
  JS.stringify (FigmaMetadata.to_js m).

Definition screenshot_data (state : WorkflowState.t) : option string :=
  Screenshot.data <$> WorkflowState.screenshot state.

Definition input_flag (flag : WorkflowOptions.t → bool)
    (state : WorkflowState.t) : bool :=
  WorkflowInput.option_flag flag (WorkflowState.input state).

(** A failed stage: [{ currentStep: FAILED, errors: [...state.errors, error] }] *)
Definition failed (state : WorkflowState.t) (step : WorkflowStep)
    (message : string) (retryable : bool) : M W Outcome :=
  ts ← now_iso;
  let error := stage_error step message ts retryable in
  mret (Return [Update.currentStep FAILED;
                Update.errors (WorkflowState.errors state ++ [error])]).

Definition initializeWorkflow (state : WorkflowState.t) : M W Outcome :=
  let input := WorkflowState.input state in
  let parsed :=
    match truthy (WorkflowInput.figmaUrl input),
          truthy (WorkflowInput.figmaNodeId input) with
    | Some url, None => parseFigmaUrl url
    | _, _ => None
    end in
  match parsed with
  | Some (fileKey, nodeId) =>
      ts ← now_iso;
      mret (Return
        [Update.input
           {| WorkflowInput.blockName := WorkflowInput.blockName input;
              WorkflowInput.figmaUrl := WorkflowInput.figmaUrl input;
              WorkflowInput.figmaNodeId := Some nodeId;
              WorkflowInput.figmaFileKey := Some fileKey;
              WorkflowInput.outputPath := WorkflowInput.outputPath input;
              WorkflowInput.options := WorkflowInput.options input |};
         Update.currentStep EXTRACTING_DESIGN;
         Update.startTime ts;
         Update.errors []])
  | None =>
      ts ← now_iso;
      mret (Return [Update.currentStep EXTRACTING_DESIGN;
                    Update.startTime ts;
                    Update.errors []])
  end.

Definition extractDesignContext (state : WorkflowState.t) : M W Outcome :=
  match truthy (WorkflowInput.figmaNodeId (WorkflowState.input state)) with
  | None => failed state EXTRACTING_DESIGN "No Figma node ID provided" false
  | Some nodeId =>
      result ← getDesignContext figmaClient nodeId;
      match MCPToolResult.payload result with
      | None =>
          failed state EXTRACTING_DESIGN
            (or_else (MCPToolResult.error result) "Failed to extract design context")
            true
      | Some data =>
          mret (Return
            [Update.designContext data;
             Update.currentStep
               (if input_flag WorkflowOptions.skipScreenshot state
                then ANALYZING else GETTING_SCREENSHOT)])
      end
  end.

(** [resume] is what [interrupt(...)] evaluates to: [None] when the graph
    has no resume value for it, which is the case in every run that is
    started with a plain input. *)
Definition getScreenshot (resume : option ResumeValue)
    (state : WorkflowState.t) : M W Outcome :=
  match truthy (WorkflowInput.figmaNodeId (WorkflowState.input state)) with
  | None => mret (Return [Update.currentStep ANALYZING])
  | Some nodeId =>
      result ← McpClient.getScreenshot figmaClient nodeId;
      match MCPToolResult.payload result with
      | None =>
          let payload := capture_failed (MCPToolResult.error result) nodeId in
          match resume with
          | None => mret (Interrupted payload)
          | Some (ResumeText s) =>
              if is_skip s then mret (Return [Update.currentStep ANALYZING])
              else mret (Return [Update.currentStep ANALYZING])
          | Some ResumeOther => mret (Return [Update.currentStep ANALYZING])
          | Some (ResumeObject data format) =>
              match truthy data with
              | Some data =>
                  ts ← now_iso;
                  mret (Return
                    [Update.screenshot
                       {| Screenshot.data := data;
                          Screenshot.format := default png format;
                          Screenshot.timestamp := ts |};
                     Update.userProvidedScreenshot true;
                     Update.currentStep ANALYZING])
              | None => mret (Return [Update.currentStep ANALYZING])
              end
          end
      | Some data =>
          mret (Return [Update.screenshot data; Update.currentStep ANALYZING])
      end
  end.

Definition analyzeBlockStructure (state : WorkflowState.t) : M W Outcome :=
  match truthy (DesignContext.generatedCode <$> WorkflowState.designContext state) with
  | None =>
      failed state ANALYZING "No design context available for analysis" false
  | Some generatedCode =>
      result ← McpClient.analyzeBlockStructure edsClient generatedCode
                 (screenshot_data state) (metadata_json state);
      match MCPToolResult.payload result with
      | None =>
          failed state ANALYZING
            (or_else (MCPToolResult.error result) "Block structure analysis failed")
            true
      | Some data =>
          mret (Return
            [Update.analysis
               (BlockAnalysis.with_blockName
                  (WorkflowInput.blockName (WorkflowState.input state)) data);
             Update.currentStep GENERATING])
      end
  end.

Definition generateEdsBlock (state : WorkflowState.t) : M W Outcome :=
  match truthy (DesignContext.generatedCode <$> WorkflowState.designContext state) with
  | None =>
      failed state GENERATING "No design context available for generation" false
  | Some generatedCode =>
      let input := WorkflowState.input state in
      result ← McpClient.generateEdsBlock edsClient
                 (WorkflowInput.blockName input)
                 (WorkflowInput.outputPath input)
                 generatedCode
                 {| opt_screenshot := screenshot_data state;
                    opt_metadata := metadata_json state;
                    opt_persistContext :=
                      WorkflowOptions.persistContext <$> WorkflowInput.options input;
                    opt_updateSectionModel :=
                      WorkflowOptions.updateSectionModel <$> WorkflowInput.options input;
                    opt_validateOutput := Some false |};
      match MCPToolResult.payload result with
      | None =>
          failed state GENERATING
            (or_else (MCPToolResult.error result) "Block generation failed")
            true
      | Some data =>
          let nextStep :=
            if input_flag WorkflowOptions.validateOutput state then VALIDATING
            else if input_flag WorkflowOptions.updateSectionModel state
                 then UPDATING_SECTION_MODEL
                 else COMPLETED in
          mret (Return [Update.generatedFiles data; Update.currentStep nextStep])
      end
  end.

Definition validateBlock (state : WorkflowState.t) : M W Outcome :=
  let input := WorkflowState.input state in
  let blockPath :=
    WorkflowInput.outputPath input +:+ "/" +:+ WorkflowInput.blockName input in
  result ← McpClient.validateBlockOutput edsClient blockPath
             (WorkflowInput.blockName input)
             (input_flag WorkflowOptions.strictValidation state);
  let nextStep :=
    if input_flag WorkflowOptions.updateSectionModel state
    then UPDATING_SECTION_MODEL else COMPLETED in
  match MCPToolResult.payload result with
  | None =>
      (* Don't fail the workflow, just log and continue *)
      mret (Return [Update.currentStep nextStep])
  | Some data =>
      mret (Return [Update.validation data; Update.currentStep nextStep])
  end.

(** [endTime] and [duration] as [completeWorkflow] and [handleFailure]
    compute them. *)
Definition stamp (state : WorkflowState.t) (step : WorkflowStep) : M W Outcome :=
  endTime ← now_iso;
  let duration :=
    JS.number_sub (Date_getTime endTime)
                  (Date_getTime (WorkflowState.startTime state)) in
  mret (Return [Update.currentStep step;
                Update.endTime endTime;
                Update.duration duration]).

Definition completeWorkflow (state : WorkflowState.t) : M W Outcome :=
  stamp state COMPLETED.

Definition handleFailure (state : WorkflowState.t) : M W Outcome :=
  stamp state FAILED.

Definition resumeWithUserInput (state : WorkflowState.t)
    (userInput : UserInput) : M W Update.t :=
  match WorkflowState.awaitingUserInput state with
  | None => mret [Update.currentStep (WorkflowState.currentStep state)]
  | Some awaiting =>
      match AwaitingUserInput.inputType awaiting with
      | screenshot_input =>
          match userInput with
          | Text s =>
              if is_skip s then
                mret [Update.awaitingUserInput None;
                      Update.currentStep ANALYZING]
              else
                mret [Update.awaitingUserInput None;
                      Update.currentStep ANALYZING]
          | Image data format =>
              match truthy (Some data) with
              | Some data =>
                  ts ← now_iso;
                  mret [Update.screenshot
                          {| Screenshot.data := data;
                             Screenshot.format := format;
                             Screenshot.timestamp := ts |};
                        Update.userProvidedScreenshot true;
                        Update.awaitingUserInput None;
                        Update.currentStep ANALYZING]
              | None =>
                  mret [Update.awaitingUserInput None;
                        Update.currentStep ANALYZING]
              end
          end
      | _ => mret [Update.currentStep (WorkflowState.currentStep state)]
      end
  end.

(** The call the [generate] node makes. *)
Definition generation_call (state : WorkflowState.t) (code : string)
    : M W (MCPToolResult.t GeneratedFiles.t) :=
  McpClient.generateEdsBlock edsClient
    (WorkflowInput.blockName (WorkflowState.input state))
    (WorkflowInput.outputPath (WorkflowState.input state))
    code
    {| opt_screenshot := screenshot_data state;
       opt_metadata := metadata_json state;
       opt_persistContext :=
         WorkflowOptions.persistContext <$>
           WorkflowInput.options (WorkflowState.input state);
       opt_updateSectionModel :=
         WorkflowOptions.updateSectionModel <$>
           WorkflowInput.options (WorkflowState.input state);
       opt_validateOutput := Some false |}.

(** The call the [validate] node makes. *)
Definition validation_call (state : WorkflowState.t)
    : M W (MCPToolResult.t ValidationResult.t) :=
  McpClient.validateBlockOutput edsClient
    (WorkflowInput.outputPath (WorkflowState.input state) +:+ "/" +:+
     WorkflowInput.blockName (WorkflowState.input state))
    (WorkflowInput.blockName (WorkflowState.input state))
    (input_flag WorkflowOptions.strictValidation state).

Definition after_validation (state : WorkflowState.t) : WorkflowStep :=
  if input_flag WorkflowOptions.updateSectionModel state
  then UPDATING_SECTION_MODEL else COMPLETED.

End nodes.
End Nodes.


(** ** workflow.ts *)

Module Workflow.
Import McpClient Nodes.

Inductive NodeName :=
| initialize
| extract_design
| get_screenshot
| analyze
| generate
| validate
| complete
| fail.

Inductive Target :=
| Goto (node : NodeName)
| END.

(** The edges of [createLangGraphWorkflow]: [addEdge] for [initialize],
    [complete] and [fail], the routers of [addConditionalEdges] for the
    rest. *)
Definition route (node : NodeName) (state : WorkflowState.t) : Target :=
  let step := WorkflowState.currentStep state in
  match node with
  | initialize => Goto extract_design
  | extract_design =>
      if decide (step = FAILED) then Goto fail else Goto get_screenshot
  | get_screenshot =>
      if decide (step = FAILED) then Goto fail
      else if decide (step = AWAITING_USER_INPUT) then END
      else Goto analyze
  | analyze =>
      if decide (step = FAILED) then Goto fail else Goto generate
  | generate =>
      if decide (step = FAILED) then Goto fail else Goto validate
  | validate =>
      if decide (step = FAILED) then Goto fail else Goto complete
  | complete => END
  | fail => END
  end.

(** How [invoke] settles: with the values of the state channels ([None]
    stands for the empty object of a thread that has no checkpoint), or
    with an exception. *)
Inductive Settled :=
| Resolved (values : option WorkflowState.t)
| Rejected (reason : string).

(** An invocation of the compiled graph: how it settled, the nodes that
    were started, in order, the interrupt that stopped it, if any, and the
    checkpoints of the [MemorySaver] afterwards. *)
Record Invocation := mkInvocation {
  settled : Settled;
  started : list NodeName;
  interrupt : option InterruptPayload;
  saver : gmap string WorkflowState.t;
}.

Definition recursionLimit : nat := 50.

Section graph.
Context {W : Type}.
Variable now_iso : M W string.
Variable Date_getTime : string → JS.number.
Variable figmaClient : FigmaMCPClient W.
Variable edsClient : EDSGeneratorMCPClient W.

(** [workflow.addNode(name, async (state) => ...)] *)
Definition run_node (resume : option ResumeValue) (node : NodeName)
    (state : WorkflowState.t) : M W Outcome :=
  match node with
  | initialize => initializeWorkflow now_iso state
  | extract_design => extractDesignContext now_iso figmaClient state
  | get_screenshot => getScreenshot now_iso figmaClient resume state
  | analyze => analyzeBlockStructure now_iso edsClient state
  | generate => generateEdsBlock now_iso edsClient state
  | validate => validateBlock edsClient state
  | complete => completeWorkflow now_iso Date_getTime state
  | fail => handleFailure now_iso Date_getTime state
  end.

(** The run loop of the compiled graph, one node per step: run the node,
    merge what it returns through the reducers, save the checkpoint of
    the thread, follow the edge. A node that stops in [interrupt] writes
    nothing: the run ends there with the state as it was before the
    node. More than [recursionLimit] steps raise [GraphRecursionError]. *)
Fixpoint steps (fuel : nat) (resume : option ResumeValue) (thread : string)
    (node : NodeName) (state : WorkflowState.t)
    (checkpoints : gmap string WorkflowState.t) (seen : list NodeName)
    : M W Invocation :=
  match fuel with
  | O => mret {| settled := Rejected "GraphRecursionError";
                 started := seen; interrupt := None; saver := checkpoints |}
  | S fuel' =>
      out ← run_node resume node state;
      match out with
      | Interrupted payload =>
          mret {| settled := Resolved (Some state);
                  started := seen ++ [node];
                  interrupt := Some payload;
                  saver := checkpoints |}
      | Return update =>
          let state' := Update.merge state update in
          let checkpoints' := <[thread := state']> checkpoints in
          match route node state' with
          | END =>
              mret {| settled := Resolved (Some state');
                      started := seen ++ [node];
                      interrupt := None;
                      saver := checkpoints' |}
          | Goto node' =>
              steps fuel' resume thread node' state' checkpoints' (seen ++ [node])
          end
      end
  end.

(** [graph.invoke(input, config)] with a plain object as input: the input
    is written over the checkpoint of the thread and the graph runs from
    its entry point. This program never passes a resume command, so
    [interrupt] has no value to return ([resume = None]). *)
Definition invoke (checkpoints : gmap string WorkflowState.t)
    (input : Update.t) (thread : string) : M W Invocation :=
  let first :=
    match checkpoints !! thread with
    | Some values => Some (Update.merge values input)
    | None => Update.first_state input
    end in
  match first with
  | None => mret {| settled := Rejected "TypeError"; started := [];
                    interrupt := None; saver := checkpoints |}
  | Some state =>
      steps recursionLimit None thread initialize state
            (<[thread := state]> checkpoints) []
  end.

(** The body of [runWorkflow] for a graph compiled with the checkpointer
    [checkpoints]. *)
Definition runWorkflow_with (checkpoints : gmap string WorkflowState.t)
    (input : WorkflowInput.t) (threadId : option string) : M W Invocation :=
  startTime ← now_iso;
  invoke checkpoints
    [Update.input input;
     Update.currentStep INITIALIZED;
     Update.errors [];
     Update.startTime startTime]
    (default "default" threadId).

(** [runWorkflow]: [createWorkflow(mcpClient)] is called without a
    checkpointer and makes a [new MemorySaver()]. *)
Definition runWorkflow (input : WorkflowInput.t) (threadId : option string)
    : M W Invocation :=
  runWorkflow_with ∅ input threadId.

(** [createWorkflow(mcpClient, checkpointer?)]: the checkpoints of the
    saver the graph is compiled with, [checkpointer || new MemorySaver()]. *)
Definition createWorkflow (checkpointer : option (gmap string WorkflowState.t))
    : gmap string WorkflowState.t :=
  default ∅ checkpointer.

(** [resumeWorkflow]: like [runWorkflow], it calls
    [createWorkflow(mcpClient)] without a checkpointer; [graph.getState]
    then reads the checkpoint of the thread in that saver. *)
Definition resumeWorkflow (userInput : UserInput) (threadId : option string)
    : M W Invocation :=
  let graph := createWorkflow None in
  let checkpoint := graph !! default "default" threadId in
  match checkpoint with
  | Some values =>
      if decide (WorkflowState.currentStep values ≠ AWAITING_USER_INPUT) then
        mret {| settled := Resolved checkpoint; started := [];
                interrupt := None; saver := graph |}
      else
        updates ← resumeWithUserInput now_iso values userInput;
        invoke graph updates (default "default" threadId)
  | None =>
      mret {| settled := Resolved checkpoint; started := [];
              interrupt := None; saver := graph |}
  end.

End graph.

(** The three markers a finished or suspended run may carry according to
    the specification. *)
Definition final_marker (step : WorkflowStep) : bool :=
  match step with
  | COMPLETED | FAILED | AWAITING_USER_INPUT => true
  | _ => false
  end.

(** The marker a node may leave in [currentStep] when it returns. *)
Definition leaves (node : NodeName) (step : WorkflowStep) : bool :=
  match node, step with
  | initialize, EXTRACTING_DESIGN => true
  | extract_design, (FAILED | GETTING_SCREENSHOT | ANALYZING) => true
  | get_screenshot, ANALYZING => true
  | analyze, (FAILED | GENERATING) => true
  | generate, (FAILED | VALIDATING | UPDATING_SECTION_MODEL | COMPLETED) => true
  | validate, (UPDATING_SECTION_MODEL | COMPLETED) => true
  | complete, COMPLETED => true
  | fail, FAILED => true
  | _, _ => false
  end.

(** The markers with which the graph may enter a node. *)
Definition enters (node : NodeName) (step : WorkflowStep) : bool :=
  match node, step with
  | initialize, _ => true
  | extract_design, EXTRACTING_DESIGN => true
  | get_screenshot, (GETTING_SCREENSHOT | ANALYZING) => true
  | analyze, ANALYZING => true
  | generate, GENERATING => true
  | validate, (VALIDATING | UPDATING_SECTION_MODEL | COMPLETED) => true
  | complete, (UPDATING_SECTION_MODEL | COMPLETED) => true
  | fail, FAILED => true
  | _, _ => false
  end.

(** Nodes still ahead, the node itself included. *)
Definition distance (node : NodeName) : nat :=
  match node with
  | initialize => 7
  | extract_design => 6
  | get_screenshot => 5
  | analyze => 4
  | generate => 3
  | validate => 2
  | complete => 1
  | fail => 1
  end.

(** How a run from [node] on ends, in a state that may enter [node]. *)
Definition ends_well (state0 : WorkflowState.t) (r : Invocation) : Prop :=
  ∃ s,
    settled r = Resolved (Some s) ∧
    WorkflowState.awaitingUserInput s = WorkflowState.awaitingUserInput state0 ∧
    match interrupt r with
    | None =>
        WorkflowState.currentStep s = COMPLETED ∨
        WorkflowState.currentStep s = FAILED
    | Some _ =>
        (WorkflowState.currentStep s = GETTING_SCREENSHOT ∨
         WorkflowState.currentStep s = ANALYZING) ∧
        last (started r) = Some get_screenshot
    end.

End Workflow.


(** ** Node's [path] module, POSIX flavour *)

Module Path.

(** [path.split('/')] *)
Fixpoint split (path : string) : list string :=
  match path with
  | EmptyString => [""]
  | String c rest =>
      if Ascii.eqb c "/" then "" :: split rest
      else match split rest with
           | segment :: segments => String c segment :: segments
           | [] => [String c ""]
           end
  end.

(** One segment of [normalizeString]: empty segments and [.] are
    skipped, [..] takes the last segment away unless there is none or it
    is [..] itself. *)
Definition segment_step (allowAboveRoot : bool) (res : list string)
    (segment : string) : list string :=
  if String.eqb segment "" || String.eqb segment "." then res
  else if String.eqb segment ".." then
    match last res with
    | Some l => if String.eqb l ".." then res ++ [".."] else removelast res
    | None => if allowAboveRoot then [".."] else []
    end
  else res ++ [segment].

Definition normalizeString (path : string) (allowAboveRoot : bool) : string :=
  String.concat "/" (foldl (segment_step allowAboveRoot) [] (split path)).

(** [path.isAbsolute(path)] *)
Definition isAbsolute (path : string) : bool :=
  match path with
  | String "/" _ => true
  | _ => false
  end.

Definition trailingSeparator (path : string) : bool :=
  match last (split path) with
  | Some "" => negb (String.eqb path "")
  | _ => false
  end.

(** [path.normalize(path)] *)
Definition normalize (path : string) : string :=
  if String.eqb path "" then "."
  else
    let res := normalizeString path (negb (isAbsolute path)) in
    if String.eqb res "" then
      if isAbsolute path then "/"
      else if trailingSeparator path then "./" else "."
    else
      let res := if trailingSeparator path then res +:+ "/" else res in
      if isAbsolute path then "/" +:+ res else res.

(** [path.join(a, b)] *)
Definition join (a b : string) : string :=
  match String.eqb a "", String.eqb b "" with
  | true, true => "."
  | true, false => normalize b
  | false, true => normalize a
  | false, false => normalize (a +:+ "/" +:+ b)
  end.

End Path.

(** ** Node's [fs.promises] on a POSIX file system

    Directories and regular files, no symbolic links, a fixed working
    directory. Permissions, quotas and limits on names are not modelled:
    the system may refuse what is let through here. *)

Module Fs.

Inductive errno := ENOENT | ENOTDIR | EISDIR | EEXIST | ERR_INVALID_ARG_TYPE.

(** A file holds a JSON text, identified with the document it denotes. *)
Inductive entry :=
| File (content : JS.json)
| Directory.

(** The entries of the disk under their absolute paths, root excluded,
    and the working directory of the process. *)
Record t := mk {
  cwd : list string;
  entries : gmap (list string) entry;
}.

Definition empty : t := {| cwd := []; entries := ∅ |}.

(** Where the resolution of [path] starts. *)
Definition start (disk : t) (path : string) : list string :=
  if Path.isAbsolute path then [] else cwd disk.

Definition stays (component : string) : bool :=
  String.eqb component "" || String.eqb component ".".

(** Path resolution through directories: from [dir], one component
    after the other. *)
Fixpoint walk (entries : gmap (list string) entry) (dir : list string)
    (components : list string) : list string + errno :=
  match components with
  | [] => inl dir
  | c :: rest =>
      if stays c then walk entries dir rest
      else if String.eqb c ".." then walk entries (removelast dir) rest
      else match entries !! (dir ++ [c]) with
           | Some Directory => walk entries (dir ++ [c]) rest
           | Some (File _) => inr ENOTDIR
           | None => inr ENOENT
           end
  end.

(** What [path] names: a directory, or the entry [name] of a
    directory, which may not exist. *)
Inductive target :=
| Dir (dir : list string)
| Entry (dir : list string) (name : string).

Definition resolve (disk : t) (path : string) : target + errno :=
  if String.eqb path "" then inr ENOENT
  else
    let components := Path.split path in
    match walk (entries disk) (start disk path) (removelast components) with
    | inr e => inr e
    | inl dir =>
        let name := default "" (last components) in
        if stays name then inl (Dir dir)
        else if String.eqb name ".." then inl (Dir (removelast dir))
        else inl (Entry dir name)
    end.

(** [fs.readFile(path, 'utf-8')] *)
Definition readFile (path : string) (disk : t) : JS.json + errno :=
  match resolve disk path with
  | inr e => inr e
  | inl (Dir _) => inr EISDIR
  | inl (Entry dir name) =>
      match entries disk !! (dir ++ [name]) with
      | Some (File content) => inl content
      | Some Directory => inr EISDIR
      | None => inr ENOENT
      end
  end.

(** [fs.writeFile(path, data, 'utf-8')]: the file is created or
    replaced; its directory has to exist. *)
Definition writeFile (path : string) (data : JS.json) (disk : t) : t + errno :=
  match resolve disk path with
  | inr e => inr e
  | inl (Dir _) => inr EISDIR
  | inl (Entry dir name) =>
      match entries disk !! (dir ++ [name]) with
      | Some Directory => inr EISDIR
      | _ => inl {| cwd := cwd disk;
                    entries := <[dir ++ [name] := File data]> (entries disk) |}
      end
  end.

(** [fs.unlink(path)] *)
Definition unlink (path : string) (disk : t) : t + errno :=
  match resolve disk path with
  | inr e => inr e
  | inl (Dir _) => inr EISDIR
  | inl (Entry dir name) =>
      match entries disk !! (dir ++ [name]) with
      | Some (File _) =>
          inl {| cwd := cwd disk; entries := delete (dir ++ [name]) (entries disk) |}
      | Some Directory => inr EISDIR
      | None => inr ENOENT
      end
  end.

(** [fs.mkdir(path, { recursive: true })]: every directory missing on
    the way is made; a file on the way stops it, and what was made
    before stays. *)
Fixpoint mkdirp (entries : gmap (list string) entry) (dir : list string)
    (components : list string) : option errno * gmap (list string) entry :=
  match components with
  | [] => (None, entries)
  | c :: rest =>
      if stays c then mkdirp entries dir rest
      else if String.eqb c ".." then mkdirp entries (removelast dir) rest
      else match entries !! (dir ++ [c]) with
           | Some Directory => mkdirp entries (dir ++ [c]) rest
           | Some (File _) =>
               (Some (if forallb stays rest then EEXIST else ENOTDIR), entries)
           | None => mkdirp (<[dir ++ [c] := Directory]> entries) (dir ++ [c]) rest
           end
  end.

Definition mkdir_recursive (path : string) (disk : t) : option errno * t :=
  if String.eqb path "" then (Some ENOENT, disk)
  else
    let '(e, entries') := mkdirp (entries disk) (start disk path) (Path.split path) in
    (e, {| cwd := cwd disk; entries := entries' |}).

End Fs.

(** ** persistence.ts: [class StatePersistence] *)

Module Persistence.

Record PersistenceConfig := mkPersistenceConfig {
  stateDir : string;
  autoSave : bool;
  saveInterval : Z;
}.

Definition DEFAULT_PERSISTENCE_CONFIG : PersistenceConfig :=
  {| stateDir := "./.tmp/block-builder-states";
     autoSave := true;
     saveInterval := 5000 |}.

(** [Partial<PersistenceConfig>] *)
Record PartialPersistenceConfig := mkPartialPersistenceConfig {
  opt_stateDir : option string;
  opt_autoSave : option bool;
  opt_saveInterval : option Z;
}.

(** [new StatePersistence(config)]:
    [{ ...DEFAULT_PERSISTENCE_CONFIG, ...config }] *)
Definition new (config : PartialPersistenceConfig) : PersistenceConfig :=
  {| stateDir := default (stateDir DEFAULT_PERSISTENCE_CONFIG) (opt_stateDir config);
     autoSave := default (autoSave DEFAULT_PERSISTENCE_CONFIG) (opt_autoSave config);
     saveInterval :=
       default (saveInterval DEFAULT_PERSISTENCE_CONFIG) (opt_saveInterval config) |}.

(** [iso.replace(/[:.]/g, '-')] *)
Fixpoint dashed (iso : string) : string :=
  match iso with
  | EmptyString => EmptyString
  | String a s =>
      String (if Ascii.eqb a ":" || Ascii.eqb a "." then "-"%char else a) (dashed s)
  end.

(** [path.isAbsolute(filename) ? filename : path.join(stateDir, filename)] *)
Definition located (config : PersistenceConfig) (filename : string) : string :=
  if Path.isAbsolute filename then filename
  else Path.join (stateDir config) filename.

(** [saveState(state, filename?)] at the clock reading [now] (an ISO
    string): the path written, or the rejection, and the disk
    afterwards. *)
Definition saveState (config : PersistenceConfig) (now : string)
    (state : WorkflowState.t) (filename : option string)
    (disk : Fs.t) : (string + Fs.errno) * Fs.t :=
  match Fs.mkdir_recursive (stateDir config) disk with
  | (Some e, disk) => (inr e, disk)
  | (None, disk) =>
      let timestamp := dashed now in
      let name :=
        or_else filename
          (WorkflowInput.blockName (WorkflowState.input state) +:+ "-" +:+
           timestamp +:+ ".json") in
      let filePath := Path.join (stateDir config) name in
      match JS.stringify (WorkflowState.to_js state) with
      | None => (inr Fs.ERR_INVALID_ARG_TYPE, disk)
      | Some text =>
          match Fs.writeFile filePath text disk with
          | inr e => (inr e, disk)
          | inl disk => (inl filePath, disk)
          end
      end
  end.

(** [loadState(filename)] *)
Definition loadState (config : PersistenceConfig) (filename : string)
    (disk : Fs.t) : JS.value + Fs.errno :=
  let filePath := located config filename in
  match Fs.readFile filePath disk with
  | inr e => inr e
  | inl content => inl (JS.parse content)
  end.

(** [createCheckpoint(state, label?)] *)
Definition createCheckpoint (config : PersistenceConfig) (now : string)
    (state : WorkflowState.t) (label : option string)
    (disk : Fs.t) : (string + Fs.errno) * Fs.t :=
  let timestamp := dashed now in
  let checkpointLabel :=
    match truthy label with
    | Some l => "-" +:+ l
    | None => ""
    end in
  let filename :=
    WorkflowInput.blockName (WorkflowState.input state) +:+ "-checkpoint" +:+
    checkpointLabel +:+ "-" +:+ timestamp +:+ ".json" in
  saveState config now state (Some filename) disk.

(** A state that JSON represents exactly: no error of the list carries an
    [Error] object, the duration, if set, is finite, and the free-form
    metadata is itself representable. *)
Definition representable (state : WorkflowState.t) : bool :=
  forallb (λ e, match WorkflowError.error e with Some _ => false | None => true end)
          (WorkflowState.errors state) &&
  match WorkflowState.duration state with
  | Some (JS.Finite _) | None => true
  | Some _ => false
  end &&
  match WorkflowState.metadata state with
  | Some m => JS.representable (JS.Object (FigmaMetadata.structure m))
  | None => true
  end.

End Persistence.


(** ** Behaviour of the connectors, and concrete runs *)

Module Scenario.
Import McpClient.

(** A connector call that succeeds, or fails, whenever it is made. *)
Definition succeeds {W T} (call : M W (MCPToolResult.t T)) : Prop :=
  ∀ w, is_Some (MCPToolResult.payload (call w).1).

Definition fails {W T} (call : M W (MCPToolResult.t T)) : Prop :=
  ∀ w, MCPToolResult.payload (call w).1 = None.

(** The design source hands out code that is not empty. *)
Definition delivers_code {W} (figmaClient : FigmaMCPClient W) : Prop :=
  ∀ nodeId w, ∃ d,
    MCPToolResult.payload (getDesignContext figmaClient nodeId w).1 = Some d ∧
    DesignContext.generatedCode d ≠ "".

(** *** A fixed world: the clock always reads the same instant. *)

Definition instant : string := "2025-12-05T10:30:00.000Z".

Definition now_iso : M unit string := mret instant.

Definition Date_getTime (s : string) : JS.number :=
  if String.eqb s instant then JS.Finite 1764930600000 else JS.NaN.

Definition ok {T} (x : T) : M unit (MCPToolResult.t T) :=
  mret {| MCPToolResult.success := true;
          MCPToolResult.data := Some x;
          MCPToolResult.error := None |}.

Definition ko {T} (reason : string) : M unit (MCPToolResult.t T) :=
  mret {| MCPToolResult.success := false;
          MCPToolResult.data := None;
          MCPToolResult.error := Some reason |}.

Definition design : DesignContext.t :=
  {| DesignContext.generatedCode := "<div/>";
     DesignContext.nodeId := "R1";
     DesignContext.fileName := None;
     DesignContext.timestamp := instant |}.

Definition picture : Screenshot.t :=
  {| Screenshot.data := "iVBORw0KGgo=";
     Screenshot.format := png;
     Screenshot.timestamp := instant |}.

Definition blockAnalysis : BlockAnalysis.t :=
  {| BlockAnalysis.blockName := "";
     BlockAnalysis.blockType := single;
     BlockAnalysis.contentStructure :=
       {| BlockAnalysis.containerFields :=
            [{| FieldSpec.name := "title"; FieldSpec.type := "text";
                FieldSpec.label := "Title"; FieldSpec.component := "text" |}];
          BlockAnalysis.itemFields := None |};
     BlockAnalysis.designTokens :=
       {| BlockAnalysis.colors := []; BlockAnalysis.typography := [];
          BlockAnalysis.spacing := [] |};
     BlockAnalysis.interactiveElements := [];
     BlockAnalysis.timestamp := instant |}.

Definition files : GeneratedFiles.t :=
  {| GeneratedFiles.css := ".x{}";
     GeneratedFiles.javascript := "export default function decorate() {}";
     GeneratedFiles.model := "{}";
     GeneratedFiles.readme := None |}.

Definition verdict : ValidationResult.t :=
  {| ValidationResult.validated := true;
     ValidationResult.errors := [];
     ValidationResult.warnings := [];
     ValidationResult.summary :=
       {| ValidationResult.totalErrors := 0;
          ValidationResult.totalWarnings := 0;
          ValidationResult.status := ValidationResult.PASSED |} |}.

(** The design source answers; the screenshot tool works or not. *)
Definition figma (screenshot_works : bool) : FigmaMCPClient unit :=
  {| getDesignContext := λ _, ok design;
     getScreenshot := λ _,
       if screenshot_works then ok picture else ko "Tool disabled by user" |}.

(** The generator: each of generation and validation works or not. *)
Definition eds (generation_works validation_works : bool) : EDSGeneratorMCPClient unit :=
  {| analyzeBlockStructure := λ _ _ _, ok blockAnalysis;
     generateEdsBlock := λ _ _ _ _,
       if generation_works then ok files else ko "unauthorized";
     validateBlockOutput := λ _ _ _,
       if validation_works then ok verdict else ko "validator unreachable" |}.

Definition all_options : WorkflowOptions.t :=
  {| WorkflowOptions.updateSectionModel := true;
     WorkflowOptions.validateOutput := true;
     WorkflowOptions.persistContext := true;
     WorkflowOptions.skipScreenshot := false;
     WorkflowOptions.strictValidation := false |}.

(** [{ name: "x", ref: "R1" }] *)
Definition input_x : WorkflowInput.t :=
  {| WorkflowInput.blockName := "x";
     WorkflowInput.figmaUrl := None;
     WorkflowInput.figmaNodeId := Some "R1";
     WorkflowInput.figmaFileKey := None;
     WorkflowInput.outputPath := "./blocks";
     WorkflowInput.options := Some all_options |}.

Definition run (screenshot_works generation_works validation_works : bool)
    : Workflow.Invocation :=
  (Workflow.runWorkflow now_iso Date_getTime
     (figma screenshot_works) (eds generation_works validation_works)
     input_x None ()).1.

(** The state [runWorkflow] starts from for [input_x]. *)
Definition state_x : WorkflowState.t :=
  {| WorkflowState.input := input_x;
     WorkflowState.designContext := None;
     WorkflowState.screenshot := None;
     WorkflowState.userProvidedScreenshot := None;
     WorkflowState.metadata := None;
     WorkflowState.analysis := None;
     WorkflowState.generatedFiles := None;
     WorkflowState.validation := None;
     WorkflowState.sectionModelUpdated := None;
     WorkflowState.currentStep := INITIALIZED;
     WorkflowState.awaitingUserInput := None;
     WorkflowState.errors := [];
     WorkflowState.startTime := instant;
     WorkflowState.endTime := None;
     WorkflowState.duration := None |}.

(** A thread whose run has finished. *)
Definition finished : WorkflowState.t :=
  Update.merge state_x [Update.currentStep COMPLETED].

(** *** Retried calls and breaker calls on a counter as world *)

Definition unauthorized : Error := new_Error "unauthorized".

(** A call that is always rejected with [unauthorized]; the world counts
    the calls. *)
Definition rejecting : nat → (unit + Thrown) * nat :=
  λ n, (inr (ThrownError unauthorized), S n).

(** The wait leaves the counter alone. *)
Definition no_sleep : option Double.t → nat → nat := λ _ n, n.

(** An [onRetry] callback that returns normally; the world is unchanged. *)
Definition noting : Z → Error → nat → option Thrown * nat :=
  λ _ _ n, (None, n).

(** [{ maxDelay: 500 }] *)
Definition short_cap : Retry.PartialRetryConfig :=
  {| Retry.opt_maxRetries := None;
     Retry.opt_initialDelay := None;
     Retry.opt_maxDelay := Some (Some (Double.of_Z 500));
     Retry.opt_backoffMultiplier := None |}.

(** [{ maxRetries: 2 }] *)
Definition two_retries : Retry.PartialRetryConfig :=
  {| Retry.opt_maxRetries := Some (Some (Double.of_Z 2));
     Retry.opt_initialDelay := None;
     Retry.opt_maxDelay := None;
     Retry.opt_backoffMultiplier := None |}.

(** [{}] *)
(** [{ initialDelay: 9007199254740991, maxDelay: 1e17, backoffMultiplier: 3 }] *)
Definition long_delay : Retry.PartialRetryConfig :=
  {| Retry.opt_maxRetries := None;
     Retry.opt_initialDelay := Some (Some (Double.of_Z 9007199254740991));
     Retry.opt_maxDelay := Some (Some (Double.of_Z (10 ^ 17)));
     Retry.opt_backoffMultiplier := Some (Some (Double.of_Z 3)) |}.

(** [{ initialDelay: 0, backoffMultiplier: Infinity }] *)
Definition unbounded_multiplier : Retry.PartialRetryConfig :=
  {| Retry.opt_maxRetries := None;
     Retry.opt_initialDelay := Some (Some (Double.of_Z 0));
     Retry.opt_maxDelay := None;
     Retry.opt_backoffMultiplier := Some (Some (S754_infinity false)) |}.

Definition no_config : Retry.PartialRetryConfig :=
  {| Retry.opt_maxRetries := None;
     Retry.opt_initialDelay := None;
     Retry.opt_maxDelay := None;
     Retry.opt_backoffMultiplier := None |}.

(** For the breaker the world is the clock, in milliseconds; a call takes
    ten of them. *)
Definition clock : Z → Z * Z := λ t, (t, t).

Definition failing_call : Z → (unit + Thrown) * Z :=
  λ t, (inr (ThrownError unauthorized), (t + 10)%Z).

Definition working_call : Z → (unit + Thrown) * Z :=
  λ t, (inl (), (t + 10)%Z).

(** *** States to save *)


(** The initial state of a run for the block [name]. *)
Definition state_named (name : string) : WorkflowState.t :=
  Update.set_input
    {| WorkflowInput.blockName := name;
       WorkflowInput.figmaUrl := WorkflowInput.figmaUrl input_x;
       WorkflowInput.figmaNodeId := WorkflowInput.figmaNodeId input_x;
       WorkflowInput.figmaFileKey := WorkflowInput.figmaFileKey input_x;
       WorkflowInput.outputPath := WorkflowInput.outputPath input_x;
       WorkflowInput.options := WorkflowInput.options input_x |}
    state_x.

(** [new StatePersistence({ stateDir: '/var/states' })] *)
Definition absolute_states : Persistence.PersistenceConfig :=
  Persistence.new
    {| Persistence.opt_stateDir := Some "/var/states";
       Persistence.opt_autoSave := None;
       Persistence.opt_saveInterval := None |}.

(** A failed state whose error keeps the [Error] it was built from, as
    [createWorkflowError(step, message, error)] makes it. *)
Definition state_with_Error : WorkflowState.t :=
  Update.merge state_x
    [Update.currentStep FAILED;
     Update.errors
       [(createWorkflowError now_iso GENERATING "boom" (Some (new_Error "boom")) None ()).1]].

End Scenario.

(** ** Further observations on retried calls *)

Module RetryExtra.
Import Retry.

(** The [onRetry] notifications of a trace: attempt number and error. *)
Definition retries (tr : list Event) : list (Z * Error) :=
  omap (λ ev, match ev with OnRetry n e => Some (n, e) | _ => None end) tr.

(** A call that is rejected the first [k] times it is made and answers
    [v] from then on; the world counts the calls. *)
Definition flaky {T} (k : nat) (e : Error) (v : T) : nat → (T + Thrown) * nat :=
  λ n, (if (n <? k)%nat then inr (ThrownError e) else inl v, S n).

(** The [onRetry] callback throws whenever it is called. *)
Definition always_throws {W}
    (onRetry : Z → Error → W → option Thrown * W) : Prop :=
  ∀ n e w, ∃ t, (onRetry n e w).1 = Some t.

(** A callback that throws a string made from what it is given. *)
Definition rethrowing : Z → Error → nat → option Thrown * nat :=
  λ _ e n, (Some (ThrownValue ("gave up: " +:+ err_message e)), n).

(** [error] with [before] and [after] put around its message. *)
Definition embed_message (before after : string) (error : Error) : Error :=
  {| err_name := err_name error;
     err_message := before +:+ err_message error +:+ after |}.

(** A string with [A-Z] for its letters [a-z], every other character as
    it is. (Not [String.prototype.toUpperCase], which also maps letters
    outside ASCII.) *)
Definition upper (c : ascii) : ascii :=
  let n := nat_of_ascii c in
  if (97 <=? n)%nat && (n <=? 122)%nat then ascii_of_nat (n - 32) else c.

Fixpoint upper_ascii_letters (s : string) : string :=
  match s with
  | EmptyString => EmptyString
  | String a s' => String (upper a) (upper_ascii_letters s')
  end.

(** [{ maxRetries: -1 }], [{ maxRetries: NaN }] and
    [{ maxRetries: undefined }] *)
Definition only (maxRetries : option Double.t) : PartialRetryConfig :=
  {| opt_maxRetries := Some maxRetries;
     opt_initialDelay := None;
     opt_maxDelay := None;
     opt_backoffMultiplier := None |}.

End RetryExtra.


(** ** Further observations on the circuit breaker *)

Module BreakerExtra.
Import CircuitBreaker.
Local Open Scope Z_scope.

(** What holds of a breaker between two calls: the constructor parameters
    are the ones it was made with, and it is closed below the threshold,
    open from the threshold on, with the time of the last failure set. *)
Definition consistent (threshold resetTimeout : Z) (b : t) : Prop :=
  CircuitBreaker.threshold b = threshold ∧
  CircuitBreaker.resetTimeout b = resetTimeout ∧
  0 <= failures b ∧
  ((state b = closed ∧ failures b < threshold) ∨
   (state b = open ∧ threshold <= failures b ∧ is_Some (lastFailureTime b))).

(** [fn] resolves whenever it is called. *)
Definition always_succeeds {W T} (fn : W → (T + Thrown) * W) : Prop :=
  ∀ w, ∃ v, (fn w).1 = inl v.

(** A clock that stands still. *)
Definition frozen (now : Z) : unit → Z * unit := λ _, (now, ()).

Definition failing_now : unit → (unit + Thrown) * unit :=
  λ _, (inr (ThrownError Scenario.unauthorized), ()).

Definition working_now : unit → (unit + Thrown) * unit :=
  λ _, (inl (), ()).

End BreakerExtra.


(** ** Further observations on the pipeline *)

Module WorkflowExtra.
Import McpClient Nodes Workflow.

(** The stage a node works on, as it names it in the errors it records. *)
Definition stage_of (node : NodeName) : WorkflowStep :=
  match node with
  | initialize => INITIALIZED
  | extract_design => EXTRACTING_DESIGN
  | get_screenshot => GETTING_SCREENSHOT
  | analyze => ANALYZING
  | generate => GENERATING
  | validate => VALIDATING
  | complete => COMPLETED
  | fail => FAILED
  end.

(** The ways through the graph from a node on. *)
Definition tails (node : NodeName) : list (list NodeName) :=
  let from_validate := [[validate; complete]] in
  let from_generate := [generate; fail] :: map (cons generate) from_validate in
  let from_analyze := [analyze; fail] :: map (cons analyze) from_generate in
  let from_get_screenshot :=
    [get_screenshot] :: map (cons get_screenshot) from_analyze in
  let from_extract_design :=
    [extract_design; fail] :: map (cons extract_design) from_get_screenshot in
  match node with
  | initialize => map (cons initialize) from_extract_design
  | extract_design => from_extract_design
  | get_screenshot => from_get_screenshot
  | analyze => from_analyze
  | generate => from_generate
  | validate => from_validate
  | complete => [[complete]]
  | fail => [[fail]]
  end.

(** The run that reaches [complete]. *)
Definition whole_pipeline : list NodeName :=
  [initialize; extract_design; get_screenshot; analyze; generate; validate;
   complete].

(** The runs that end in [fail]. *)
Definition failing_runs : list (list NodeName) :=
  [[initialize; extract_design; fail];
   [initialize; extract_design; get_screenshot; analyze; fail];
   [initialize; extract_design; get_screenshot; analyze; generate; fail]].

(** The run that stops in the interrupt of [get_screenshot]. *)
Definition interrupted_run : list NodeName :=
  [initialize; extract_design; get_screenshot].

(** The errors of the thread before a run. *)
Definition errors_before (checkpoints : gmap string WorkflowState.t)
    (threadId : option string) : list WorkflowError.t :=
  match checkpoints !! default "default" threadId with
  | Some values => WorkflowState.errors values
  | None => []
  end.

(** How a run from [node] on is accounted for: the nodes it starts, the
    marker it ends with, the errors and the end time it leaves. *)
Definition accounted (node : NodeName) (state : WorkflowState.t)
    (seen : list NodeName) (r : Invocation) : Prop :=
  ∃ s p,
    settled r = Resolved (Some s) ∧
    started r = seen ++ p ∧
    p ∈ tails node ∧
    match interrupt r with
    | Some _ =>
        last p = Some get_screenshot ∧
        WorkflowState.errors s = WorkflowState.errors state
    | None =>
        is_Some (WorkflowState.endTime s) ∧
        is_Some (WorkflowState.duration s) ∧
        ((last p = Some complete ∧
          WorkflowState.currentStep s = COMPLETED ∧
          WorkflowState.errors s = WorkflowState.errors state) ∨
         (last p = Some fail ∧
          WorkflowState.currentStep s = FAILED ∧
          ((node = fail ∧
            WorkflowState.errors s = WorkflowState.errors state) ∨
           (∃ e stage pre,
              p = pre ++ [stage; fail] ∧
              WorkflowError.step e = stage_of stage ∧
              WorkflowState.errors s =
                WorkflowState.errors state ++ WorkflowState.errors state ++ [e]))))
    end.


(** [after] is the request [before], up to a node id and a file key that
    were filled in because [before] had no node id. *)
Definition same_request (before after : WorkflowInput.t) : Prop :=
  WorkflowInput.blockName after = WorkflowInput.blockName before ∧
  WorkflowInput.figmaUrl after = WorkflowInput.figmaUrl before ∧
  WorkflowInput.outputPath after = WorkflowInput.outputPath before ∧
  WorkflowInput.options after = WorkflowInput.options before ∧
  (is_Some (truthy (WorkflowInput.figmaNodeId before)) → after = before).

End WorkflowExtra.

Module ScenarioExtra.

(** [{ blockName: "x", figmaUrl: "https://example.com/page" }]: no node id,
    and a URL that is none of Figma's. *)
Definition input_without_node : WorkflowInput.t :=
  {| WorkflowInput.blockName := "x";
     WorkflowInput.figmaUrl := Some "https://example.com/page";
     WorkflowInput.figmaNodeId := None;
     WorkflowInput.figmaFileKey := None;
     WorkflowInput.outputPath := "./blocks";
     WorkflowInput.options := None |}.

(** A state in which a screenshot has been asked for. *)
Definition awaiting_screenshot : WorkflowState.t :=
  Update.merge Scenario.state_x
    [Update.currentStep AWAITING_USER_INPUT;
     Update.awaitingUserInput
       (Some {| AwaitingUserInput.requestedAt := Scenario.instant;
                AwaitingUserInput.promptMessage := "Please provide a screenshot";
                AwaitingUserInput.inputType := screenshot_input |})].

End ScenarioExtra.


(** ** Further observations on Figma URLs *)

Module McpClientExtra.
Import McpClient.

(** The character [c] occurs in [s]. *)
Fixpoint occurs (c : ascii) (s : string) : bool :=
  match s with
  | EmptyString => false
  | String a s' => Ascii.eqb a c || occurs c s'
  end.

(** [<before>figma.com/design/<fileKey>/<fileName>?node-id=<nodeId><rest>] *)
Definition design_url (before fileKey fileName nodeId rest : string) : string :=
  before +:+ ("figma.com/design/" +:+ (fileKey +:+ ("/" +:+ (fileName +:+
    ("?node-id=" +:+ (nodeId +:+ rest)))))).

(** Nothing, or further query parameters. *)
Definition ends_node_id (rest : string) : bool :=
  match rest with
  | EmptyString => true
  | String a _ => Ascii.eqb a "&"
  end.

End McpClientExtra.


(** ** Further observations on the state store *)

Module JSONExtra.
Import JS.

Section json_ind.
Variable P : json → Prop.
Hypothesis case_JNull : P JNull.
Hypothesis case_JBool : ∀ b, P (JBool b).
Hypothesis case_JNumber : ∀ z, P (JNumber z).
Hypothesis case_JString : ∀ s, P (JString s).
Hypothesis case_JArray : ∀ items, Forall P items → P (JArray items).
Hypothesis case_JObject :
  ∀ members, Forall (λ kv, P kv.2) members → P (JObject members).

(** Induction on a document, with the hypothesis for every item of an
    array and every member of an object. *)
Fixpoint json_ind (j : json) : P j :=
  match j with
  | JNull => case_JNull
  | JBool b => case_JBool b
  | JNumber z => case_JNumber z
  | JString s => case_JString s
  | JArray items =>
      case_JArray items
        ((fix all (l : list json) : Forall P l :=
            match l with
            | [] => @List.Forall_nil _ P
            | x :: l' => @List.Forall_cons _ P x l' (json_ind x) (all l')
            end) items)
  | JObject members =>
      case_JObject members
        ((fix all (l : list (string * json)) : Forall (λ kv, P kv.2) l :=
            match l with
            | [] => @List.Forall_nil _ _
            | (k, x) :: l' =>
                @List.Forall_cons _ (λ kv, P kv.2) (k, x) l' (json_ind x) (all l')
            end) members)
  end.
End json_ind.

End JSONExtra.

Module PersistenceExtra.
Import Persistence.

(** [deleteState(filename)]: the disk afterwards, or the rejection of
    [unlink]. *)
Definition deleteState (config : PersistenceConfig) (filename : string)
    (disk : Fs.t) : Fs.t + Fs.errno :=
  Fs.unlink (located config filename) disk.

(** The file name [saveState] makes up when it is given none. *)
Definition default_name (state : WorkflowState.t) (now : string) : string :=
  WorkflowInput.blockName (WorkflowState.input state) +:+ "-" +:+
  dashed now +:+ ".json".

(** The file name [createCheckpoint] makes up:
    [`${state.input.blockName}-checkpoint${checkpointLabel}-${timestamp}.json`] *)
Definition checkpoint_name (state : WorkflowState.t) (label : option string)
    (now : string) : string :=
  WorkflowInput.blockName (WorkflowState.input state) +:+ "-checkpoint" +:+
  match truthy label with
  | Some l => "-" +:+ l
  | None => ""
  end +:+ "-" +:+ dashed now +:+ ".json".

End PersistenceExtra.


(** ** mcp-client.ts: the Figma connector over an [MCPClient] *)

Module McpClientImpl.
Import McpClient.

(** [interface MCPClient]: [callTool(toolName, args)] settles with an
    [MCPToolResult<string>] or is rejected. *)
Record MCPClient (W : Type) := mkMCPClient {
  callTool : string → list (string * JS.value) → W →
             (MCPToolResult.t string + Thrown) * W;
}.
Arguments callTool {W}.

(** [error instanceof Error ? error.message : String(error)] *)
Definition message_of (t : Thrown) : string :=
  match t with
  | ThrownError e => err_message e
  | ThrownValue s => s
  end.

(** [!result.success || !result.data] for a string: the data when the
    call counts. *)
Definition answer (result : MCPToolResult.t string) : option string :=
  if MCPToolResult.success result then truthy (MCPToolResult.data result)
  else None.

Definition failure {T} (message : string) : MCPToolResult.t T :=
  {| MCPToolResult.success := false;
     MCPToolResult.data := None;
     MCPToolResult.error := Some message |}.

Section figma.
Context {W : Type}.
Variable now_iso : M W string.
Variable client : MCPClient W.

(** [FigmaMCPClient.getDesignContext] *)
Definition getDesignContext (nodeId : string)
    : M W (MCPToolResult.t DesignContext.t) :=
  λ w,
    match callTool client "mcp_figma-mcp_get_design_context"
            [("nodeId", JS.Str nodeId);
             ("clientFrameworks", JS.Str "react");
             ("clientLanguages", JS.Str "typescript,css");
             ("forceCode", JS.Bool true);
             ("includeImagesOfNodes", JS.Bool true)] w with
    | (inl result, w1) =>
        match answer result with
        | None =>
            (failure (or_else (MCPToolResult.error result)
                              "No design context returned"), w1)
        | Some code =>
            let '(ts, w2) := now_iso w1 in
            ({| MCPToolResult.success := true;
                MCPToolResult.data :=
                  Some {| DesignContext.generatedCode := code;
                          DesignContext.nodeId := nodeId;
                          DesignContext.fileName := None;
                          DesignContext.timestamp := ts |};
                MCPToolResult.error := None |}, w2)
        end
    | (inr thrown, w1) => (failure (message_of thrown), w1)
    end.

(** [FigmaMCPClient.getScreenshot] *)
Definition getScreenshot (nodeId : string)
    : M W (MCPToolResult.t Screenshot.t) :=
  λ w,
    match callTool client "mcp_figma-mcp_get_screenshot"
            [("nodeId", JS.Str nodeId)] w with
    | (inl result, w1) =>
        match answer result with
        | None =>
            (failure (or_else (MCPToolResult.error result)
                              "No screenshot returned"), w1)
        | Some image =>
            let '(ts, w2) := now_iso w1 in
            ({| MCPToolResult.success := true;
                MCPToolResult.data :=
                  Some {| Screenshot.data := image;
                          Screenshot.format := png;
                          Screenshot.timestamp := ts |};
                MCPToolResult.error := None |}, w2)
        end
    | (inr thrown, w1) => (failure (message_of thrown), w1)
    end.

(** [new FigmaMCPClient(client)], as far as the workflow uses it. *)
Definition new_FigmaMCPClient : FigmaMCPClient W :=
  {| McpClient.getDesignContext := getDesignContext;
     McpClient.getScreenshot := getScreenshot |}.

End figma.

(** The design code a connector hands out is never empty. *)
Definition never_empty {W} (figmaClient : FigmaMCPClient W) : Prop :=
  ∀ nodeId w d,
    MCPToolResult.payload (McpClient.getDesignContext figmaClient nodeId w).1
      = Some d →
    DesignContext.generatedCode d ≠ "".

(** An error as a run may record it: marked retryable, or the report of a
    request without node id. *)
Definition retryable_or_no_node (e : WorkflowError.t) : Prop :=
  WorkflowError.retryable e = true ∨
  (WorkflowError.step e = EXTRACTING_DESIGN ∧
   WorkflowError.message e = "No Figma node ID provided" ∧
   WorkflowError.retryable e = false).

(** The design is there when a node that needs it is entered. *)
Definition ready (node : Workflow.NodeName) (state : WorkflowState.t) : Prop :=
  match node with
  | Workflow.get_screenshot | Workflow.analyze | Workflow.generate =>
      ∃ d, WorkflowState.designContext state = Some d ∧
           DesignContext.generatedCode d ≠ ""
  | _ => True
  end.

End McpClientImpl.


(** ** chat-integration.ts *)

Module ChatIntegration.
Import McpClient.

(** What [analyzeFigmaDesign] resolves with. *)
Record DesignReport := mkDesignReport {
  success : bool;
  designContext : option string;
  screenshot : option string;
  analysis : option BlockAnalysis.t;
  error : option string;
}.

Definition refused (message : string) : DesignReport :=
  {| success := false; designContext := None; screenshot := None;
     analysis := None; error := Some message |}.

Section preview.
Context {W : Type}.
Variable figmaClient : FigmaMCPClient W.
Variable edsClient : EDSGeneratorMCPClient W.

(** The message of the [TypeError] for reading a property of
    [undefined], which is the engine's. *)
Variable TypeError_message : string.

(** [analyzeFigmaDesign({ figmaUrl, figmaNodeId })]. The arguments of
    the analysis call are evaluated after the screenshot call has
    settled; [designResult.data!.generatedCode] throws there when the
    design came without data, and the [catch] turns that into a
    report. *)
Definition analyzeFigmaDesign (figmaUrl figmaNodeId : option string)
    : M W DesignReport :=
  let nodeId :=
    match truthy figmaUrl, truthy figmaNodeId with
    | Some url, None => snd <$> parseFigmaUrl url
    | _, _ => figmaNodeId
    end in
  match truthy nodeId with
  | None =>
      mret (refused "No Figma node ID provided or could not parse from URL")
  | Some nodeId =>
      designResult ← getDesignContext figmaClient nodeId;
      if MCPToolResult.success designResult then
        screenshotResult ← getScreenshot figmaClient nodeId;
        let shot :=
          if MCPToolResult.success screenshotResult
          then Screenshot.data <$> MCPToolResult.data screenshotResult
          else None in
        match MCPToolResult.data designResult with
        | None => mret (refused TypeError_message)
        | Some design =>
            analysisResult ←
              analyzeBlockStructure edsClient
                (DesignContext.generatedCode design) shot None;
            mret {| success := true;
                    designContext := Some (DesignContext.generatedCode design);
                    screenshot := shot;
                    analysis := MCPToolResult.payload analysisResult;
                    error := None |}
        end
      else
        mret (refused ("Failed to get design context: " +:+
                       interpolate (MCPToolResult.error designResult)))
  end.

End preview.
End ChatIntegration.

(** * Properties *)

(** ** Numbers *)

Module DoubleFacts.
Import Double.

Lemma compare_extended_refl (a : extended) : compare_extended a a = Eq.
Proof. destruct a as [|q|]; simpl; try done. by apply Qeq_alt. Qed.

Lemma compare_extended_antisym (a b : extended) :
  compare_extended b a = CompOpp (compare_extended a b).
Proof.
  destruct a as [|p|], b as [|q|]; simpl; try done.
  symmetry. apply Qcompare_antisym.
Qed.

Lemma compare_refl (x : t) : x ≠ NaN → compare x x = Some Eq.
Proof.
  unfold compare. destruct (value x) as [a|] eqn:Hx.
  - by rewrite compare_extended_refl.
  - destruct x; try done.
Qed.

Lemma compare_antisym (x y : t) c :
  compare x y = Some c → compare y x = Some (CompOpp c).
Proof.
  unfold compare. destruct (value x) as [a|], (value y) as [b|]; try done.
  intros [= <-]. by rewrite compare_extended_antisym.
Qed.

(** [Math.min(x, c)] is never above [c]. *)
Lemma Math_min_capped (x c : t) : ltb c (Math_min x c) = false.
Proof.
  unfold ltb, Math_min.
  destruct (compare x c) as [[]|] eqn:Hxc.
  - destruct (is_negative_zero x) eqn:Hzero.
    + by rewrite (compare_antisym x c Eq).
    + rewrite compare_refl; [done |]. intros ->. by destruct x.
  - by rewrite (compare_antisym x c Lt).
  - rewrite compare_refl; [done |]. intros ->. by destruct x.
  - unfold compare. simpl. by destruct (value c).
Qed.

Lemma ltb_leb (x y : t) : ltb x y = true → leb x y = true.
Proof. unfold ltb, leb. by destruct (compare x y) as [[]|]. Qed.

Lemma value_integer (a : Z) : value (integer a) = Some (Real (inject_Z a * 1)) ∨
                              value (integer a) = Some (Real 0) ∧ a = 0%Z.
Proof. destruct a; simpl; auto. Qed.

Lemma compare_inject_Z (a b : Z) : (inject_Z a ?= inject_Z b)%Q = (a ?= b)%Z.
Proof. unfold Qcompare. simpl. by rewrite !Z.mul_1_r. Qed.

(** An integer against a number that is an integer. *)
Lemma compare_integer (a N : Z) (x : t) :
  is_integer x N → compare (integer a) x = Some (a ?= N)%Z.
Proof.
  unfold is_integer, compare.
  destruct (value x) as [[|q|]|]; try done. intros Hq.
  assert (∀ p, (p == inject_Z a)%Q →
            compare_extended (Real p) (Real q) = (a ?= N)%Z) as Hcmp.
  { intros p Hp. simpl. rewrite Hp, Hq. apply compare_inject_Z. }
  destruct (value_integer a) as [-> | [-> ->]]; f_equal; apply Hcmp.
  - apply Qmult_1_r.
  - reflexivity.
Qed.

Lemma leb_integer (a N : Z) (x : t) :
  is_integer x N → leb (integer a) x = (a <=? N)%Z.
Proof.
  intros Hx. unfold leb. rewrite (compare_integer a N x Hx).
  unfold Z.leb. by destruct (a ?= N)%Z.
Qed.

Lemma ltb_integer (a N : Z) (x : t) :
  is_integer x N → ltb (integer a) x = (a <? N)%Z.
Proof.
  intros Hx. unfold ltb. rewrite (compare_integer a N x Hx).
  unfold Z.ltb. by destruct (a ?= N)%Z.
Qed.

End DoubleFacts.

(** ** Rounded products *)

Module DoubleRounding.
Import Double.
Local Open Scope Z_scope.

Lemma digits_bounds (p : positive) :
  2 ^ (Zpos (digits2_pos p) - 1) ≤ Zpos p < 2 ^ Zpos (digits2_pos p).
Proof.
  induction p as [p IH|p IH|]; simpl digits2_pos; [| | by compute].
  all: rewrite Pos2Z.inj_succ.
  all: replace (Z.succ (Zpos (digits2_pos p)) - 1) with (Z.succ (Zpos (digits2_pos p) - 1)) by lia.
  all: rewrite !Z.pow_succ_r by lia; lia.
Qed.

Lemma digits_le (p : positive) (n : Z) :
  0 ≤ n → Zpos p < 2 ^ n → Zpos (digits2_pos p) ≤ n.
Proof.
  intros Hn Hp. destruct (digits_bounds p) as [Hlow _].
  destruct (Z_le_gt_dec (Zpos (digits2_pos p)) n) as [|Hgt]; [done |].
  assert (2 ^ n ≤ 2 ^ (Zpos (digits2_pos p) - 1)) by (apply Z.pow_le_mono_r; lia).
  lia.
Qed.

Lemma shr_m_shr_1 (mrs : shr_record) :
  0 ≤ shr_m mrs → shr_m (shr_1 mrs) = shr_m mrs / 2.
Proof.
  destruct mrs as [m r s]. simpl. intros Hm.
  destruct m as [|[p|p|]|p]; simpl; [done | | | done | lia].
  - apply (Z.div_unique_pos _ _ _ 1); lia.
  - apply (Z.div_unique_pos _ _ _ 0); lia.
Qed.

Lemma shr_m_iter (p : positive) :
  ∀ mrs, 0 ≤ shr_m mrs →
    shr_m (SpecFloat.iter_pos shr_1 p mrs) = shr_m mrs / 2 ^ Zpos p.
Proof.
  assert (∀ q, 0 < 2 ^ Zpos q) as Hpos by (intros q; apply Z.pow_pos_nonneg; lia).
  assert (∀ q, 2 ^ Zpos q~0 = 2 ^ Zpos q * 2 ^ Zpos q) as Heven
    by (intros q; rewrite <- Z.pow_add_r by lia; f_equal; lia).
  assert (∀ q, 2 ^ Zpos q~1 = 2 * (2 ^ Zpos q * 2 ^ Zpos q)) as Hodd
    by (intros q; rewrite <- Z.pow_add_r, <- Z.pow_succ_r by lia; f_equal; lia).
  induction p as [p IH|p IH|]; intros mrs Hm.
  - change (SpecFloat.iter_pos shr_1 p~1 mrs)
      with (SpecFloat.iter_pos shr_1 p (SpecFloat.iter_pos shr_1 p (shr_1 mrs))).
    assert (0 ≤ shr_m (shr_1 mrs)) as H1
      by (rewrite shr_m_shr_1 by done; apply Z.div_pos; lia).
    assert (0 ≤ shr_m (SpecFloat.iter_pos shr_1 p (shr_1 mrs))) as H2
      by (rewrite IH by done; apply Z.div_pos; [done | apply Hpos]).
    rewrite (IH _ H2), (IH _ H1), shr_m_shr_1 by done.
    rewrite !Z.div_div by (pose proof (Hpos p); lia).
    by rewrite Hodd.
  - change (SpecFloat.iter_pos shr_1 p~0 mrs)
      with (SpecFloat.iter_pos shr_1 p (SpecFloat.iter_pos shr_1 p mrs)).
    assert (0 ≤ shr_m (SpecFloat.iter_pos shr_1 p mrs)) as H2
      by (rewrite IH by done; apply Z.div_pos; [done | apply Hpos]).
    rewrite (IH _ H2), (IH _ Hm).
    rewrite !Z.div_div by (pose proof (Hpos p); lia).
    by rewrite Heven.
  - by apply shr_m_shr_1.
Qed.

(** The mantissa [shr_fexp] leaves, and its exponent. *)
Lemma shr_fexp_spec (m e : Z) (l : location) :
  0 ≤ m →
  let n := fexp prec emax (Zdigits2 m + e) - e in
  let res := shr_fexp prec emax m e l in
  (n ≤ 0 → res = (shr_record_of_loc m l, e)) ∧
  (0 < n → shr_m res.1 = m / 2 ^ n ∧ res.2 = e + n).
Proof.
  intros Hm n res. unfold res, shr_fexp, shr. fold n.
  assert (shr_m (shr_record_of_loc m l) = m) as Hrec by (by destruct l as [|[]]).
  destruct n as [|p|p] eqn:Hn; split; try lia; try done.
  intros _. simpl. split; [| done].
  rewrite shr_m_iter; rewrite Hrec; done.
Qed.

Lemma round_bounds (m : Z) (l : location) :
  m ≤ round_nearest_even m l ≤ m + 1.
Proof.
  destruct l as [|[]]; simpl; try lia. destruct (Z.even m); lia.
Qed.

(** [m * 2^e] *)
Lemma two_nonzero : ¬ (2 == 0)%Q.
Proof. done. Qed.

Lemma val_shift (m e k : Z) :
  k ≤ e →
  (inject_Z m * 2 ^ e == inject_Z (m * 2 ^ (e - k)) * 2 ^ k)%Q.
Proof.
  intros Hk. replace e with ((e - k) + k) at 1 by lia.
  rewrite Qpower_plus by apply two_nonzero.
  rewrite inject_Z_mult, Zpower_Qpower by lia.
  change (inject_Z 2) with 2%Q. ring.
Qed.

Lemma val_le_iff (a x b y k : Z) :
  k ≤ x → k ≤ y →
  (inject_Z a * 2 ^ x <= inject_Z b * 2 ^ y)%Q ↔ a * 2 ^ (x - k) ≤ b * 2 ^ (y - k).
Proof.
  intros Hx Hy. rewrite (val_shift a x k Hx), (val_shift b y k Hy).
  rewrite Qmult_le_r by (by apply Qpower_0_lt).
  by rewrite <- Zle_Qle.
Qed.

(** The first shift and the rounding: what is left is not less than any
    number of at most 53 bits that the exact value is not less than. *)
Lemma first_shift (M md : positive) (E ed : Z) :
  Zpos (digits2_pos md) ≤ 53 → -1074 ≤ ed →
  (inject_Z (Zpos md) * 2 ^ ed <= inject_Z (Zpos M) * 2 ^ E)%Q →
  ∀ mrs e1, shr_fexp prec emax (Zpos M) E loc_Exact = (mrs, e1) →
  let m1 := round_nearest_even (shr_m mrs) (loc_of_shr_record mrs) in
  0 < m1 ≤ 2 ^ 53 ∧ -1074 ≤ e1 ∧
  (inject_Z (Zpos md) * 2 ^ ed <= inject_Z m1 * 2 ^ e1)%Q.
Proof.
  intros Hmd Hed Hle mrs e1 Hshr m1.
  destruct (shr_fexp_spec (Zpos M) E loc_Exact ltac:(lia)) as [Hnone Hsome].
  rewrite Hshr in Hnone, Hsome. cbn [fst snd] in Hsome.
  change (Zdigits2 (Zpos M)) with (Zpos (digits2_pos M)) in *.
  change (fexp prec emax (Zpos (digits2_pos M) + E))
    with (Z.max (Zpos (digits2_pos M) + E - 53) (-1074)) in *.
  destruct (digits_bounds M) as [HMlow HMhigh].
  destruct (digits_bounds md) as [_ Hmdhigh].
  assert (Zpos md < 2 ^ 53) as Hmd53.
  { eapply Z.lt_le_trans; [exact Hmdhigh |]. apply Z.pow_le_mono_r; lia. }
  set (dM := Zpos (digits2_pos M)) in *.
  set (n := Z.max (dM + E - 53) (-1074) - E) in *.
  destruct (Z_le_gt_dec n 0) as [Hn|Hn].
  - specialize (Hnone Hn). injection Hnone as -> ->.
    subst m1. simpl. split; [| split; [lia | done]].
    split; [lia |]. apply Z.lt_le_incl.
    eapply Z.lt_le_trans; [exact HMhigh |]. apply Z.pow_le_mono_r; lia.
  - destruct (Hsome ltac:(lia)) as [Hm He]. clear Hnone Hsome.
    pose proof (round_bounds (shr_m mrs) (loc_of_shr_record mrs)) as Hround.
    fold m1 in Hround. rewrite Hm in Hround.
    assert (0 < 2 ^ n) as Hpow by (apply Z.pow_pos_nonneg; lia).
    assert (Zpos M / 2 ^ n < 2 ^ 53) as Hsmall.
    { apply Z.div_lt_upper_bound; [done |].
      rewrite <- Z.pow_add_r by lia.
      eapply Z.lt_le_trans; [exact HMhigh |]. apply Z.pow_le_mono_r; lia. }
    assert (e1 = Z.max (dM + E - 53) (-1074)) as He1 by lia.
    destruct (Z_le_gt_dec e1 ed) as [Hcase|Hcase].
    + apply (val_le_iff _ _ _ _ E) in Hle; [| lia | lia].
      rewrite Z.sub_diag, Z.mul_1_r in Hle.
      assert (Zpos md * 2 ^ (ed - e1) ≤ Zpos M / 2 ^ n) as Hfloor.
      { apply Z.div_le_lower_bound; [done |].
        replace (ed - E) with (n + (ed - e1)) in Hle by lia.
        rewrite Z.pow_add_r in Hle by lia. lia. }
      assert (0 < 2 ^ (ed - e1)) by (apply Z.pow_pos_nonneg; lia).
      split; [nia |]. split; [lia |].
      apply (val_le_iff _ _ _ _ e1); [lia | lia |].
      rewrite Z.sub_diag, Z.mul_1_r. lia.
    + assert (2 ^ 52 ≤ Zpos M / 2 ^ n) as Hbig.
      { apply Z.div_le_lower_bound; [done |].
        rewrite <- Z.pow_add_r by lia.
        eapply Z.le_trans; [| exact HMlow]. apply Z.pow_le_mono_r; lia. }
      split; [lia |]. split; [lia |].
      apply (val_le_iff _ _ _ _ ed); [lia | lia |].
      rewrite Z.sub_diag, Z.mul_1_r.
      assert (2 ^ 1 ≤ 2 ^ (e1 - ed)) as Hstep by (apply Z.pow_le_mono_r; lia).
      change (2 ^ 1) with 2 in Hstep. nia.
Qed.

(** The second shift: it takes place only after a carry to [2^53], and
    loses nothing. *)
Lemma second_shift (m1 e1 : Z) :
  0 < m1 ≤ 2 ^ 53 → -1074 ≤ e1 →
  ∀ mrs e2, shr_fexp prec emax m1 e1 loc_Exact = (mrs, e2) →
  ∃ m2 : positive,
    shr_m mrs = Zpos m2 ∧ Zpos (digits2_pos m2) ≤ 53 ∧ -1074 ≤ e2 ∧
    (inject_Z (Zpos m2) * 2 ^ e2 == inject_Z m1 * 2 ^ e1)%Q.
Proof.
  intros Hm He mrs e2 Hshr.
  destruct m1 as [|q|q]; [lia | | lia].
  destruct (shr_fexp_spec (Zpos q) e1 loc_Exact ltac:(lia)) as [Hnone Hsome].
  rewrite Hshr in Hnone, Hsome. cbn [fst snd] in Hsome.
  change (Zdigits2 (Zpos q)) with (Zpos (digits2_pos q)) in *.
  change (fexp prec emax (Zpos (digits2_pos q) + e1))
    with (Z.max (Zpos (digits2_pos q) + e1 - 53) (-1074)) in *.
  destruct (Z_lt_le_dec (Zpos q) (2 ^ 53)) as [Hq|Hq].
  - pose proof (digits_le q 53 ltac:(lia) Hq) as Hdigits.
    injection (Hnone ltac:(lia)) as -> ->.
    exists q. by repeat split.
  - assert (q = (2 ^ 53)%positive) as -> by lia.
    change (Zpos (digits2_pos (2 ^ 53))) with 54 in *.
    destruct (Hsome ltac:(lia)) as [Hmrs He2].
    replace (Z.max (54 + e1 - 53) (-1074) - e1) with 1 in * by lia.
    exists (2 ^ 52)%positive. split; [exact Hmrs |].
    split; [by vm_compute |]. split; [lia |].
    rewrite He2, (val_shift _ (e1 + 1) e1) by lia.
    by replace (e1 + 1 - e1) with 1 by lia.
Qed.

(** Rounding an exact positive value keeps it above every number of at
    most 53 bits that it was above. *)
Lemma round_ge (M md : positive) (E ed : Z) :
  Zpos (digits2_pos md) ≤ 53 → -1074 ≤ ed →
  (inject_Z (Zpos md) * 2 ^ ed <= inject_Z (Zpos M) * 2 ^ E)%Q →
  match binary_round_aux prec emax false (Zpos M) E loc_Exact with
  | S754_finite false m2 e2 =>
      Zpos (digits2_pos m2) ≤ 53 ∧ -1074 ≤ e2 ∧
      (inject_Z (Zpos md) * 2 ^ ed <= inject_Z (Zpos m2) * 2 ^ e2)%Q
  | S754_infinity false => True
  | _ => False
  end.
Proof.
  intros Hmd Hed Hle. unfold binary_round_aux.
  destruct (shr_fexp prec emax (Zpos M) E loc_Exact) as [mrs e1] eqn:H1.
  destruct (first_shift M md E ed Hmd Hed Hle mrs e1 H1) as (Hm1 & He1 & Hle1).
  destruct (shr_fexp prec emax
              (round_nearest_even (shr_m mrs) (loc_of_shr_record mrs)) e1 loc_Exact)
    as [mrs2 e2] eqn:H2.
  destruct (second_shift _ e1 Hm1 He1 mrs2 e2 H2) as (m2 & -> & Hm2 & He2 & Hval).
  destruct (e2 <=? emax - prec); [| done].
  split; [done |]. split; [done |]. by rewrite Hval.
Qed.

Lemma negative_value (m : positive) (e : Z) :
  (inject_Z (Zneg m) * 2 ^ e <= 0)%Q.
Proof.
  rewrite <- (Qmult_0_l (2 ^ e)).
  apply (val_le_iff (Zneg m) e 0 e e); lia.
Qed.

Lemma leb_real (x y : t) (p q : Q) :
  value x = Some (Real p) → value y = Some (Real q) →
  leb x y = true ↔ (p <= q)%Q.
Proof.
  intros Hx Hy. unfold leb, compare. rewrite Hx, Hy. simpl.
  rewrite Qle_alt. by destruct (p ?= q)%Q.
Qed.

Lemma value_nonnegative (x : t) :
  nonnegative x → ∃ p, value x = Some (Real p) ∧ (0 <= p)%Q.
Proof.
  destruct x as [s| | |[] m e]; try done; intros _.
  - by exists 0%Q.
  - eexists. split; [reflexivity |].
    rewrite <- (Qmult_0_l (2 ^ e)).
    apply (val_le_iff 0 e (Zpos m) e e); lia.
Qed.

(** A finite number that is not below zero. *)
Lemma finite_nonnegative (x : t) :
  finite x = true → leb (of_Z 0) x = true → nonnegative x.
Proof.
  destruct x as [s| | |[] m e]; try done.
  - intros _ H.
    apply (leb_real (of_Z 0) (S754_finite true m e) 0 _ eq_refl eq_refl) in H.
    rewrite <- (Qmult_0_l (2 ^ e)) in H.
    apply (val_le_iff 0 e (Zneg m) e e) in H; lia.
  - unfold finite, valid_binary, bounded, canonical_mantissa.
    intros [Hcanon _]%andb_true_iff _. apply Z.eqb_eq in Hcanon.
    change (fexp prec emax (Zpos (digits2_pos m) + e))
      with (Z.max (Zpos (digits2_pos m) + e - 53) (-1074)) in Hcanon.
    simpl. lia.
Qed.

(** A finite number that is not below one. *)
Lemma finite_at_least_one (x : t) :
  finite x = true → leb (of_Z 1) x = true →
  ∃ m e, x = S754_finite false m e ∧ (1 <= inject_Z (Zpos m) * 2 ^ e)%Q.
Proof.
  destruct x as [s| | |[] m e]; try done.
  - intros _ H.
    apply (leb_real (of_Z 1) (S754_finite true m e) _ _ eq_refl eq_refl) in H.
    pose proof (negative_value m e) as Hneg.
    pose proof (Qle_trans _ _ _ H Hneg) as Habs. by vm_compute in Habs.
  - intros _ H.
    apply (leb_real (of_Z 1) (S754_finite false m e) _ _ eq_refl eq_refl) in H.
    exists m, e. split; [done |].
    eapply Qle_trans; [| exact H]. by vm_compute.
Qed.

(** [d * m] is not below [d], for [d >= 0] and [m >= 1] finite. *)
Lemma mul_ge (d m : t) :
  nonnegative d → finite m = true → leb (of_Z 1) m = true →
  (nonnegative (mul d m) ∨ mul d m = S754_infinity false) ∧
  leb d (mul d m) = true.
Proof.
  intros Hd Hfin Hone.
  destruct (finite_at_least_one m Hfin Hone) as (mm & em & -> & Hm).
  destruct d as [s| | |[] md ed]; try done.
  { split; [by left | by destruct s]. }
  destruct Hd as [Hmd Hed].
  assert (inject_Z (Zpos md) * 2 ^ ed
          <= inject_Z (Zpos (md * mm)) * 2 ^ (ed + em))%Q as Hle.
  { rewrite Pos2Z.inj_mul, inject_Z_mult, Qpower_plus by apply two_nonzero.
    assert (0 < inject_Z (Zpos md) * 2 ^ ed)%Q as Hpos
      by (apply Qmult_lt_0_compat; [done | by apply Qpower_0_lt]).
    apply Qle_trans
      with ((inject_Z (Zpos md) * 2 ^ ed) * (inject_Z (Zpos mm) * 2 ^ em))%Q.
    - apply Qle_trans with ((inject_Z (Zpos md) * 2 ^ ed) * 1)%Q.
      + rewrite Qmult_1_r. apply Qle_refl.
      + by apply Qmult_le_l.
    - apply Qle_lteq. right. ring. }
  pose proof (round_ge (md * mm) md (ed + em) ed Hmd Hed Hle) as Hround.
  unfold mul. simpl SFmul.
  destruct (binary_round_aux prec emax false (Zpos (md * mm)) (ed + em) loc_Exact)
    as [| [] | |[] m2 e2]; try done.
  - split; [by right | done].
  - destruct Hround as (Hm2 & He2 & Hv). split; [by left |].
    by apply (leb_real (S754_finite false md ed) (S754_finite false m2 e2)
                _ _ eq_refl eq_refl).
Qed.

Lemma leb_trans (x y z : t) :
  leb x y = true → leb y z = true → leb x z = true.
Proof.
  unfold leb, compare.
  destruct (value x) as [[|p|]|], (value y) as [[|q|]|], (value z) as [[|r|]|];
    simpl; try done.
  intros H1 H2.
  assert (p <= q)%Q as Hpq by (apply Qle_alt; by destruct (p ?= q)%Q).
  assert (q <= r)%Q as Hqr by (apply Qle_alt; by destruct (q ?= r)%Q).
  pose proof (proj1 (Qle_alt _ _) (Qle_trans _ _ _ Hpq Hqr)) as Hpr.
  by destruct (p ?= r)%Q.
Qed.

Lemma leb_refl (x : t) : nonnegative x → leb x x = true.
Proof.
  intros Hx. unfold leb. rewrite DoubleFacts.compare_refl; [done |].
  intros ->. done.
Qed.

(** One step of the backoff: [Math.min(d * m, cap)] lies between [d] and
    [cap]. *)
Lemma backoff_step (d m cap : t) :
  nonnegative d → nonnegative cap → leb d cap = true →
  finite m = true → leb (of_Z 1) m = true →
  nonnegative (Math_min (mul d m) cap) ∧
  leb (Math_min (mul d m) cap) cap = true ∧
  leb d (Math_min (mul d m) cap) = true.
Proof.
  intros Hd Hcap Hdcap Hm Hone.
  destruct (mul_ge d m Hd Hm Hone) as [Hy Hdy].
  pose proof (leb_refl cap Hcap) as Hrefl.
  destruct (value_nonnegative cap Hcap) as (c & Hc & _).
  unfold Math_min. destruct Hy as [Hy| ->].
  - destruct (value_nonnegative _ Hy) as (q & Hq & _).
    assert (compare (mul d m) cap = Some (q ?= c)%Q) as Hcmp
      by (unfold compare; by rewrite Hq, Hc).
    rewrite Hcmp.
    assert ((q ?= c)%Q ≠ Gt → leb (mul d m) cap = true) as Hle
      by (unfold leb; rewrite Hcmp; by destruct (q ?= c)%Q).
    destruct (q ?= c)%Q; [destruct (is_negative_zero (mul d m)) | |];
      repeat split; auto.
  - assert (compare (S754_infinity false) cap = Some Gt) as ->
      by (unfold compare; by rewrite Hc).
    by repeat split.
Qed.

End DoubleRounding.

(** ** retryWithBackoff *)

Module RetryFacts.
Import Retry DoubleFacts.

Lemma calls_app (a b : list Event) : calls (a ++ b) = (calls a + calls b)%nat.
Proof. unfold calls. by rewrite List.filter_app, length_app. Qed.

Lemma sleeps_app (a b : list Event) : sleeps (a ++ b) = sleeps a ++ sleeps b.
Proof. apply omap_app. Qed.

Lemma caught_app (a b : list Event) : caught (a ++ b) = caught a ++ caught b.
Proof. apply omap_app. Qed.

Lemma timeline_app (a b : list Event) :
  timeline (a ++ b) = timeline a ++ timeline b.
Proof. apply List.filter_app. Qed.

Section counter.
Variable cfg : RetryConfig.
Variable N : nat.
Hypothesis Hmax : maxRetries_is cfg N.

Lemma attempt_le_count (a : nat) :
  attempt_le (Z.of_nat a) (maxRetries cfg) = (a <=? N)%nat.
Proof.
  unfold attempt_le. rewrite (leb_integer _ (Z.of_nat N)) by apply Hmax.
  destruct (a <=? N)%nat eqn:H.
  - apply Nat.leb_le in H. apply Z.leb_le. lia.
  - apply Nat.leb_gt in H. apply Z.leb_gt. lia.
Qed.

Lemma attempt_lt_count (a : nat) :
  attempt_lt (Z.of_nat a) (maxRetries cfg) = (a <? N)%nat.
Proof.
  unfold attempt_lt. rewrite (ltb_integer _ (Z.of_nat N)) by apply Hmax.
  destruct (a <? N)%nat eqn:H.
  - apply Nat.ltb_lt in H. apply Z.ltb_lt. lia.
  - apply Nat.ltb_ge in H. apply Z.ltb_ge. lia.
Qed.

Lemma next_count (a : nat) : (a ≤ N)%nat → next (Z.of_nat a) = Z.of_nat (S a).
Proof.
  intros Ha. unfold next. destruct Hmax as [_ Hsmall].
  destruct (Z.of_nat a <? 2 ^ 53)%Z eqn:H; [lia |].
  apply Z.ltb_ge in H. lia.
Qed.
End counter.

(** No delay after the first is above [maxDelay]. *)
Lemma delay_seq_capped (cfg : RetryConfig) (n : nat) :
  Double.ltb (Double.to_number (maxDelay cfg))
             (Double.to_number (delay_seq cfg (S n))) = false.
Proof. simpl. apply Math_min_capped. Qed.

End RetryFacts.

Module RetryLoop.
Import Retry RetryFacts.

Section loop.
Context {W T : Type}.
Variable sleep : option Double.t → W → W.
Variable fn : W → (T + Thrown) * W.
Variable onRetry : option (Z → Error → W → option Thrown * W).
Variable cfg : RetryConfig.

(** The loop ends where its condition fails. *)
Lemma retry_loop_done fuel attempt delay lastError tr w :
  attempt_le attempt (maxRetries cfg) = false →
  retry_loop sleep fn onRetry cfg (S fuel) attempt delay lastError tr w =
    Some {| outcome := inr (ThrownError <$> lastError);
            trace := tr; world := w |}.
Proof. intros H. simpl. by rewrite H. Qed.

(** Every error the loop catches was thrown by [fn]. *)
Lemma caught_from_fn (fuel : nat) :
  ∀ attempt delay lastError tr w r e,
    retry_loop sleep fn onRetry cfg fuel attempt delay lastError tr w = Some r →
    e ∈ caught (trace r) →
    e ∈ caught tr ∨ ∃ w' t, (fn w').1 = inr t ∧ e = toError t.
Proof.
  induction fuel as [|fuel IH]; intros attempt delay lastError tr w r e;
    simpl; [done |].
  destruct (attempt_le attempt (maxRetries cfg)); [| by intros [= <-]; left].
  destruct (fn w) as [[v|t] w1] eqn:Hcall; simpl.
  { intros [= <-]. simpl. rewrite caught_app. simpl. rewrite app_nil_r. by left. }
  assert (∀ mid, caught mid = [] →
            e ∈ caught ((tr ++ [Call; Caught (toError t)]) ++ mid) →
            e ∈ caught tr ∨ ∃ w' t', (fn w').1 = inr t' ∧ e = toError t') as Hnew.
  { intros mid Hmid. rewrite !caught_app, Hmid, app_nil_r. simpl.
    intros [?| ->%list_elem_of_singleton]%elem_of_app; [by left |].
    right. exists w, t. by rewrite Hcall. }
  destruct (attempt_lt attempt (maxRetries cfg)).
  - destruct onRetry as [f|].
    + destruct (f (next attempt) (toError t) w1) as [[t'|] w2]; simpl.
      * intros [= <-]. simpl.
        apply (Hnew [OnRetry (next attempt) (toError t)]). done.
      * intros Hr Hin. destruct (IH _ _ _ _ _ _ _ Hr Hin) as [Hin'|]; [| by right].
        rewrite <- app_assoc in Hin'. by apply (Hnew (_ :: _ :: [])) in Hin'.
    + intros Hr Hin. destruct (IH _ _ _ _ _ _ _ Hr Hin) as [Hin'|]; [| by right].
      by apply (Hnew [_]) in Hin'.
  - intros Hr Hin. destruct (IH _ _ _ _ _ _ _ Hr Hin) as [Hin'|]; [| by right].
    apply (Hnew []); [done |]. by rewrite app_nil_r.
Qed.

Section failing.
Variable N : nat.
Hypothesis Hmax : maxRetries_is cfg N.
Hypothesis Hfn : always_fails fn.
Hypothesis Hcb : returns_normally onRetry.

(** A function that always fails is called until the counter passes
    [N]; the loop needs one test of its condition more than it makes
    calls. *)
Lemma retry_loop_failing (iters : nat) :
  ∀ attempt delay lastError tr w fuel,
    (attempt + iters = S N)%nat →
    (iters < fuel)%nat →
    (iters ≠ 1%nat → delay = delay_seq cfg attempt) →
    lastError = last (caught tr) →
    ∃ r,
      retry_loop sleep fn onRetry cfg fuel (Z.of_nat attempt)
        delay lastError tr w = Some r ∧
      (delay = delay_seq cfg attempt →
         timeline (trace r) = timeline tr ++ timeline_from cfg attempt iters) ∧
      calls (trace r) = (calls tr + iters)%nat ∧
      length (sleeps (trace r)) = (length (sleeps tr) + Nat.pred iters)%nat ∧
      length (caught (trace r)) = (length (caught tr) + iters)%nat ∧
      outcome r = inr (ThrownError <$> last (caught (trace r))).
Proof.
  induction iters as [|i IH];
    intros attempt delay lastError tr w fuel Hsum Hfuel Hdelay Hlast.
  { destruct fuel as [|fuel]; [lia |].
    rewrite retry_loop_done by (rewrite (attempt_le_count cfg N Hmax);
                                apply Nat.leb_gt; lia).
    eexists. split; [reflexivity |]. simpl.
    rewrite app_nil_r, !Nat.add_0_r. by subst. }
  destruct fuel as [|fuel]; [lia |]. simpl.
  rewrite (attempt_le_count cfg N Hmax).
  assert ((attempt <=? N)%nat = true) as -> by (apply Nat.leb_le; lia).
  destruct (Hfn w) as [t Ht]. destruct (fn w) as [res w1] eqn:Hcall.
  simpl in Ht. subst res.
  rewrite (attempt_lt_count cfg N Hmax).
  rewrite (next_count cfg N Hmax) by lia.
  destruct (attempt <? N)%nat eqn:Hlt.
  - apply Nat.ltb_lt in Hlt.
    destruct i as [|i]; [lia |].
    rewrite Hdelay by done.
    change (next_delay cfg (delay_seq cfg attempt))
      with (delay_seq cfg (S attempt)).
    assert (∀ tr2 w2,
              caught tr2 = caught tr ++ [toError t] →
              timeline tr2 = timeline tr ++ [Call] →
              calls tr2 = (calls tr + 1)%nat →
              sleeps tr2 = sleeps tr →
              ∃ r,
                retry_loop sleep fn onRetry cfg fuel (Z.of_nat (S attempt))
                  (delay_seq cfg (S attempt)) (Some (toError t))
                  (tr2 ++ [Sleep (delay_seq cfg attempt)]) w2 = Some r ∧
                (delay_seq cfg attempt = delay_seq cfg attempt →
                   timeline (trace r) =
                     timeline tr ++ timeline_from cfg attempt (S (S i))) ∧
                calls (trace r) = (calls tr + S (S i))%nat ∧
                length (sleeps (trace r)) =
                  (length (sleeps tr) + Nat.pred (S (S i)))%nat ∧
                length (caught (trace r)) = (length (caught tr) + S (S i))%nat ∧
                outcome r = inr (ThrownError <$> last (caught (trace r))))
      as Hstep.
    { intros tr2 w2 Hcaught Htimeline Hcalls Hsleeps.
      destruct (IH (S attempt) (delay_seq cfg (S attempt)) (Some (toError t))
                  (tr2 ++ [Sleep (delay_seq cfg attempt)]) w2 fuel)
        as (r & Hr & Htl & Hc & Hs & Hlen & Hout);
        [lia | lia | done
         | by rewrite caught_app, Hcaught; simpl; rewrite app_nil_r, last_snoc |].
      exists r. split; [exact Hr |].
      rewrite Hc, Hs, Hlen, Hout.
      rewrite calls_app, sleeps_app, caught_app, !length_app,
        Hcalls, Hsleeps, Hcaught, length_app.
      split; [| split; [| split; [| split]]].
      - intros _. rewrite (Htl eq_refl), timeline_app, Htimeline.
        unfold timeline_from. simpl. by rewrite <- !app_assoc.
      - unfold calls. simpl. lia.
      - simpl. lia.
      - simpl. lia.
      - done. }
    destruct onRetry as [f|] eqn:Hon.
    + pose proof (Hcb f eq_refl (Z.of_nat (S attempt)) (toError t) w1) as Hret.
      destruct (f (Z.of_nat (S attempt)) (toError t) w1) as [res w2].
      simpl in Hret. subst res.
      apply Hstep.
      * rewrite !caught_app. simpl. by rewrite app_nil_r.
      * rewrite !timeline_app. simpl. by rewrite app_nil_r.
      * rewrite !calls_app. unfold calls. simpl. lia.
      * rewrite !sleeps_app. simpl. by rewrite !app_nil_r.
    + apply Hstep.
      * rewrite !caught_app. by simpl.
      * rewrite !timeline_app. by simpl.
      * rewrite !calls_app. unfold calls. simpl. lia.
      * rewrite !sleeps_app. simpl. by rewrite !app_nil_r.
  - apply Nat.ltb_ge in Hlt.
    assert (i = 0)%nat as -> by lia.
    destruct fuel as [|fuel]; [lia |].
    rewrite retry_loop_done by (rewrite (attempt_le_count cfg N Hmax);
                                apply Nat.leb_gt; lia).
    eexists. split; [reflexivity |]. simpl.
    rewrite !timeline_app, !calls_app, !sleeps_app, !caught_app, !length_app.
    change (caught [Call; Caught (toError t)]) with [toError t].
    rewrite last_snoc.
    split; [by intros _ |]. split; [unfold calls; simpl; lia |].
    split; [simpl; lia |]. split; [simpl; lia | done].
Qed.
End failing.
End loop.

End RetryLoop.


Module RetryClaims.
Import Retry RetryFacts RetryLoop.

Lemma timeline_calls (tr : list Event) : calls (timeline tr) = calls tr.
Proof.
  unfold calls, timeline.
  induction tr as [|[] tr IH]; simpl; auto.
Qed.

Lemma timeline_sleeps (tr : list Event) : sleeps (timeline tr) = sleeps tr.
Proof.
  induction tr as [|ev tr IH]; [done |].
  destruct ev; cbn; try exact IH.
  f_equal. exact IH.
Qed.

Lemma expected_calls cfg (a n : nat) :
  calls (flat_map (pair_at cfg) (seq a n)) = n.
Proof.
  revert a. induction n as [|n IH]; intros a; simpl; [done |].
  change (calls (Call :: Sleep (delay_seq cfg a) :: flat_map (pair_at cfg) (seq (S a) n))
          = S n).
  unfold calls in *. simpl. by rewrite IH.
Qed.

Lemma expected_sleeps cfg (a n : nat) :
  sleeps (flat_map (pair_at cfg) (seq a n)) = List.map (delay_seq cfg) (seq a n).
Proof.
  revert a. induction n as [|n IH]; intros a; simpl; [done |].
  unfold sleeps in *. simpl. by rewrite IH.
Qed.

(** What a call that never succeeds goes through, whatever its errors. *)
Lemma exhausts {W T} (sleep : option Double.t → W → W)
    (fn : W → (T + Thrown) * W) (config : PartialRetryConfig)
    (onRetry : option (Z → Error → W → option Thrown * W))
    (N fuel : nat) (w : W) :
  maxRetries_is (withDefaults config) N →
  always_fails fn → returns_normally onRetry →
  (N + 2 ≤ fuel)%nat →
  ∃ r,
    retryWithBackoff sleep fn config onRetry fuel w = Some r ∧
    timeline (trace r) = expected_timeline (withDefaults config) N ∧
    calls (trace r) = S N ∧
    sleeps (trace r) = List.map (delay_seq (withDefaults config)) (seq 0 N) ∧
    ∃ e, last (caught (trace r)) = Some e ∧
         outcome r = inr (Some (ThrownError e)).
Proof.
  intros Hmax Hfn Hcb Hfuel. unfold retryWithBackoff. cbv zeta.
  destruct (retry_loop_failing sleep fn onRetry (withDefaults config) N
              Hmax Hfn Hcb (S N) 0%nat (initialDelay (withDefaults config))
              None [] w fuel)
    as (r & Hr & Htl & _ & _ & Hlen & Hout); [done | lia | done | done |].
  change (Z.of_nat 0) with 0%Z in Hr.
  exists r. split; [exact Hr |].
  specialize (Htl eq_refl). simpl in Htl, Hlen.
  change (timeline (trace r) = expected_timeline (withDefaults config) N) in Htl.
  split; [done |]. split; [| split].
  - rewrite <- timeline_calls, Htl. unfold expected_timeline.
    rewrite calls_app, expected_calls. unfold calls. simpl. lia.
  - rewrite <- timeline_sleeps, Htl. unfold expected_timeline.
    rewrite sleeps_app, expected_sleeps. unfold sleeps. simpl.
    by rewrite app_nil_r.
  - destruct (last (caught (trace r))) as [e|] eqn:He.
    + exists e. by rewrite Hout.
    + apply last_None in He. rewrite He in Hlen. simpl in Hlen. lia.
Qed.

(** Of the delays [delay_a, delay_(a+1), ...] none but [delay_0] can be
    above [maxDelay]. *)
Lemma later_sleeps_capped cfg (a n : nat) :
  Forall (λ d, exceeds cfg d = false) (List.map (delay_seq cfg) (seq (S a) n)).
Proof.
  apply Forall_forall. intros d Hd.
  apply list_elem_of_In, in_map_iff in Hd as (k & <- & Hk).
  apply in_seq in Hk. destruct k as [|k]; [lia |].
  apply delay_seq_capped.
Qed.

Lemma sleeps_capped cfg (n : nat) :
  exceeds cfg (initialDelay cfg) = false →
  Forall (λ d, exceeds cfg d = false) (List.map (delay_seq cfg) (seq 0 n)).
Proof.
  intros H. destruct n as [|n]; [by constructor |].
  simpl. constructor; [done |]. apply later_sleeps_capped.
Qed.

(** Under [grows], every delay is a finite number between the one before
    it and [maxDelay]. *)
Lemma delay_seq_grows (cfg : RetryConfig) (n : nat) :
  grows cfg →
  Double.nonnegative (Double.to_number (delay_seq cfg n)) ∧
  Double.leb (Double.to_number (delay_seq cfg n))
             (Double.to_number (maxDelay cfg)) = true ∧
  Double.leb (Double.to_number (delay_seq cfg n))
             (Double.to_number (delay_seq cfg (S n))) = true.
Proof.
  intros (Hinit & Hcap & Hm & H0 & Hle & H1).
  pose proof (DoubleRounding.finite_nonnegative _ Hinit H0) as Hinit'.
  pose proof (DoubleRounding.finite_nonnegative _ Hcap
                (DoubleRounding.leb_trans _ _ _ H0 Hle)) as Hcap'.
  assert (Double.nonnegative (Double.to_number (delay_seq cfg n)) ∧
          Double.leb (Double.to_number (delay_seq cfg n))
                     (Double.to_number (maxDelay cfg)) = true) as [Hn Hncap].
  { induction n as [|n [IH1 IH2]]; [done |].
    destruct (DoubleRounding.backoff_step _ _ _ IH1 Hcap' IH2 Hm H1) as (? & ? & _).
    done. }
  split; [done |]. split; [done |].
  by destruct (DoubleRounding.backoff_step _ _ _ Hn Hcap' Hncap Hm H1) as (_ & _ & ?).
Qed.

Lemma sleeps_nondecreasing (cfg : RetryConfig) (n : nat) :
  grows cfg → nondecreasing (List.map (delay_seq cfg) (seq 0 n)).
Proof.
  intros Hgrows i a b Ha Hb.
  rewrite list_lookup_fmap in Ha, Hb.
  destruct (seq 0 n !! i) as [x|] eqn:Hx; [| done].
  destruct (seq 0 n !! S i) as [y|] eqn:Hy; [| done].
  apply lookup_seq in Hx as [-> _]. apply lookup_seq in Hy as [-> _].
  simpl in Ha, Hb. injection Ha as <-. injection Hb as <-.
  by apply delay_seq_grows.
Qed.

(** The products are those of doubles: 3 * 9007199254740991 is
    27021597764222973, and the second delay is the double next to it. *)
Lemma delay_is_rounded :
  Double.is_integer
    (Double.to_number (delay_seq (withDefaults Scenario.long_delay) 1))
    27021597764222972.
Proof. vm_compute. reflexivity. Qed.

(** [0 * Infinity] is [NaN], and stays. *)
Lemma delay_is_not_a_number :
  delay_seq (withDefaults Scenario.unbounded_multiplier) 0 = Some (Double.of_Z 0) ∧
  delay_seq (withDefaults Scenario.unbounded_multiplier) 1 = Some Double.NaN ∧
  delay_seq (withDefaults Scenario.unbounded_multiplier) 2 = Some Double.NaN.
Proof. by vm_compute. Qed.

End RetryClaims.


Module RetryTheorems.
Import Retry RetryFacts RetryClaims.

(** C4 (amended). Let [maxRetries] be a whole number [N >= 0] and let the
    wrapped function fail on every attempt, the [onRetry] callback, if
    any, returning normally. Then [retryWithBackoff] settles: it has
    invoked the function exactly [N + 1] times, has slept after each of
    the first [N] failures for [delay_0 = initialDelay],
    [delay_{n+1} = Math.min(delay_n * backoffMultiplier, maxDelay)]
    (products and comparisons of doubles), and rejects with the error of
    the last attempt. No delay after the first is greater than
    [maxDelay], and none at all unless [initialDelay] is. The delays
    never decrease when [0 <= initialDelay <= maxDelay] and
    [1 <= backoffMultiplier], the three of them finite. *)
Theorem retryWithBackoff_attempts_and_delays {W T}
    (sleep : option Double.t → W → W) (fn : W → (T + Thrown) * W)
    (config : PartialRetryConfig)
    (onRetry : option (Z → Error → W → option Thrown * W))
    (N fuel : nat) (w : W) :
  maxRetries_is (withDefaults config) N →
  always_fails fn → returns_normally onRetry →
  (N + 2 ≤ fuel)%nat →
  ∃ r,
    retryWithBackoff sleep fn config onRetry fuel w = Some r ∧
    calls (trace r) = S N ∧
    timeline (trace r) = expected_timeline (withDefaults config) N ∧
    sleeps (trace r) = List.map (delay_seq (withDefaults config)) (seq 0 N) ∧
    (∃ e, last (caught (trace r)) = Some e ∧
          outcome r = inr (Some (ThrownError e))) ∧
    Forall (λ d, exceeds (withDefaults config) d = false) (tail (sleeps (trace r))) ∧
    (exceeds (withDefaults config) (initialDelay (withDefaults config)) = false →
       Forall (λ d, exceeds (withDefaults config) d = false) (sleeps (trace r))) ∧
    (grows (withDefaults config) → nondecreasing (sleeps (trace r))).
Proof.
  intros Hmax Hfn Hcb Hfuel.
  destruct (exhausts sleep fn config onRetry N fuel w Hmax Hfn Hcb Hfuel)
    as (r & Hr & Htl & Hcalls & Hsl & Hlast).
  exists r. repeat split; try done.
  - rewrite Hsl. destruct N as [|N]; [by constructor |].
    simpl. apply later_sleeps_capped.
  - intros Hcap. rewrite Hsl. by apply sleeps_capped.
  - intros Hgrows. rewrite Hsl. by apply sleeps_nondecreasing.
Qed.

Lemma rejecting_always_fails : always_fails Scenario.rejecting.
Proof. intros w. by eexists. Qed.

Lemma no_callback_returns {W} : returns_normally (W := W) None.
Proof. by intros f Hf. Qed.

Lemma noting_returns : returns_normally (Some Scenario.noting).
Proof. intros f [= <-] n e w. reflexivity. Qed.

Lemma default_maxRetries : maxRetries_is (withDefaults Scenario.no_config) 3.
Proof. split; [vm_compute; reflexivity | lia]. Qed.

Lemma two_maxRetries : maxRetries_is (withDefaults Scenario.two_retries) 2.
Proof. split; [vm_compute; reflexivity | lia]. Qed.

Lemma short_cap_maxRetries : maxRetries_is (withDefaults Scenario.short_cap) 3.
Proof. split; [vm_compute; reflexivity | lia]. Qed.

(** With the default configuration: four attempts, and the three delays
    1000, 2000 and 4000. *)
Lemma retryWithBackoff_attempts_and_delays_witness :
  maxRetries_is (withDefaults Scenario.no_config) 3 ∧
  always_fails Scenario.rejecting ∧
  returns_normally (W := nat) None ∧
  ∃ r,
    retryWithBackoff Scenario.no_sleep Scenario.rejecting
      Scenario.no_config None 5 0%nat = Some r ∧
    calls (trace r) = 4%nat ∧
    sleeps (trace r)
      = [Some (Double.of_Z 1000); Some (Double.of_Z 2000); Some (Double.of_Z 4000)] ∧
    Forall (λ d, exceeds DEFAULT_RETRY_CONFIG d = false) (sleeps (trace r)) ∧
    nondecreasing (sleeps (trace r)).
Proof.
  destruct (retryWithBackoff_attempts_and_delays Scenario.no_sleep
              Scenario.rejecting Scenario.no_config None 3 5 0%nat
              default_maxRetries rejecting_always_fails no_callback_returns
              (le_n 5))
    as (r & Hr & Hcalls & _ & Hsl & _ & _ & Hcap & Hgrows).
  split; [exact default_maxRetries |].
  split; [exact rejecting_always_fails |].
  split; [exact no_callback_returns |].
  exists r. split; [exact Hr |]. split; [exact Hcalls |].
  split; [exact Hsl |]. split; [by apply Hcap |].
  apply Hgrows. by repeat split.
Defined.

(** C4, as stated, fails for [{ maxDelay: 500 }]: the multiplier is the
    default 2, yet the delays are 1000, 500, 500: the first is greater
    than [maxDelay] and the sequence decreases. *)
Lemma retryWithBackoff_delay_above_cap :
  always_fails Scenario.rejecting ∧
  Double.leb (Double.of_Z 1)
    (Double.to_number (backoffMultiplier (withDefaults Scenario.short_cap))) = true ∧
  ∃ r,
    retryWithBackoff Scenario.no_sleep Scenario.rejecting
      Scenario.short_cap None 5 0%nat = Some r ∧
    sleeps (trace r)
      = [Some (Double.of_Z 1000); Some (Double.of_Z 500); Some (Double.of_Z 500)] ∧
    ¬ Forall (λ d, exceeds (withDefaults Scenario.short_cap) d = false)
        (sleeps (trace r)) ∧
    ¬ nondecreasing (sleeps (trace r)).
Proof.
  split; [exact rejecting_always_fails |]. split; [vm_compute; reflexivity |].
  eexists. split; [vm_compute; reflexivity |]. cbn [trace].
  split; [vm_compute; reflexivity |]. split.
  - intros H. apply Forall_inv in H. vm_compute in H. discriminate H.
  - intros H. specialize (H 0%nat _ _ eq_refl eq_refl).
    vm_compute in H. discriminate H.
Qed.

(** C5 (amended). [retryWithBackoff] never consults the classifier. With
    [maxRetries] a whole number [N >= 0] and an [onRetry] callback that,
    if given, returns normally, a call whose every error
    [isRetryableError] classifies as permanent is retried like any other:
    [N + 1] attempts, a backoff sleep after each but the last, and then
    the last error, a permanent one, is rethrown. *)
Theorem retryWithBackoff_retries_permanent_errors {W T}
    (sleep : option Double.t → W → W) (fn : W → (T + Thrown) * W)
    (config : PartialRetryConfig)
    (onRetry : option (Z → Error → W → option Thrown * W))
    (N fuel : nat) (w : W) :
  maxRetries_is (withDefaults config) N →
  always_fails fn → returns_normally onRetry →
  (∀ w' t, (fn w').1 = inr t → isRetryableError (toError t) = false) →
  (N + 2 ≤ fuel)%nat →
  ∃ r,
    retryWithBackoff sleep fn config onRetry fuel w = Some r ∧
    calls (trace r) = S N ∧
    length (sleeps (trace r)) = N ∧
    ∃ e, outcome r = inr (Some (ThrownError e)) ∧
         isRetryableError e = false.
Proof.
  intros Hmax Hfn Hcb Hperm Hfuel.
  destruct (exhausts sleep fn config onRetry N fuel w Hmax Hfn Hcb Hfuel)
    as (r & Hr & _ & Hcalls & Hsl & e & Hlast & Hout).
  exists r. split; [done |]. split; [done |]. split.
  - by rewrite Hsl, length_map, length_seq.
  - exists e. split; [done |].
    apply last_Some_elem_of in Hlast.
    unfold retryWithBackoff in Hr.
    eapply RetryLoop.caught_from_fn in Hlast as [Hin | (w' & t & Ht & ->)];
      [| | exact Hr].
    + by apply elem_of_nil in Hin.
    + by eapply Hperm.
Qed.

Lemma rejecting_is_permanent :
  ∀ w' t, (Scenario.rejecting w').1 = inr t → isRetryableError (toError t) = false.
Proof. intros w' t [= <-]. reflexivity. Qed.

(** [unauthorized] is classified permanent, and the call is made three
    times with [maxRetries = 2], the callback being told twice. *)
Lemma retryWithBackoff_retries_permanent_errors_witness :
  maxRetries_is (withDefaults Scenario.two_retries) 2 ∧
  always_fails Scenario.rejecting ∧
  returns_normally (Some Scenario.noting) ∧
  (∀ w' t, (Scenario.rejecting w').1 = inr t → isRetryableError (toError t) = false) ∧
  ∃ r,
    retryWithBackoff Scenario.no_sleep Scenario.rejecting
      Scenario.two_retries (Some Scenario.noting) 4 0%nat = Some r ∧
    calls (trace r) = 3%nat ∧
    length (sleeps (trace r)) = 2%nat.
Proof.
  destruct (retryWithBackoff_retries_permanent_errors Scenario.no_sleep
              Scenario.rejecting Scenario.two_retries (Some Scenario.noting)
              2 4 0%nat
              two_maxRetries rejecting_always_fails noting_returns
              rejecting_is_permanent (le_n 4))
    as (r & Hr & Hcalls & Hsleeps & _).
  split; [exact two_maxRetries |].
  split; [exact rejecting_always_fails |].
  split; [exact noting_returns |].
  split; [exact rejecting_is_permanent |].
  exists r. split; [exact Hr |]. split; [exact Hcalls | exact Hsleeps].
Defined.

(** C5, as stated, fails: the error [unauthorized] is classified permanent,
    yet the call that throws it is attempted three times, with two backoff
    sleeps, under [{ maxRetries: 2 }]. *)
Lemma permanent_error_is_retried :
  isRetryableError Scenario.unauthorized = false ∧
  (∀ n, (Scenario.rejecting n).1 = inr (ThrownError Scenario.unauthorized)) ∧
  ∃ r,
    retryWithBackoff Scenario.no_sleep Scenario.rejecting
      Scenario.two_retries None 4 0%nat = Some r ∧
    calls (trace r) = 3%nat ∧
    length (sleeps (trace r)) = 2%nat.
Proof.
  split; [reflexivity |]. split; [done |].
  eexists. split; [vm_compute; reflexivity |]. by split.
Qed.

End RetryTheorems.


(** ** CircuitBreaker *)

Module BreakerFacts.
Import CircuitBreaker.
Local Open Scope Z_scope.

Section execute.
Context {W T : Type}.
Variable Date_now : W → Z * W.

Lemma attempt_success b (fn : W → (T + Thrown) * W) w v :
  (fn w).1 = inl v →
  attempt Date_now b fn w =
    {| result := inl v; fn_calls := 1;
       breaker := match state b with
                  | half_open => set_failures 0 (set_state closed b)
                  | _ => b
                  end;
       world := (fn w).2 |}.
Proof. unfold attempt. destruct (fn w) as [r w1]. simpl. by intros ->. Qed.

Lemma attempt_failure b (fn : W → (T + Thrown) * W) w e :
  (fn w).1 = inr e →
  attempt Date_now b fn w =
    {| result := inr e; fn_calls := 1;
       breaker :=
         let b1 := set_lastFailureTime (Some (Date_now (fn w).2).1)
                     (set_failures (failures b + 1) b) in
         if failures b + 1 >=? threshold b then set_state open b1 else b1;
       world := (Date_now (fn w).2).2 |}.
Proof.
  unfold attempt. destruct (fn w) as [r w1]. simpl. intros ->.
  by destruct (Date_now w1) as [now w2].
Qed.

Lemma execute_not_open b (fn : W → (T + Thrown) * W) w :
  state b ≠ open → execute Date_now b fn w = attempt Date_now b fn w.
Proof. unfold execute. by destruct (state b). Qed.

Lemma execute_open_rejects b (fn : W → (T + Thrown) * W) w :
  state b = open → timeout_elapsed b (Date_now w).1 = false →
  execute Date_now b fn w =
    {| result := inr (ThrownError open_error); fn_calls := 0;
       breaker := b; world := (Date_now w).2 |}.
Proof.
  unfold execute. intros -> H. destruct (Date_now w) as [now w1].
  simpl in H. by rewrite H.
Qed.

Lemma execute_open_trial b (fn : W → (T + Thrown) * W) w :
  state b = open → timeout_elapsed b (Date_now w).1 = true →
  execute Date_now b fn w =
    attempt Date_now (set_state half_open b) fn (Date_now w).2.
Proof.
  unfold execute. intros -> H. destruct (Date_now w) as [now w1].
  simpl in H. by rewrite H.
Qed.

(** A call that nothing overlaps is its two halves, one after the
    other. *)
Lemma execute_enter_settle b (fn : W → (T + Thrown) * W) w :
  execute Date_now b fn w =
    let '(called, b1, w1) := enter Date_now b w in
    if called then
      {| result := (fn w1).1; fn_calls := 1;
         breaker := (settle Date_now b1 (fn w1).1 (fn w1).2).1;
         world := (settle Date_now b1 (fn w1).1 (fn w1).2).2 |}
    else
      {| result := inr (ThrownError open_error); fn_calls := 0;
         breaker := b1; world := w1 |}.
Proof.
  assert (∀ b' w',
            attempt Date_now b' fn w' =
              {| result := (fn w').1; fn_calls := 1;
                 breaker := (settle Date_now b' (fn w').1 (fn w').2).1;
                 world := (settle Date_now b' (fn w').1 (fn w').2).2 |})
    as Hattempt.
  { intros b' w'. unfold attempt, settle.
    destruct (fn w') as [[v|e] w1]; simpl; [done |].
    by destruct (Date_now w1) as [now w2]. }
  unfold execute, enter. destruct (state b); try apply Hattempt.
  destruct (Date_now w) as [now w1].
  destruct (timeout_elapsed b now); [apply Hattempt | done].
Qed.

Lemma elapsed_false b now t :
  lastFailureTime b = Some t → now - t <= resetTimeout b →
  timeout_elapsed b now = false.
Proof.
  unfold timeout_elapsed. intros -> H.
  apply andb_false_iff. right. rewrite Z.gtb_ltb. apply Z.ltb_ge. lia.
Qed.

Lemma elapsed_true b now t :
  lastFailureTime b = Some t → t ≠ 0 → now - t > resetTimeout b →
  timeout_elapsed b now = true.
Proof.
  unfold timeout_elapsed. intros -> Hnz H.
  apply andb_true_iff. split.
  - by apply negb_true_iff, Z.eqb_neq.
  - rewrite Z.gtb_ltb. apply Z.ltb_lt. lia.
Qed.

Lemma execute_all_app b (fns1 fns2 : list (W → (T + Thrown) * W)) w :
  execute_all Date_now b (fns1 ++ fns2) w =
    let run1 := execute_all Date_now b fns1 w in
    let run2 := execute_all Date_now run1.1.2 fns2 run1.2 in
    (run1.1.1 ++ run2.1.1, run2.1.2, run2.2).
Proof.
  revert b w. induction fns1 as [|fn fns1 IH]; intros b w; simpl.
  - by destruct (execute_all Date_now b fns2 w) as [[rs b'] w'].
  - rewrite IH.
    destruct (execute_all Date_now (breaker (execute Date_now b fn w)) fns1
                (world (execute Date_now b fn w))) as [[rs1 b1] w1].
    simpl.
    by destruct (execute_all Date_now b1 fns2 w1) as [[rs2 b2] w2].
Qed.

(** While fewer calls have failed than the threshold asks for, the
    breaker stays closed and its counter is the number of failed calls,
    successes in between or not. *)
Lemma closed_counts (fns : list (W → (T + Thrown) * W)) :
  ∀ b w,
    state b = closed →
    failures b + failed_calls (execute_all Date_now b fns w).1.1 < threshold b →
    state (execute_all Date_now b fns w).1.2 = closed ∧
    failures (execute_all Date_now b fns w).1.2 =
      failures b + failed_calls (execute_all Date_now b fns w).1.1 ∧
    threshold (execute_all Date_now b fns w).1.2 = threshold b ∧
    all_attempted (execute_all Date_now b fns w).1.1.
Proof.
  induction fns as [|fn fns IH]; intros b w Hclosed Hlt; simpl in *.
  { unfold failed_calls. simpl. repeat split; [done | lia | constructor]. }
  rewrite execute_not_open in * by congruence.
  destruct (fn w).1 as [v|e] eqn:Hres.
  - rewrite (attempt_success _ _ _ _ Hres) in *. rewrite Hclosed in *.
    simpl in *.
    destruct (execute_all Date_now b fns (fn w).2) as [[rs b'] w'] eqn:Hrest.
    unfold failed_calls in *. simpl in *.
    specialize (IH b (fn w).2 Hclosed). rewrite Hrest in IH. simpl in IH.
    destruct (IH Hlt) as (? & ? & ? & ?).
    repeat split; try done. by constructor.
  - rewrite (attempt_failure _ _ _ _ Hres) in *. simpl in *.
    set (b1 := set_lastFailureTime _ _) in *.
    destruct (execute_all Date_now
                (if failures b + 1 >=? threshold b then set_state open b1 else b1)
                fns (Date_now (fn w).2).2) as [[rs b'] w'] eqn:Hrest.
    unfold failed_calls in *. simpl in *.
    assert ((failures b + 1 >=? threshold b) = false) as Hge.
    { rewrite Z.geb_leb. apply Z.leb_gt. lia. }
    rewrite Hge in Hrest.
    specialize (IH b1 (Date_now (fn w).2).2 Hclosed). rewrite Hrest in IH.
    simpl in IH. destruct IH as (? & ? & ? & ?); [lia |].
    repeat split; try done; [lia | by constructor].
Qed.

End execute.
End BreakerFacts.

Module BreakerTheorems.
Import CircuitBreaker BreakerFacts.
Local Open Scope Z_scope.

(** The breaker after three failed calls on a fresh one with threshold 3. *)
Lemma three_failures {W T} (Date_now : W → Z * W) (resetTimeout : Z)
    (f1 f2 f3 : W → (T + Thrown) * W) (w0 : W) :
  Retry.always_fails f1 → Retry.always_fails f2 → Retry.always_fails f3 →
  ∃ t3 rs w3,
    execute_all Date_now (new 3 resetTimeout) [f1; f2; f3] w0 =
      (rs,
       {| failures := 3; lastFailureTime := Some t3; state := open;
          threshold := 3; resetTimeout := resetTimeout |},
       w3) ∧
    all_attempted rs ∧ failed_calls rs = 3.
Proof.
  intros H1 H2 H3. simpl.
  destruct (H1 w0) as [e1 He1].
  rewrite execute_not_open, (attempt_failure _ _ _ _ _ He1) by done. simpl.
  set (w1 := (Date_now (f1 w0).2).2).
  destruct (H2 w1) as [e2 He2].
  rewrite execute_not_open, (attempt_failure _ _ _ _ _ He2) by done. simpl.
  set (w2 := (Date_now (f2 w1).2).2).
  destruct (H3 w2) as [e3 He3].
  rewrite execute_not_open, (attempt_failure _ _ _ _ _ He3) by done. simpl.
  eexists _, _, _. split; [reflexivity |].
  split; [by repeat constructor | done].
Qed.

(** C6 (amended). Calls are made one after the other, each settled
    before the next is made. A fresh breaker with [threshold = 3] is open
    after three failed calls. A fourth call whose clock reading is at most
    [resetTimeout] after the last failure is rejected with the breaker's
    own error and the wrapped function is not invoked. A fourth call later
    than that (the last failure having a non-zero timestamp) invokes the
    function exactly once, as the half-open trial: if it succeeds the
    breaker is closed with counter 0, if it fails the breaker is open
    again, and the window restarts at the time of that failure: a next
    call within [resetTimeout] of it is rejected without an attempt. *)
Theorem breaker_threshold_three {W T} (Date_now : W → Z * W) (resetTimeout : Z)
    (f1 f2 f3 : W → (T + Thrown) * W) (w0 : W) :
  Retry.always_fails f1 → Retry.always_fails f2 → Retry.always_fails f3 →
  ∃ t3,
    state (execute_all Date_now (new 3 resetTimeout) [f1; f2; f3] w0).1.2 = open ∧
    lastFailureTime (execute_all Date_now (new 3 resetTimeout) [f1; f2; f3] w0).1.2
      = Some t3 ∧
    all_attempted (execute_all Date_now (new 3 resetTimeout) [f1; f2; f3] w0).1.1 ∧
    ∀ (f4 : W → (T + Thrown) * W) (w4 : W),
      let b3 := (execute_all Date_now (new 3 resetTimeout) [f1; f2; f3] w0).1.2 in
      let r4 := execute Date_now b3 f4 w4 in
      ((Date_now w4).1 - t3 <= resetTimeout →
         r4 = {| result := inr (ThrownError open_error); fn_calls := 0;
                 breaker := b3; world := (Date_now w4).2 |}) ∧
      (t3 ≠ 0 → (Date_now w4).1 - t3 > resetTimeout →
         fn_calls r4 = 1%nat ∧
         (∀ v, (f4 (Date_now w4).2).1 = inl v →
            result r4 = inl v ∧
            state (breaker r4) = closed ∧ failures (breaker r4) = 0) ∧
         (∀ e, (f4 (Date_now w4).2).1 = inr e →
            result r4 = inr e ∧
            state (breaker r4) = open ∧
            lastFailureTime (breaker r4)
              = Some (Date_now (f4 (Date_now w4).2).2).1 ∧
            ∀ (f5 : W → (T + Thrown) * W) (w5 : W),
              (Date_now w5).1 - (Date_now (f4 (Date_now w4).2).2).1 <= resetTimeout →
              fn_calls (execute Date_now (breaker r4) f5 w5) = 0%nat ∧
              result (execute Date_now (breaker r4) f5 w5)
                = inr (ThrownError open_error))).
Proof.
  intros H1 H2 H3.
  destruct (three_failures Date_now resetTimeout f1 f2 f3 w0 H1 H2 H3)
    as (t3 & rs & w3 & -> & Hatt & _).
  exists t3. cbn [fst snd]. split; [done |]. split; [done |]. split; [done |].
  intros f4 w4.
  set (b3 := {| failures := 3; lastFailureTime := Some t3; state := open;
                threshold := 3; CircuitBreaker.resetTimeout := resetTimeout |}).
  assert (state b3 = open) as Hopen by done.
  assert (lastFailureTime b3 = Some t3) as Hlast by done.
  assert (CircuitBreaker.resetTimeout b3 = resetTimeout) as Hrt by done.
  assert (threshold b3 = 3 ∧ failures b3 = 3) as [Hth Hf] by done.
  clearbody b3. split.
  - intros Hearly. apply execute_open_rejects; [done |].
    apply (elapsed_false _ _ t3); [done | lia].
  - intros Hnz Hlate.
    rewrite execute_open_trial; [| done | apply (elapsed_true _ _ t3); [done .. | lia]].
    set (w4' := (Date_now w4).2).
    destruct (f4 w4').1 as [v|e] eqn:Hres.
    + rewrite (attempt_success _ _ _ _ _ Hres). cbn.
      split; [done |]. split; [| by intros e' [=]].
      by intros v' [= <-].
    + rewrite (attempt_failure _ _ _ _ _ Hres). cbn.
      split; [done |]. split; [by intros v' [=] |].
      intros e' [= <-].
      assert ((failures b3 + 1 >=? threshold b3) = true) as ->.
      { rewrite Hth, Hf. reflexivity. }
      cbn. split; [done |]. split; [done |]. split; [done |].
      intros f5 w5 Hearly.
      destruct (Date_now w5) as [now5 w5'] eqn:Hnow5. cbn in Hearly.
      assert ((now5 - (Date_now (f4 w4').2).1 >? CircuitBreaker.resetTimeout b3)
              = false) as ->.
      { rewrite Z.gtb_ltb. apply Z.ltb_ge. lia. }
      by rewrite andb_false_r.
Qed.

Lemma failing_call_always_fails : Retry.always_fails Scenario.failing_call.
Proof. intros w. by eexists. Qed.

(** Three failures at 1000, 1010 and 1020 ms leave the breaker open with
    the last failure stamped 1030; with a window of 30 s a call at 2000 ms
    is turned away and a call at 40000 ms that succeeds closes the
    breaker. *)
Lemma breaker_threshold_three_witness :
  Retry.always_fails Scenario.failing_call ∧
  state (execute_all Scenario.clock (new 3 30000)
           [Scenario.failing_call; Scenario.failing_call; Scenario.failing_call]
           1000).1.2 = open ∧
  fn_calls (execute Scenario.clock
              (execute_all Scenario.clock (new 3 30000)
                 [Scenario.failing_call; Scenario.failing_call; Scenario.failing_call]
                 1000).1.2
              Scenario.working_call 2000) = 0%nat ∧
  state (breaker (execute Scenario.clock
                    (execute_all Scenario.clock (new 3 30000)
                       [Scenario.failing_call; Scenario.failing_call;
                        Scenario.failing_call] 1000).1.2
                    Scenario.working_call 40000)) = closed.
Proof.
  destruct (breaker_threshold_three Scenario.clock 30000
              Scenario.failing_call Scenario.failing_call Scenario.failing_call
              1000 failing_call_always_fails failing_call_always_fails
              failing_call_always_fails)
    as (t3 & Hopen & Hlast & _ & Hfourth).
  injection Hlast as <-.
  split; [exact failing_call_always_fails |]. split; [exact Hopen |]. split.
  - destruct (Hfourth Scenario.working_call 2000) as [Hreject _].
    rewrite Hreject; [reflexivity | simpl; lia].
  - destruct (Hfourth Scenario.working_call 40000) as [_ Htrial].
    destruct Htrial as (_ & Hsuccess & _); [simpl; lia | simpl; lia |].
    by destruct (Hsuccess () eq_refl) as (_ & Hclosed & _).
Defined.

(** C6, as stated, fails twice over. Three failures leave the breaker
    open, the last one stamped 1030, with a window of 30 s. A call at
    31030, when [resetTimeout] has elapsed to the millisecond, is turned
    away: the test is [now - lastFailureTime > resetTimeout]. And of two
    calls made at 40000, the second entering while the first is still
    awaiting its function, both call their function: the first leaves the
    state [half-open], and only [open] is guarded. *)
Lemma breaker_trial_is_not_exactly_one :
  let b3 := (execute_all Scenario.clock (new 3 30000)
               [Scenario.failing_call; Scenario.failing_call; Scenario.failing_call]
               1000).1.2 in
  state b3 = open ∧
  lastFailureTime b3 = Some 1030 ∧
  31030 - 1030 = CircuitBreaker.resetTimeout b3 ∧
  fn_calls (execute Scenario.clock b3 Scenario.working_call 31030) = 0%nat ∧
  (enter Scenario.clock b3 40000).1.1 = true ∧
  state (enter Scenario.clock b3 40000).1.2 = half_open ∧
  (enter Scenario.clock (enter Scenario.clock b3 40000).1.2 40000).1.1 = true.
Proof. by vm_compute. Qed.

(** C7 (amended). The counter of a closed breaker counts every failed call
    since it was last reset: a successful call in the closed state leaves
    it unchanged. From a fresh breaker, as long as fewer than [threshold]
    calls have failed in total, successes in between or not, the breaker is
    closed and its counter is that total; the failure that makes the total
    reach [threshold] opens it. *)
Theorem breaker_counts_all_failures {W T} (Date_now : W → Z * W)
    (threshold resetTimeout : Z)
    (fns : list (W → (T + Thrown) * W)) (f : W → (T + Thrown) * W) (w : W) :
  failed_calls (execute_all Date_now (new threshold resetTimeout) fns w).1.1
    < threshold →
  (state (execute_all Date_now (new threshold resetTimeout) fns w).1.2 = closed ∧
   failures (execute_all Date_now (new threshold resetTimeout) fns w).1.2
     = failed_calls (execute_all Date_now (new threshold resetTimeout) fns w).1.1 ∧
   all_attempted (execute_all Date_now (new threshold resetTimeout) fns w).1.1) ∧
  (failed_calls (execute_all Date_now (new threshold resetTimeout) fns w).1.1
     = threshold - 1 →
   Retry.always_fails f →
   state (execute_all Date_now (new threshold resetTimeout) (fns ++ [f]) w).1.2
     = open).
Proof.
  intros Hlt.
  destruct (closed_counts Date_now fns (new threshold resetTimeout) w eq_refl)
    as (Hclosed & Hcount & Hth & Hatt); [simpl; lia |].
  simpl in Hcount, Hth. split; [done |].
  intros Hlast Hf. rewrite execute_all_app. cbn [fst snd].
  destruct (execute_all Date_now (new threshold resetTimeout) fns w)
    as [[rs b] w'].
  cbn [fst snd] in *. simpl.
  rewrite execute_not_open by congruence.
  destruct (Hf w') as [e He]. rewrite (attempt_failure _ _ _ _ _ He). simpl.
  assert ((failures b + 1 >=? CircuitBreaker.threshold b) = true) as ->; [| done].
  rewrite Z.geb_leb. apply Z.leb_le. lia.
Qed.

(** Two failures with a success in between, then the third failure. *)
Lemma breaker_counts_all_failures_witness :
  failed_calls (execute_all Scenario.clock (new 3 30000)
                  [Scenario.failing_call; Scenario.working_call;
                   Scenario.failing_call] 1000).1.1 < 3 ∧
  Retry.always_fails Scenario.failing_call ∧
  failures (execute_all Scenario.clock (new 3 30000)
              [Scenario.failing_call; Scenario.working_call;
               Scenario.failing_call] 1000).1.2 = 2 ∧
  state (execute_all Scenario.clock (new 3 30000)
           ([Scenario.failing_call; Scenario.working_call;
             Scenario.failing_call] ++ [Scenario.failing_call]) 1000).1.2 = open.
Proof.
  assert (failed_calls (execute_all Scenario.clock (new 3 30000)
                          [Scenario.failing_call; Scenario.working_call;
                           Scenario.failing_call] 1000).1.1 < 3) as Hlt
    by (vm_compute; reflexivity).
  destruct (breaker_counts_all_failures Scenario.clock 3 30000
              [Scenario.failing_call; Scenario.working_call; Scenario.failing_call]
              Scenario.failing_call 1000 Hlt)
    as ((_ & Hcount & _) & Hopen).
  split; [exact Hlt |]. split; [exact failing_call_always_fails |].
  split; [exact Hcount |].
  apply Hopen; [reflexivity | exact failing_call_always_fails].
Defined.

(** C7, as stated, fails: with [threshold = 3] the calls fail, succeed,
    fail, succeed, fail, so no two failures are consecutive and every call
    reaches the wrapped function, yet the breaker is open at the end. *)
Lemma breaker_opens_without_consecutive_failures :
  List.map (λ r, is_failure (result r))
    (execute_all Scenario.clock (new 3 30000)
       [Scenario.failing_call; Scenario.working_call; Scenario.failing_call;
        Scenario.working_call; Scenario.failing_call] 1000).1.1
    = [true; false; true; false; true] ∧
  List.map fn_calls
    (execute_all Scenario.clock (new 3 30000)
       [Scenario.failing_call; Scenario.working_call; Scenario.failing_call;
        Scenario.working_call; Scenario.failing_call] 1000).1.1
    = [1; 1; 1; 1; 1]%nat ∧
  state (execute_all Scenario.clock (new 3 30000)
           [Scenario.failing_call; Scenario.working_call; Scenario.failing_call;
            Scenario.working_call; Scenario.failing_call] 1000).1.2 = open.
Proof. repeat split. Qed.

End BreakerTheorems.


(** ** The pipeline *)

Module WorkflowFacts.
Import McpClient Nodes Workflow.

Section graph.
Context {W : Type}.
Variable now_iso : M W string.
Variable Date_getTime : string → JS.number.
Variable figmaClient : FigmaMCPClient W.
Variable edsClient : EDSGeneratorMCPClient W.

Local Abbreviation run_node := (run_node now_iso Date_getTime figmaClient edsClient).
Local Abbreviation steps := (steps now_iso Date_getTime figmaClient edsClient).

Lemma steps_unfold fuel resume thread node state checkpoints seen w :
  steps (S fuel) resume thread node state checkpoints seen w =
    match run_node resume node state w with
    | (Interrupted payload, w') =>
        ({| settled := Resolved (Some state); started := seen ++ [node];
            interrupt := Some payload; saver := checkpoints |}, w')
    | (Return update, w') =>
        match route node (Update.merge state update) with
        | END =>
            ({| settled := Resolved (Some (Update.merge state update));
                started := seen ++ [node]; interrupt := None;
                saver := <[thread := Update.merge state update]> checkpoints |}, w')
        | Goto node' =>
            steps fuel resume thread node' (Update.merge state update)
              (<[thread := Update.merge state update]> checkpoints)
              (seen ++ [node]) w'
        end
    end.
Proof.
  simpl. unfold mbind, M_bind.
  destruct (run_node resume node state w) as [[update|payload] w']; [| done].
  by destruct (route node (Update.merge state update)).
Qed.

Lemma steps_goto fuel resume thread node state checkpoints seen w update w' node' :
  run_node resume node state w = (Return update, w') →
  route node (Update.merge state update) = Goto node' →
  steps (S fuel) resume thread node state checkpoints seen w =
    steps fuel resume thread node' (Update.merge state update)
      (<[thread := Update.merge state update]> checkpoints)
      (seen ++ [node]) w'.
Proof. intros Hrun Hroute. by rewrite steps_unfold, Hrun, Hroute. Qed.

Lemma steps_finish fuel resume thread node state checkpoints seen w update w' :
  run_node resume node state w = (Return update, w') →
  route node (Update.merge state update) = END →
  steps (S fuel) resume thread node state checkpoints seen w =
    ({| settled := Resolved (Some (Update.merge state update));
        started := seen ++ [node]; interrupt := None;
        saver := <[thread := Update.merge state update]> checkpoints |}, w').
Proof. intros Hrun Hroute. by rewrite steps_unfold, Hrun, Hroute. Qed.

Lemma steps_interrupted fuel resume thread node state checkpoints seen w payload w' :
  run_node resume node state w = (Interrupted payload, w') →
  steps (S fuel) resume thread node state checkpoints seen w =
    ({| settled := Resolved (Some state); started := seen ++ [node];
        interrupt := Some payload; saver := checkpoints |}, w').
Proof. intros Hrun. by rewrite steps_unfold, Hrun. Qed.

(** A node that returns leaves one of its markers; only [get_screenshot]
    can stop in an interrupt, and never does so with a resume value. *)
Lemma node_marker resume node state w :
  match (run_node resume node state w).1 with
  | Return update =>
      leaves node (WorkflowState.currentStep (Update.merge state update)) = true ∧
      WorkflowState.awaitingUserInput (Update.merge state update)
        = WorkflowState.awaitingUserInput state
  | Interrupted _ => node = get_screenshot ∧ resume = None
  end.
Proof.
  destruct node; unfold Workflow.run_node, initializeWorkflow,
    extractDesignContext, getScreenshot, analyzeBlockStructure,
    generateEdsBlock, validateBlock, completeWorkflow, handleFailure,
    stamp, failed, mbind, M_bind, mret, M_ret;
    repeat case_match; simpl in *; simplify_eq; cbn;
    repeat case_match; done.
Qed.

(** Where the edge out of a node leads, given the marker the node left. *)
Lemma route_after node (state : WorkflowState.t) :
  leaves node (WorkflowState.currentStep state) = true →
  match route node state with
  | END =>
      WorkflowState.currentStep state = COMPLETED ∨
      WorkflowState.currentStep state = FAILED
  | Goto node' =>
      enters node' (WorkflowState.currentStep state) = true ∧
      (distance node' < distance node)%nat
  end.
Proof.
  unfold route.
  destruct node, (WorkflowState.currentStep state); simpl; try done;
    repeat case_decide; simplify_eq; simpl; auto with lia.
Qed.

Lemma steps_end (fuel : nat) :
  ∀ node state checkpoints seen thread w,
    (distance node ≤ fuel)%nat →
    enters node (WorkflowState.currentStep state) = true →
    ends_well state (steps fuel None thread node state checkpoints seen w).1.
Proof.
  induction fuel as [|fuel IH]; intros node state cps seen thread w Hfuel Henter.
  { destruct node; simpl in Hfuel; lia. }
  rewrite steps_unfold.
  pose proof (node_marker None node state w) as Hnode.
  destruct (run_node None node state w) as [[update|payload] w'];
    simpl in Hnode.
  - destruct Hnode as [Hleaves Hawait].
    pose proof (route_after node _ Hleaves) as Hroute.
    destruct (route node (Update.merge state update)) as [node'|].
    + destruct Hroute as [Henter' Hdist].
      destruct (IH node' (Update.merge state update)
                  (<[thread := Update.merge state update]> cps)
                  (seen ++ [node]) thread w') as (s & Hs & Haw & Hend);
        [lia | done |].
      exists s. split; [done |]. split; [congruence | done].
    + exists (Update.merge state update). simpl. by rewrite Hawait.
  - destruct Hnode as [-> _]. exists state. simpl.
    split; [done |]. split; [done |]. split; [| by rewrite last_snoc].
    simpl in Henter.
    destruct (WorkflowState.currentStep state); try done; auto.
Qed.

(** Every run of [runWorkflow] settles with a state. Without interrupt
    its marker is [COMPLETED] or [FAILED]; a run stopped by the interrupt
    of [get_screenshot] keeps the marker [extract_design] left,
    [GETTING_SCREENSHOT] or [ANALYZING]. No run sets [awaitingUserInput],
    and none ends on [AWAITING_USER_INPUT]. *)
Lemma runWorkflow_ends input threadId w :
  ∃ s,
    settled (runWorkflow now_iso Date_getTime figmaClient edsClient
               input threadId w).1 = Resolved (Some s) ∧
    WorkflowState.awaitingUserInput s = None ∧
    WorkflowState.currentStep s ≠ AWAITING_USER_INPUT ∧
    match interrupt (runWorkflow now_iso Date_getTime figmaClient edsClient
                       input threadId w).1 with
    | None =>
        WorkflowState.currentStep s = COMPLETED ∨
        WorkflowState.currentStep s = FAILED
    | Some _ =>
        (WorkflowState.currentStep s = GETTING_SCREENSHOT ∨
         WorkflowState.currentStep s = ANALYZING) ∧
        last (started (runWorkflow now_iso Date_getTime figmaClient edsClient
                         input threadId w).1) = Some get_screenshot
    end.
Proof.
  unfold runWorkflow, runWorkflow_with, mbind, M_bind.
  destruct (now_iso w) as [startTime w0].
  unfold invoke. rewrite lookup_empty.
  destruct (Update.first_state _) as [state0|] eqn:Hfirst; [| done].
  cbv in Hfirst. injection Hfirst as <-.
  match goal with
  | |- context [Workflow.steps _ _ _ _ ?f ?r ?t ?n ?s ?c ?l ?w'] =>
      destruct (steps_end f n s c l t w') as (s' & Hs & Haw & Hend);
        [simpl; unfold recursionLimit; lia | done |]
  end.
  exists s'. split; [exact Hs |]. split; [exact Haw |]. split; [| exact Hend].
  intros Heq. rewrite Heq in Hend.
  destruct (interrupt _); [by destruct Hend as [[?|?] _] | by destruct Hend].
Qed.

End graph.
End WorkflowFacts.


Module NodeFacts.
Import McpClient Nodes Workflow.

Section nodes.
Context {W : Type}.
Variable now_iso : M W string.
Variable Date_getTime : string → JS.number.
Variable figmaClient : FigmaMCPClient W.
Variable edsClient : EDSGeneratorMCPClient W.

Local Abbreviation run_node := (run_node now_iso Date_getTime figmaClient edsClient).
Local Abbreviation generation_call := (generation_call edsClient).
Local Abbreviation validation_call := (validation_call edsClient).

Lemma initialize_with_nodeId resume state w nodeId :
  truthy (WorkflowInput.figmaNodeId (WorkflowState.input state)) = Some nodeId →
  run_node resume initialize state w =
    (Return [Update.currentStep EXTRACTING_DESIGN;
             Update.startTime (now_iso w).1;
             Update.errors []],
     (now_iso w).2).
Proof.
  intros Hid. unfold Workflow.run_node, initializeWorkflow. rewrite Hid.
  unfold mbind, M_bind, mret, M_ret.
  destruct (truthy (WorkflowInput.figmaUrl _)); by destruct (now_iso w).
Qed.

Lemma extract_design_ok resume state w nodeId d :
  truthy (WorkflowInput.figmaNodeId (WorkflowState.input state)) = Some nodeId →
  MCPToolResult.payload (getDesignContext figmaClient nodeId w).1 = Some d →
  run_node resume extract_design state w =
    (Return [Update.designContext d;
             Update.currentStep
               (if input_flag WorkflowOptions.skipScreenshot state
                then ANALYZING else GETTING_SCREENSHOT)],
     (getDesignContext figmaClient nodeId w).2).
Proof.
  intros Hid Hd. unfold Workflow.run_node, extractDesignContext. rewrite Hid.
  unfold mbind, M_bind, mret, M_ret.
  destruct (getDesignContext figmaClient nodeId w) as [result w'].
  simpl in *. by rewrite Hd.
Qed.

Lemma get_screenshot_ok resume state w nodeId p :
  truthy (WorkflowInput.figmaNodeId (WorkflowState.input state)) = Some nodeId →
  MCPToolResult.payload (McpClient.getScreenshot figmaClient nodeId w).1 = Some p →
  run_node resume get_screenshot state w =
    (Return [Update.screenshot p; Update.currentStep ANALYZING],
     (McpClient.getScreenshot figmaClient nodeId w).2).
Proof.
  intros Hid Hp. unfold Workflow.run_node, getScreenshot. rewrite Hid.
  unfold mbind, M_bind, mret, M_ret.
  destruct (McpClient.getScreenshot figmaClient nodeId w) as [result w'].
  simpl in *. by rewrite Hp.
Qed.

Lemma get_screenshot_interrupts state w nodeId :
  truthy (WorkflowInput.figmaNodeId (WorkflowState.input state)) = Some nodeId →
  MCPToolResult.payload (McpClient.getScreenshot figmaClient nodeId w).1 = None →
  run_node None get_screenshot state w =
    (Interrupted
       (capture_failed
          (MCPToolResult.error (McpClient.getScreenshot figmaClient nodeId w).1)
          nodeId),
     (McpClient.getScreenshot figmaClient nodeId w).2).
Proof.
  intros Hid Hp. unfold Workflow.run_node, getScreenshot. rewrite Hid.
  unfold mbind, M_bind, mret, M_ret.
  destruct (McpClient.getScreenshot figmaClient nodeId w) as [result w'].
  simpl in *. by rewrite Hp.
Qed.

Lemma analyze_ok resume state w code a :
  truthy (DesignContext.generatedCode <$> WorkflowState.designContext state)
    = Some code →
  MCPToolResult.payload
    (McpClient.analyzeBlockStructure edsClient code (screenshot_data state)
       (metadata_json state) w).1 = Some a →
  run_node resume analyze state w =
    (Return [Update.analysis
               (BlockAnalysis.with_blockName
                  (WorkflowInput.blockName (WorkflowState.input state)) a);
             Update.currentStep GENERATING],
     (McpClient.analyzeBlockStructure edsClient code (screenshot_data state)
        (metadata_json state) w).2).
Proof.
  intros Hcode Ha. unfold Workflow.run_node, analyzeBlockStructure.
  rewrite Hcode. unfold mbind, M_bind, mret, M_ret.
  destruct (McpClient.analyzeBlockStructure _ _ _ _ _) as [result w'].
  simpl in *. by rewrite Ha.
Qed.

Lemma generate_failure resume state w code :
  truthy (DesignContext.generatedCode <$> WorkflowState.designContext state)
    = Some code →
  MCPToolResult.payload (generation_call state code w).1 = None →
  run_node resume generate state w =
    (Return [Update.currentStep FAILED;
             Update.errors
               (WorkflowState.errors state ++
                [stage_error GENERATING
                   (or_else (MCPToolResult.error (generation_call state code w).1)
                            "Block generation failed")
                   (now_iso (generation_call state code w).2).1
                   true])],
     (now_iso (generation_call state code w).2).2).
Proof.
  intros Hcode Hg. unfold Workflow.run_node, generateEdsBlock.
  rewrite Hcode. unfold mbind, M_bind, mret, M_ret, failed.
  fold (generation_call state code).
  destruct (generation_call state code w) as [result w'].
  simpl in *. rewrite Hg. unfold mbind, M_bind, mret, M_ret.
  by destruct (now_iso w').
Qed.

Lemma generate_ok resume state w code g :
  truthy (DesignContext.generatedCode <$> WorkflowState.designContext state)
    = Some code →
  MCPToolResult.payload (generation_call state code w).1 = Some g →
  run_node resume generate state w =
    (Return [Update.generatedFiles g;
             Update.currentStep
               (if input_flag WorkflowOptions.validateOutput state then VALIDATING
                else if input_flag WorkflowOptions.updateSectionModel state
                     then UPDATING_SECTION_MODEL else COMPLETED)],
     (generation_call state code w).2).
Proof.
  intros Hcode Hg. unfold Workflow.run_node, generateEdsBlock.
  rewrite Hcode. unfold mbind, M_bind, mret, M_ret.
  fold (generation_call state code).
  destruct (generation_call state code w) as [result w'].
  simpl in *. by rewrite Hg.
Qed.

Lemma validate_failure resume state w :
  MCPToolResult.payload (validation_call state w).1 = None →
  run_node resume validate state w =
    (Return [Update.currentStep (after_validation state)],
     (validation_call state w).2).
Proof.
  intros Hv. unfold Workflow.run_node, validateBlock.
  unfold mbind, M_bind, mret, M_ret. fold (validation_call state).
  destruct (validation_call state w) as [result w'].
  simpl in *. by rewrite Hv.
Qed.

Lemma validate_ok resume state w v :
  MCPToolResult.payload (validation_call state w).1 = Some v →
  run_node resume validate state w =
    (Return [Update.validation v; Update.currentStep (after_validation state)],
     (validation_call state w).2).
Proof.
  intros Hv. unfold Workflow.run_node, validateBlock.
  unfold mbind, M_bind, mret, M_ret. fold (validation_call state).
  destruct (validation_call state w) as [result w'].
  simpl in *. by rewrite Hv.
Qed.

Lemma stamp_spec state step w :
  stamp now_iso Date_getTime state step w =
    (Return [Update.currentStep step;
             Update.endTime (now_iso w).1;
             Update.duration
               (JS.number_sub (Date_getTime (now_iso w).1)
                  (Date_getTime (WorkflowState.startTime state)))],
     (now_iso w).2).
Proof.
  unfold stamp, mbind, M_bind, mret, M_ret. by destruct (now_iso w).
Qed.

End nodes.
End NodeFacts.


Module WorkflowTheorems.
Import McpClient Nodes Workflow WorkflowFacts NodeFacts.

(** C1 (code as it is). When the screenshot call fails in the
    [get_screenshot] stage, with a node id present, the stage does not
    return a suspended state: it stops in [interrupt(...)] and returns
    nothing; and whatever value a resumed [interrupt] hands back, the update
    it then returns sets [currentStep] to [ANALYZING] and has no
    [awaitingUserInput] key. *)
Theorem getScreenshot_failure_raises_interrupt {W} (now_iso : M W string)
    (figmaClient : FigmaMCPClient W) (state : WorkflowState.t) (w : W)
    (nodeId : string) :
  truthy (WorkflowInput.figmaNodeId (WorkflowState.input state)) = Some nodeId →
  MCPToolResult.payload (McpClient.getScreenshot figmaClient nodeId w).1 = None →
  (getScreenshot now_iso figmaClient None state w).1 =
    Interrupted
      (capture_failed
         (MCPToolResult.error (McpClient.getScreenshot figmaClient nodeId w).1)
         nodeId) ∧
  ∀ resume update,
    (getScreenshot now_iso figmaClient resume state w).1 = Return update →
    Update.get_currentStep update = Some ANALYZING ∧
    Update.get_awaitingUserInput update = None.
Proof.
  intros Hid Hfail. unfold getScreenshot. rewrite Hid.
  unfold mbind, M_bind, mret, M_ret.
  destruct (McpClient.getScreenshot figmaClient nodeId w) as [result w'].
  simpl in *. rewrite Hfail. split; [done |].
  intros resume update.
  repeat case_match; simpl; intros; simplify_eq; done.
Qed.

(** The run for [{ name: "x", ref: "R1" }] with the screenshot tool
    disabled: the stage raises the interrupt. *)
Lemma getScreenshot_failure_raises_interrupt_witness :
  truthy (WorkflowInput.figmaNodeId (WorkflowState.input Scenario.state_x))
    = Some "R1" ∧
  MCPToolResult.payload
    (McpClient.getScreenshot (Scenario.figma false) "R1" ()).1 = None ∧
  (getScreenshot Scenario.now_iso (Scenario.figma false) None Scenario.state_x ()).1 =
    Interrupted (capture_failed (Some "Tool disabled by user") "R1").
Proof.
  split; [reflexivity |]. split; [reflexivity |].
  exact (proj1 (getScreenshot_failure_raises_interrupt Scenario.now_iso
                  (Scenario.figma false) Scenario.state_x () "R1"
                  eq_refl eq_refl)).
Defined.

(** C3 (code as it is). A run whose design source answers and whose
    screenshot call fails is stopped by the interrupt of [get_screenshot]:
    [runWorkflow] returns the state as [extract_design] left it, with the
    intermediate marker [GETTING_SCREENSHOT] ([ANALYZING] when
    [skipScreenshot] is set) and without [awaitingUserInput]. *)
Theorem interrupted_run_keeps_stage_marker {W} (now_iso : M W string)
    (Date_getTime : string → JS.number)
    (figmaClient : FigmaMCPClient W) (edsClient : EDSGeneratorMCPClient W)
    (input : WorkflowInput.t) (threadId : option string) (w : W)
    (nodeId : string) :
  truthy (WorkflowInput.figmaNodeId input) = Some nodeId →
  Scenario.succeeds (getDesignContext figmaClient nodeId) →
  Scenario.fails (McpClient.getScreenshot figmaClient nodeId) →
  ∃ s,
    settled (runWorkflow now_iso Date_getTime figmaClient edsClient
               input threadId w).1 = Resolved (Some s) ∧
    WorkflowState.currentStep s =
      (if WorkflowInput.option_flag WorkflowOptions.skipScreenshot input
       then ANALYZING else GETTING_SCREENSHOT) ∧
    final_marker (WorkflowState.currentStep s) = false ∧
    WorkflowState.awaitingUserInput s = None ∧
    started (runWorkflow now_iso Date_getTime figmaClient edsClient
               input threadId w).1 = [initialize; extract_design; get_screenshot] ∧
    is_Some (interrupt (runWorkflow now_iso Date_getTime figmaClient edsClient
                          input threadId w).1).
Proof.
  intros Hid Hdesign Hshot.
  unfold runWorkflow, runWorkflow_with, mbind, M_bind.
  destruct (now_iso w) as [startTime w0].
  unfold invoke. rewrite lookup_empty.
  destruct (Update.first_state _) as [state0|] eqn:Hfirst; [| done].
  cbv in Hfirst. injection Hfirst as <-.
  unfold recursionLimit.
  destruct (Hdesign (now_iso w0).2) as [d Hd].
  erewrite steps_goto;
    [| by apply (initialize_with_nodeId _ _ _ _ _ _ _ nodeId) | reflexivity].
  erewrite steps_goto;
    [| by apply (extract_design_ok _ _ _ _ _ _ _ nodeId d)
     | unfold input_flag; simpl; by destruct (WorkflowInput.option_flag _ _)].
  erewrite steps_interrupted;
    [| by apply (get_screenshot_interrupts _ _ _ _ _ _ nodeId)].
  eexists. simpl. split; [reflexivity |].
  unfold input_flag. simpl.
  by destruct (WorkflowInput.option_flag _ _).
Qed.

Lemma ok_succeeds {T} (x : T) : Scenario.succeeds (Scenario.ok x).
Proof. intros w. by eexists. Qed.

Lemma ko_fails {T} (reason : string) : Scenario.fails (Scenario.ko (T := T) reason).
Proof. by intros w. Qed.

(** The run for [{ name: "x", ref: "R1" }] with the screenshot tool
    disabled ends on [GETTING_SCREENSHOT]. *)
Lemma interrupted_run_keeps_stage_marker_witness :
  truthy (WorkflowInput.figmaNodeId Scenario.input_x) = Some "R1" ∧
  Scenario.succeeds (getDesignContext (Scenario.figma false) "R1") ∧
  Scenario.fails (McpClient.getScreenshot (Scenario.figma false) "R1") ∧
  ∃ s,
    settled (Scenario.run false true true) = Resolved (Some s) ∧
    WorkflowState.currentStep s = GETTING_SCREENSHOT ∧
    final_marker (WorkflowState.currentStep s) = false ∧
    WorkflowState.awaitingUserInput s = None.
Proof.
  split; [reflexivity |].
  split; [exact (ok_succeeds Scenario.design) |].
  split; [exact (ko_fails "Tool disabled by user") |].
  destruct (interrupted_run_keeps_stage_marker Scenario.now_iso
              Scenario.Date_getTime (Scenario.figma false)
              (Scenario.eds true true) Scenario.input_x None () "R1" eq_refl
              (ok_succeeds Scenario.design) (ko_fails "Tool disabled by user"))
    as (s & Hs & Hstep & Hmarker & Hawait & _).
  exists s. split; [exact Hs |]. split; [exact Hstep |].
  split; [exact Hmarker | exact Hawait].
Defined.

Lemma truthy_nonempty (s : string) : s ≠ "" → truthy (Some s) = Some s.
Proof. by destruct s. Qed.

(** C8 (amended). In a run whose design source, screenshot and analysis
    calls succeed and whose generation call fails, whatever error it
    reports, the workflow ends in [FAILED] through the [fail] node and its
    error list holds exactly one error, of step [GENERATING], whose
    [retryable] flag is [true]: the stage marks every connector failure
    retryable without classifying it. *)
Theorem generation_failure_is_marked_retryable {W} (now_iso : M W string)
    (Date_getTime : string → JS.number)
    (figmaClient : FigmaMCPClient W) (edsClient : EDSGeneratorMCPClient W)
    (input : WorkflowInput.t) (threadId : option string) (w : W)
    (nodeId : string) :
  truthy (WorkflowInput.figmaNodeId input) = Some nodeId →
  Scenario.delivers_code figmaClient →
  Scenario.succeeds (McpClient.getScreenshot figmaClient nodeId) →
  (∀ code shot meta, Scenario.succeeds
                       (McpClient.analyzeBlockStructure edsClient code shot meta)) →
  (∀ name path code opts, Scenario.fails
                            (McpClient.generateEdsBlock edsClient name path code opts)) →
  ∃ s e,
    settled (runWorkflow now_iso Date_getTime figmaClient edsClient
               input threadId w).1 = Resolved (Some s) ∧
    WorkflowState.currentStep s = FAILED ∧
    WorkflowState.errors s = [e] ∧
    WorkflowError.step e = GENERATING ∧
    WorkflowError.retryable e = true ∧
    started (runWorkflow now_iso Date_getTime figmaClient edsClient
               input threadId w).1 =
      [initialize; extract_design; get_screenshot; analyze; generate; fail].
Proof.
  intros Hid Hdesign Hshot Hanalysis Hgen.
  unfold runWorkflow, runWorkflow_with, mbind, M_bind.
  destruct (now_iso w) as [startTime w0].
  unfold invoke. rewrite lookup_empty.
  destruct (Update.first_state _) as [state0|] eqn:Hfirst; [| done].
  cbv in Hfirst. injection Hfirst as <-.
  unfold recursionLimit.
  erewrite steps_goto;
    [| by apply (initialize_with_nodeId _ _ _ _ _ _ _ nodeId) | reflexivity].
  destruct (Hdesign nodeId (now_iso w0).2) as (d & Hd & Hcode).
  erewrite steps_goto;
    [| by apply (extract_design_ok _ _ _ _ _ _ _ nodeId d)
     | unfold input_flag; simpl; by destruct (WorkflowInput.option_flag _ _)].
  match goal with
  | |- context [Workflow.steps _ _ _ _ _ _ _ get_screenshot _ _ _ ?w'] =>
      destruct (Hshot w') as [p Hp]
  end.
  erewrite steps_goto;
    [| by apply (get_screenshot_ok _ _ _ _ _ _ _ nodeId p) | reflexivity].
  match goal with
  | |- context [Workflow.steps _ _ _ _ _ _ _ analyze ?st _ _ ?w'] =>
      destruct (Hanalysis (DesignContext.generatedCode d) (screenshot_data st)
                  (metadata_json st) w') as [a Ha]
  end.
  erewrite steps_goto;
    [| apply (analyze_ok _ _ _ _ _ _ _ (DesignContext.generatedCode d) a);
       [by apply truthy_nonempty | exact Ha]
     | reflexivity].
  erewrite steps_goto;
    [| apply (generate_failure _ _ _ _ _ _ _ (DesignContext.generatedCode d));
       [by apply truthy_nonempty | apply Hgen]
     | reflexivity].
  erewrite steps_finish; [| apply stamp_spec | reflexivity].
  eexists _, _. simpl. by repeat split.
Qed.

Lemma figma_delivers_code b : Scenario.delivers_code (Scenario.figma b).
Proof. intros nodeId w. by exists Scenario.design. Qed.

(** The run for [{ name: "x", ref: "R1" }] in which generation answers
    [unauthorized]. *)
Lemma generation_failure_is_marked_retryable_witness :
  truthy (WorkflowInput.figmaNodeId Scenario.input_x) = Some "R1" ∧
  Scenario.delivers_code (Scenario.figma true) ∧
  Scenario.succeeds (McpClient.getScreenshot (Scenario.figma true) "R1") ∧
  (∀ code shot meta,
     Scenario.succeeds
       (McpClient.analyzeBlockStructure (Scenario.eds false true) code shot meta)) ∧
  (∀ name path code opts,
     Scenario.fails
       (McpClient.generateEdsBlock (Scenario.eds false true) name path code opts)) ∧
  ∃ s e,
    settled (Scenario.run true false true) = Resolved (Some s) ∧
    WorkflowState.currentStep s = FAILED ∧
    WorkflowState.errors s = [e] ∧
    WorkflowError.retryable e = true.
Proof.
  split; [reflexivity |].
  split; [exact (figma_delivers_code true) |].
  split; [exact (ok_succeeds Scenario.picture) |].
  split; [exact (λ _ _ _, ok_succeeds Scenario.blockAnalysis) |].
  split; [exact (λ _ _ _ _, ko_fails "unauthorized") |].
  destruct (generation_failure_is_marked_retryable Scenario.now_iso
              Scenario.Date_getTime (Scenario.figma true)
              (Scenario.eds false true) Scenario.input_x None () "R1" eq_refl
              (figma_delivers_code true) (ok_succeeds Scenario.picture)
              (λ _ _ _, ok_succeeds Scenario.blockAnalysis)
              (λ _ _ _ _, ko_fails "unauthorized"))
    as (s & e & Hs & Hstep & Herrors & _ & Hretryable & _).
  exists s, e. split; [exact Hs |]. split; [exact Hstep |].
  split; [exact Herrors | exact Hretryable].
Defined.

(** C8, as stated, fails: generation answers [unauthorized], which the
    classifier calls permanent; the run ends in [FAILED] with exactly one
    error, and that error has [retryable = true], not [false]. *)
Lemma unauthorized_generation_error_is_retryable :
  Retry.isRetryableError (new_Error "unauthorized") = false ∧
  ∃ s e,
    settled (Scenario.run true false true) = Resolved (Some s) ∧
    WorkflowState.currentStep s = FAILED ∧
    WorkflowState.errors s = [e] ∧
    WorkflowError.message e = "unauthorized" ∧
    WorkflowError.retryable e = true ∧
    ¬ (∃ e', WorkflowState.errors s = [e'] ∧ WorkflowError.retryable e' = false).
Proof.
  split; [vm_compute; reflexivity |].
  eexists _, _. split; [vm_compute; reflexivity |].
  split; [reflexivity |]. split; [reflexivity |].
  split; [reflexivity |]. split; [reflexivity |].
  intros (e' & [= <-] & Hfalse). discriminate Hfalse.
Qed.

(** C10. When the validation call is unsuccessful, the [validate] stage
    returns an update that writes [currentStep] only, so no error is
    recorded and [validation] stays as it was, and the step it writes is
    [UPDATING_SECTION_MODEL] or [COMPLETED] according to the
    [updateSectionModel] option; the run goes on to [complete] and ends in
    [COMPLETED] with the error list and the validation field untouched. *)
Theorem validation_failure_is_tolerated {W} (now_iso : M W string)
    (Date_getTime : string → JS.number)
    (figmaClient : FigmaMCPClient W) (edsClient : EDSGeneratorMCPClient W)
    (state : WorkflowState.t) (fuel : nat) (thread : string)
    (checkpoints : gmap string WorkflowState.t) (seen : list NodeName) (w : W) :
  (∀ path name strict,
     Scenario.fails (McpClient.validateBlockOutput edsClient path name strict)) →
  (validateBlock edsClient state w).1 =
    Return [Update.currentStep
              (if WorkflowInput.option_flag WorkflowOptions.updateSectionModel
                    (WorkflowState.input state)
               then UPDATING_SECTION_MODEL else COMPLETED)] ∧
  ∃ s,
    settled (steps now_iso Date_getTime figmaClient edsClient (S (S fuel)) None
               thread validate state checkpoints seen w).1 = Resolved (Some s) ∧
    WorkflowState.currentStep s = COMPLETED ∧
    WorkflowState.errors s = WorkflowState.errors state ∧
    WorkflowState.validation s = WorkflowState.validation state ∧
    interrupt (steps now_iso Date_getTime figmaClient edsClient (S (S fuel)) None
                 thread validate state checkpoints seen w).1 = None ∧
    started (steps now_iso Date_getTime figmaClient edsClient (S (S fuel)) None
               thread validate state checkpoints seen w).1
      = seen ++ [validate; complete].
Proof.
  intros Hfail.
  pose proof (validate_failure now_iso Date_getTime figmaClient edsClient
                None state w (Hfail _ _ _ w)) as Hnode.
  split.
  { change (validateBlock edsClient state w)
      with (run_node now_iso Date_getTime figmaClient edsClient None validate state w).
    by rewrite Hnode. }
  assert (route validate
            (Update.merge state [Update.currentStep (after_validation state)])
          = Goto complete) as Hroute.
  { unfold after_validation, input_flag. simpl.
    by destruct (WorkflowInput.option_flag _ _). }
  erewrite steps_goto; [| exact Hnode | exact Hroute].
  erewrite steps_finish; [| apply stamp_spec | reflexivity].
  eexists. simpl. rewrite <- app_assoc. by repeat split.
Qed.

Lemma validation_ko_fails generation_works :
  ∀ path name strict,
    Scenario.fails
      (McpClient.validateBlockOutput (Scenario.eds generation_works false)
         path name strict).
Proof. intros path name strict w. reflexivity. Qed.

(** With the validator unreachable, the steps from [validate] on reach
    [COMPLETED] without an error. *)
Lemma validation_failure_is_tolerated_witness :
  (∀ path name strict,
     Scenario.fails
       (McpClient.validateBlockOutput (Scenario.eds true false) path name strict)) ∧
  ∃ s,
    settled (steps Scenario.now_iso Scenario.Date_getTime (Scenario.figma true)
               (Scenario.eds true false) 2 None "default" validate
               Scenario.state_x ∅ [] ()).1 = Resolved (Some s) ∧
    WorkflowState.currentStep s = COMPLETED ∧
    WorkflowState.errors s = [] ∧
    WorkflowState.validation s = None.
Proof.
  split; [exact (validation_ko_fails true) |].
  destruct (validation_failure_is_tolerated Scenario.now_iso
              Scenario.Date_getTime (Scenario.figma true) (Scenario.eds true false)
              Scenario.state_x 0 "default" ∅ [] () (validation_ko_fails true))
    as (_ & s & Hs & Hstep & Herrors & Hvalidation & _).
  exists s. split; [exact Hs |]. split; [exact Hstep |].
  split; [exact Herrors | exact Hvalidation].
Defined.

(** The whole run for [{ name: "x", ref: "R1" }] with the validator
    unreachable: all seven nodes, [COMPLETED], no error, no validation. *)
Lemma run_with_failed_validation_completes :
  ∃ s,
    settled (Scenario.run true true false) = Resolved (Some s) ∧
    WorkflowState.currentStep s = COMPLETED ∧
    WorkflowState.errors s = [] ∧
    WorkflowState.validation s = None ∧
    started (Scenario.run true true false) =
      [initialize; extract_design; get_screenshot; analyze; generate;
       validate; complete].
Proof.
  eexists. split; [vm_compute; reflexivity |].
  split; [reflexivity |]. split; [reflexivity |]. split; [reflexivity |].
  vm_compute. reflexivity.
Qed.

End WorkflowTheorems.


(** ** JSON and the state store *)

Module JSONFacts.
Import JS.

Lemma reread_Some v j : stringify v = Some j → parse j = v → reread v = Some v.
Proof. unfold reread. intros -> Hparse. simpl. by rewrite Hparse. Qed.







End JSONFacts.


(** ** The file system *)

Module FsFacts.
Import Fs.

(** A file put where no directory was does not change the way through
    the directories. *)
Lemma walk_insert_file entries (place : list string) (data : JS.json)
    (components : list string) :
  entries !! place ≠ Some Directory →
  ∀ dir r,
    walk entries dir components = inl r →
    walk (<[place := File data]> entries) dir components = inl r.
Proof.
  intros Hplace. induction components as [|c rest IH]; intros dir r; [done |].
  simpl. destruct (stays c); [apply IH |].
  destruct (String.eqb c ".."); [apply IH |].
  destruct (entries !! (dir ++ [c])) as [[content|]|] eqn:Hc; try done.
  intros Hwalk. rewrite lookup_insert_ne by (by intros ->).
  rewrite Hc. by apply IH.
Qed.

(** Nor does the removal of a file. *)
Lemma walk_delete_file entries (place : list string) (components : list string) :
  entries !! place ≠ Some Directory →
  ∀ dir r,
    walk entries dir components = inl r →
    walk (delete place entries) dir components = inl r.
Proof.
  intros Hplace. induction components as [|c rest IH]; intros dir r; [done |].
  simpl. destruct (stays c); [apply IH |].
  destruct (String.eqb c ".."); [apply IH |].
  destruct (entries !! (dir ++ [c])) as [[content|]|] eqn:Hc; try done.
  intros Hwalk. rewrite lookup_delete_ne by (by intros ->).
  rewrite Hc. by apply IH.
Qed.

Lemma resolve_same_walk (disk disk' : t) (path : string) (found : target) :
  cwd disk' = cwd disk →
  (∀ dir r, walk (entries disk) dir (removelast (Path.split path)) = inl r →
            walk (entries disk') dir (removelast (Path.split path)) = inl r) →
  resolve disk path = inl found → resolve disk' path = inl found.
Proof.
  intros Hcwd Hwalk. unfold resolve, start. rewrite Hcwd.
  destruct (String.eqb path ""); [done |].
  destruct (walk (entries disk) _ _) as [dir|e] eqn:Hdir; [| done].
  by rewrite (Hwalk _ _ Hdir).
Qed.

(** What is written is what is read. *)
Lemma read_after_write (path : string) (data : JS.json) (disk disk' : t) :
  writeFile path data disk = inl disk' → readFile path disk' = inl data.
Proof.
  unfold writeFile, readFile.
  destruct (resolve disk path) as [[dir|dir name]|e] eqn:Hresolve; try done.
  destruct (entries disk !! (dir ++ [name])) as [[content|]|] eqn:Hentry;
    try done; intros [= <-].
  all: erewrite resolve_same_walk; [| | | exact Hresolve]; simpl;
    [ by rewrite lookup_insert_eq
    | done
    | intros; apply walk_insert_file; [by rewrite Hentry | done] ].
Qed.

(** A file that was written can be removed, once. *)
Lemma unlink_after_write (path : string) (data : JS.json) (disk disk' : t) :
  writeFile path data disk = inl disk' →
  ∃ disk'',
    unlink path disk' = inl disk'' ∧
    readFile path disk'' = inr ENOENT ∧
    unlink path disk'' = inr ENOENT.
Proof.
  unfold writeFile.
  destruct (resolve disk path) as [[dir|dir name]|e] eqn:Hresolve; try done.
  intros Hwrite.
  assert (entries disk !! (dir ++ [name]) ≠ Some Directory ∧
          disk' = {| cwd := cwd disk;
                     entries := <[dir ++ [name] := File data]> (entries disk) |})
    as [Hentry ->].
  { destruct (entries disk !! (dir ++ [name])) as [[content|]|]; try done.
    all: by injection Hwrite as <-. }
  assert (resolve
            {| cwd := cwd disk;
               entries := <[dir ++ [name] := File data]> (entries disk) |} path
          = inl (Entry dir name)) as Hresolve'.
  { apply (resolve_same_walk disk); [done | | done].
    intros. by apply walk_insert_file. }
  eexists. unfold unlink at 1. rewrite Hresolve'. simpl.
  rewrite lookup_insert_eq. split; [reflexivity |].
  assert (resolve
            {| cwd := cwd disk;
               entries := delete (dir ++ [name])
                            (<[dir ++ [name] := File data]> (entries disk)) |} path
          = inl (Entry dir name)) as Hresolve''.
  { eapply resolve_same_walk; [| | exact Hresolve']; [done |].
    intros. apply walk_delete_file; [| done]. simpl. by rewrite lookup_insert_eq. }
  unfold readFile, unlink. rewrite Hresolve''. simpl.
  by rewrite lookup_delete_eq.
Qed.

End FsFacts.

Module PersistenceTheorems.
Import JS JSONFacts.



Lemma options_representable o : representable (WorkflowOptions.to_js o) = true.
Proof. done. Qed.












(** [path.join] normalises what it joins. *)
Lemma join_examples :
  Path.join "./.tmp/block-builder-states" "s.json"
    = ".tmp/block-builder-states/s.json" ∧
  Path.join "./.tmp/block-builder-states" "sub/s.json"
    = ".tmp/block-builder-states/sub/s.json" ∧
  Path.join "./.tmp/block-builder-states" "." = ".tmp/block-builder-states" ∧
  Path.join "/var/states" "../s.json" = "/var/s.json" ∧
  Path.join "states/" "a//b/" = "states/a/b/" ∧
  Path.join ".." "../s.json" = "../../s.json" ∧
  Path.join "" "" = ".".
Proof. by vm_compute. Qed.

Lemma or_else_given (filename fallback : string) :
  filename ≠ "" → or_else (Some filename) fallback = filename.
Proof. by destruct filename. Qed.

(** A save that resolved wrote the text of the state at the path it
    returns, the file name joined to the state directory. *)
Lemma saveState_resolved (config : Persistence.PersistenceConfig) (now : string)
    (state : WorkflowState.t) (filename : string) (disk disk' : Fs.t)
    (path : string) :
  filename ≠ "" →
  Persistence.saveState config now state (Some filename) disk = (inl path, disk') →
  path = Path.join (Persistence.stateDir config) filename ∧
  ∃ text disk1,
    stringify (WorkflowState.to_js state) = Some text ∧
    Fs.mkdir_recursive (Persistence.stateDir config) disk = (None, disk1) ∧
    Fs.writeFile path text disk1 = inl disk'.
Proof.
  intros Hname. unfold Persistence.saveState.
  rewrite or_else_given by done.
  destruct (Fs.mkdir_recursive _ disk) as [[e|] disk1]; [done |].
  destruct (stringify (WorkflowState.to_js state)) as [text|]; [| done].
  destruct (Fs.writeFile _ text disk1) as [disk2|e] eqn:Hwrite; [| done].
  intros [= <- <-]. split; [done |]. by exists text, disk1.
Qed.




(** A file name with a directory part is rejected when that directory
    does not exist, and so is one that names a directory. *)
Lemma saveState_rejects :
  (Persistence.saveState Persistence.DEFAULT_PERSISTENCE_CONFIG Scenario.instant
     Scenario.state_x (Some "sub/s.json") Fs.empty).1 = inr Fs.ENOENT ∧
  (Persistence.saveState Persistence.DEFAULT_PERSISTENCE_CONFIG Scenario.instant
     Scenario.state_x (Some ".") Fs.empty).1 = inr Fs.EISDIR.
Proof. split; vm_compute; reflexivity. Qed.

(** The path [saveState] returns is relative when [stateDir] is, as it is
    by default, and [loadState] joins it to [stateDir] once more: the file
    just written is not found under the returned path. *)
Lemma returned_path_is_resolved_twice :
  ∃ disk',
    Persistence.saveState Persistence.DEFAULT_PERSISTENCE_CONFIG Scenario.instant
      Scenario.state_x (Some "s.json") Fs.empty
      = (inl ".tmp/block-builder-states/s.json", disk') ∧
    Persistence.loadState Persistence.DEFAULT_PERSISTENCE_CONFIG
      ".tmp/block-builder-states/s.json" disk' = inr Fs.ENOENT.
Proof.
  eexists. split; [vm_compute; reflexivity |]. vm_compute. reflexivity.
Qed.

End PersistenceTheorems.


(** * Further properties *)

(** ** retry.ts *)

Module RetryExtraTheorems.
Import Retry RetryFacts RetryExtra.

Section any_call.
Context {W T : Type}.
Variable sleep : option Double.t → W → W.
Variable fn : W → (T + Thrown) * W.
Variable onRetry : option (Z → Error → W → option Thrown * W).
Variable cfg : RetryConfig.

(** Without [0 <= maxRetries] the function is never called. *)
Lemma loop_without_attempt fuel w :
  attempt_le 0 (maxRetries cfg) = false →
  retry_loop sleep fn onRetry cfg (S fuel) 0 (initialDelay cfg) None [] w =
    Some {| outcome := inr None; trace := []; world := w |}.
Proof. intros H. by rewrite RetryLoop.retry_loop_done. Qed.

Variable N : nat.
Hypothesis Hmax : maxRetries_is cfg N.

Lemma loop_counts (iters : nat) :
  ∀ attempt delay lastError tr w fuel,
    (attempt + iters = S N)%nat →
    (iters < fuel)%nat →
    ∃ r (c : nat),
      retry_loop sleep fn onRetry cfg fuel (Z.of_nat attempt) delay
        lastError tr w = Some r ∧
      (c ≤ iters)%nat ∧ (iters ≠ 0 → 1 ≤ c)%nat ∧
      calls (trace r) = (calls tr + c)%nat ∧
      length (sleeps (trace r)) = (length (sleeps tr) + (c - 1))%nat.
Proof.
  induction iters as [|i IH]; intros attempt delay lastError tr w fuel Hsum Hfuel.
  { destruct fuel as [|fuel]; [lia |].
    rewrite RetryLoop.retry_loop_done
      by (rewrite (attempt_le_count cfg N Hmax); apply Nat.leb_gt; lia).
    eexists _, 0%nat. split; [reflexivity |]. simpl.
    repeat split; first [lia | done]. }
  destruct fuel as [|fuel]; [lia |]. simpl.
  rewrite (attempt_le_count cfg N Hmax).
  assert ((attempt <=? N)%nat = true) as -> by (apply Nat.leb_le; lia).
  destruct (fn w) as [[v|t] w1].
  { eexists _, 1%nat. split; [reflexivity |]. simpl.
    rewrite calls_app, sleeps_app, length_app.
    change (calls [Call]) with 1%nat. simpl. repeat split; lia. }
  assert (∀ mid, calls mid = 0%nat → sleeps mid = [] →
            calls ((tr ++ [Call; Caught (toError t)]) ++ mid) = (calls tr + 1)%nat ∧
            length (sleeps ((tr ++ [Call; Caught (toError t)]) ++ mid))
              = length (sleeps tr)) as Hone.
  { intros mid Hc Hs. rewrite !calls_app, !sleeps_app, !length_app, Hc, Hs.
    change (calls [Call; Caught (toError t)]) with 1%nat.
    simpl. lia. }
  pose proof (Hone [] eq_refl eq_refl) as Hnil. rewrite app_nil_r in Hnil.
  pose proof (Hone [OnRetry (next (Z.of_nat attempt)) (toError t)]
                eq_refl eq_refl) as Hcb.
  clear Hone. destruct Hnil as [Hnil1 Hnil2]. destruct Hcb as [Hcb1 Hcb2].
  rewrite (attempt_lt_count cfg N Hmax).
  destruct (attempt <? N)%nat eqn:Hlt.
  - apply Nat.ltb_lt in Hlt.
    assert (i ≠ 0)%nat as Hi by lia.
    assert (∀ tr2 w2,
              calls tr2 = (calls tr + 1)%nat →
              length (sleeps tr2) = length (sleeps tr) →
              ∃ r (c : nat),
                retry_loop sleep fn onRetry cfg fuel (next (Z.of_nat attempt))
                  (next_delay cfg delay) (Some (toError t))
                  (tr2 ++ [Sleep delay]) w2 = Some r ∧
                (c ≤ S i)%nat ∧ (S i ≠ 0 → 1 ≤ c)%nat ∧
                calls (trace r) = (calls tr + c)%nat ∧
                length (sleeps (trace r)) = (length (sleeps tr) + (c - 1))%nat)
      as Hstep.
    { intros tr2 w2 Hc2 Hs2.
      rewrite (next_count cfg N Hmax) by lia.
      destruct (IH (S attempt) (next_delay cfg delay) (Some (toError t))
                  (tr2 ++ [Sleep delay]) w2 fuel)
        as (r & c & Hr & Hle & Hge & Hc & Hs); [lia | lia |].
      exists r, (S c). split; [exact Hr |].
      rewrite Hc, Hs, calls_app, sleeps_app, length_app, Hc2, Hs2.
      change (calls [Sleep delay]) with 0%nat.
      change (length (sleeps [Sleep delay])) with 1%nat.
      specialize (Hge Hi). repeat split; lia. }
    destruct onRetry as [f|].
    + destruct (f (next (Z.of_nat attempt)) (toError t) w1) as [[t'|] w2].
      * eexists _, 1%nat. split; [reflexivity |]. simpl.
        rewrite Hcb1, Hcb2. repeat split; lia.
      * by apply Hstep.
    + by apply Hstep.
  - apply Nat.ltb_ge in Hlt. assert (i = 0)%nat as -> by lia.
    destruct fuel as [|fuel]; [lia |].
    rewrite (next_count cfg N Hmax) by lia.
    rewrite RetryLoop.retry_loop_done
      by (rewrite (attempt_le_count cfg N Hmax); apply Nat.leb_gt; lia).
    eexists _, 1%nat. split; [reflexivity |]. simpl.
    rewrite Hnil1, Hnil2. repeat split; lia.
Qed.
End any_call.

(** [retryWithBackoff(fn, { maxRetries: -1 })], and the same with [NaN]
    and with [undefined]: no call of [fn], and a rejection with
    [undefined], the initial value of [lastError]. *)
Lemma retryWithBackoff_without_attempt {W T} (sleep : option Double.t → W → W)
    (fn : W → (T + Thrown) * W) (config : PartialRetryConfig)
    (onRetry : option (Z → Error → W → option Thrown * W)) (fuel : nat) (w : W) :
  attempt_le 0 (maxRetries (withDefaults config)) = false →
  retryWithBackoff sleep fn config onRetry (S fuel) w =
    Some {| outcome := inr None; trace := []; world := w |}.
Proof. intros H. by apply loop_without_attempt. Qed.

Lemma no_attempt_examples :
  attempt_le 0 (maxRetries (withDefaults (only (Some (Double.of_Z (-1)))))) = false ∧
  attempt_le 0 (maxRetries (withDefaults (only (Some Double.NaN)))) = false ∧
  attempt_le 0 (maxRetries (withDefaults (only None))) = false.
Proof. by vm_compute. Qed.

(** X1. When [maxRetries] is a whole number [N >= 0], whatever the
    wrapped function and the callback do, [retryWithBackoff] settles
    after calling the function at least once and at most [N + 1] times,
    and it sleeps exactly once between two consecutive calls, never
    before the first nor after the last. *)
Theorem retryWithBackoff_bounded {W T} (sleep : option Double.t → W → W)
    (fn : W → (T + Thrown) * W) (config : PartialRetryConfig)
    (onRetry : option (Z → Error → W → option Thrown * W))
    (N fuel : nat) (w : W) :
  maxRetries_is (withDefaults config) N →
  (N + 2 ≤ fuel)%nat →
  ∃ r,
    retryWithBackoff sleep fn config onRetry fuel w = Some r ∧
    (1 ≤ calls (trace r))%nat ∧
    (calls (trace r) ≤ S N)%nat ∧
    S (length (sleeps (trace r))) = calls (trace r).
Proof.
  intros Hmax Hfuel. unfold retryWithBackoff. cbv zeta.
  destruct (loop_counts sleep fn onRetry (withDefaults config) N Hmax
              (S N) 0%nat (initialDelay (withDefaults config)) None [] w fuel)
    as (r & c & Hr & Hle & Hge & Hc & Hs); [done | lia |].
  exists r. split; [exact Hr |]. rewrite Hc, Hs. specialize (Hge ltac:(done)).
  change (calls []) with 0%nat. change (length (sleeps [])) with 0%nat. lia.
Qed.

(** A call that answers at its third attempt, under the default
    configuration. *)
Lemma retryWithBackoff_bounded_witness :
  maxRetries_is (withDefaults Scenario.no_config) 3 ∧
  ∃ r,
    retryWithBackoff Scenario.no_sleep (flaky 2 Scenario.unauthorized "done")
      Scenario.no_config (Some Scenario.noting) 5 0%nat = Some r ∧
    (1 ≤ calls (trace r))%nat ∧
    (calls (trace r) ≤ 4)%nat ∧
    S (length (sleeps (trace r))) = calls (trace r).
Proof.
  split; [exact RetryTheorems.default_maxRetries |].
  exact (retryWithBackoff_bounded Scenario.no_sleep
           (flaky 2 Scenario.unauthorized "done") Scenario.no_config
           (Some Scenario.noting) 3 5 0%nat
           RetryTheorems.default_maxRetries (le_n 5)).
Defined.




Lemma retries_app (a b : list Event) : retries (a ++ b) = retries a ++ retries b.
Proof. apply omap_app. Qed.

Section notified.
Context {W T : Type}.
Variable sleep : option Double.t → W → W.
Variable fn : W → (T + Thrown) * W.
Variable f : Z → Error → W → option Thrown * W.
Variable cfg : RetryConfig.
Variable N : nat.
Hypothesis Hmax : maxRetries_is cfg N.
Hypothesis Hfn : always_fails fn.
Hypothesis Hcb : returns_normally (Some f).

Lemma loop_notifies (iters : nat) :
  ∀ attempt delay lastError tr w fuel,
    (attempt + iters = S N)%nat →
    (iters < fuel)%nat →
    ∃ r new,
      retry_loop sleep fn (Some f) cfg fuel (Z.of_nat attempt) delay
        lastError tr w = Some r ∧
      caught (trace r) = caught tr ++ new ∧
      retries (trace r)
        = retries tr ++ zip (Z.of_nat <$> seq (S attempt) (iters - 1)) new.
Proof.
  induction iters as [|i IH]; intros attempt delay lastError tr w fuel Hsum Hfuel.
  { destruct fuel as [|fuel]; [lia |].
    rewrite RetryLoop.retry_loop_done
      by (rewrite (attempt_le_count cfg N Hmax); apply Nat.leb_gt; lia).
    eexists _, []. split; [reflexivity |]. simpl. by rewrite !app_nil_r. }
  destruct fuel as [|fuel]; [lia |]. simpl.
  rewrite (attempt_le_count cfg N Hmax).
  assert ((attempt <=? N)%nat = true) as -> by (apply Nat.leb_le; lia).
  destruct (Hfn w) as [t Ht]. destruct (fn w) as [res w1].
  simpl in Ht. subst res.
  rewrite (attempt_lt_count cfg N Hmax).
  rewrite (next_count cfg N Hmax) by lia.
  destruct (attempt <? N)%nat eqn:Hlt.
  - apply Nat.ltb_lt in Hlt.
    pose proof (Hcb f eq_refl (Z.of_nat (S attempt)) (toError t) w1) as Hret.
    destruct (f (Z.of_nat (S attempt)) (toError t) w1) as [res w2].
    simpl in Hret. subst res.
    match goal with
    | |- context [retry_loop _ _ _ _ _ _ ?d ?l ?tr' ?w'] =>
        destruct (IH (S attempt) d l tr' w' fuel)
          as (r & new & Hr & Hcaught & Hretries); [lia | lia |]
    end.
    exists r, (toError t :: new). split; [exact Hr |].
    rewrite Hcaught, Hretries.
    rewrite !caught_app, !retries_app. simpl. rewrite !app_nil_r, Nat.sub_0_r.
    rewrite <- !app_assoc. split; [done |].
    destruct i as [|i]; [lia |]. simpl. by rewrite Nat.sub_0_r.
  - apply Nat.ltb_ge in Hlt. assert (i = 0)%nat as -> by lia.
    destruct fuel as [|fuel]; [lia |].
    rewrite RetryLoop.retry_loop_done
      by (rewrite (attempt_le_count cfg N Hmax); apply Nat.leb_gt; lia).
    eexists _, [toError t]. split; [reflexivity |]. simpl.
    rewrite caught_app, retries_app. simpl.
    by rewrite !app_nil_r.
Qed.
End notified.

(** X3. When [maxRetries] is a whole number [N >= 0] and every attempt
    fails, the [onRetry] callback is notified once after each attempt but
    the last, in order, with the attempt numbers [1 .. N] and the error
    that attempt threw. *)
Theorem onRetry_is_notified_in_order {W T} (sleep : option Double.t → W → W)
    (fn : W → (T + Thrown) * W) (config : PartialRetryConfig)
    (f : Z → Error → W → option Thrown * W) (N fuel : nat) (w : W) :
  maxRetries_is (withDefaults config) N →
  always_fails fn → returns_normally (Some f) →
  (N + 2 ≤ fuel)%nat →
  ∃ r,
    retryWithBackoff sleep fn config (Some f) fuel w = Some r ∧
    retries (trace r) = zip (Z.of_nat <$> seq 1 N) (caught (trace r)).
Proof.
  intros Hmax Hfn Hcb Hfuel. unfold retryWithBackoff. cbv zeta.
  destruct (loop_notifies sleep fn f (withDefaults config) N Hmax Hfn Hcb
              (S N) 0%nat (initialDelay (withDefaults config)) None [] w fuel)
    as (r & new & Hr & Hcaught & Hretries); [done | lia |].
  exists r. split; [exact Hr |]. rewrite Hcaught, Hretries.
  simpl. by rewrite Nat.sub_0_r.
Qed.

(** Three retries of a call that always fails: notifications 1, 2, 3. *)
Lemma onRetry_is_notified_in_order_witness :
  maxRetries_is (withDefaults Scenario.no_config) 3 ∧
  always_fails Scenario.rejecting ∧
  returns_normally (Some Scenario.noting) ∧
  ∃ r,
    retryWithBackoff Scenario.no_sleep Scenario.rejecting
      Scenario.no_config (Some Scenario.noting) 5 0%nat = Some r ∧
    List.map fst (retries (trace r)) = [1; 2; 3]%Z.
Proof.
  split; [exact RetryTheorems.default_maxRetries |].
  split; [exact RetryTheorems.rejecting_always_fails |].
  split; [exact RetryTheorems.noting_returns |].
  destruct (onRetry_is_notified_in_order Scenario.no_sleep Scenario.rejecting
              Scenario.no_config Scenario.noting 3 5 0%nat
              RetryTheorems.default_maxRetries
              RetryTheorems.rejecting_always_fails RetryTheorems.noting_returns
              (le_n 5)) as (r & Hr & Hretries).
  exists r. split; [exact Hr |]. rewrite Hretries.
  vm_compute in Hr. injection Hr as <-. reflexivity.
Defined.

(** X4. An exception thrown by the [onRetry] callback ends the retrying at
    once: with [0 < maxRetries] and a function that fails, the function
    is called once, no sleep is made, and [retryWithBackoff] rejects with
    the very value the callback threw instead of the function's error. *)
Theorem throwing_callback_stops_retrying {W T} (sleep : option Double.t → W → W)
    (fn : W → (T + Thrown) * W) (config : PartialRetryConfig)
    (f : Z → Error → W → option Thrown * W) (fuel : nat) (w : W) :
  always_fails fn → always_throws f →
  attempt_lt 0 (maxRetries (withDefaults config)) = true →
  ∃ r t t',
    retryWithBackoff sleep fn config (Some f) (S fuel) w = Some r ∧
    calls (trace r) = 1%nat ∧
    sleeps (trace r) = [] ∧
    (fn w).1 = inr t ∧
    (f 1%Z (toError t) (fn w).2).1 = Some t' ∧
    outcome r = inr (Some t').
Proof.
  intros Hfn Hf Hn.
  destruct (Hfn w) as [t Ht]. destruct (fn w) as [res w1] eqn:Hcall.
  simpl in Ht. subst res.
  destruct (Hf 1%Z (toError t) w1) as [t' Ht'].
  destruct (f 1%Z (toError t) w1) as [res w2] eqn:Hcb. simpl in Ht'. subst res.
  exists {| outcome := inr (Some t');
            trace := [Call; Caught (toError t); OnRetry 1 (toError t)];
            world := w2 |}, t, t'.
  split; [| simpl; by rewrite Hcb].
  unfold retryWithBackoff. cbv zeta. cbn [retry_loop].
  assert (attempt_le 0 (maxRetries (withDefaults config)) = true) as ->
    by apply DoubleFacts.ltb_leb, Hn.
  rewrite Hcall, Hn.
  change (next 0) with 1%Z. by rewrite Hcb.
Qed.

Lemma rethrowing_always_throws : always_throws rethrowing.
Proof. intros n e w. by eexists. Qed.

(** The callback throws a string, and that string is what the caller
    gets. *)
Lemma throwing_callback_stops_retrying_witness :
  always_fails Scenario.rejecting ∧
  always_throws rethrowing ∧
  attempt_lt 0 (maxRetries (withDefaults Scenario.no_config)) = true ∧
  ∃ r,
    retryWithBackoff Scenario.no_sleep Scenario.rejecting
      Scenario.no_config (Some rethrowing) 1 0%nat = Some r ∧
    calls (trace r) = 1%nat ∧
    outcome r = inr (Some (ThrownValue "gave up: unauthorized")).
Proof.
  split; [exact RetryTheorems.rejecting_always_fails |].
  split; [exact rethrowing_always_throws |]. split; [reflexivity |].
  destruct (throwing_callback_stops_retrying Scenario.no_sleep
              Scenario.rejecting Scenario.no_config rethrowing 0 0%nat
              RetryTheorems.rejecting_always_fails
              rethrowing_always_throws eq_refl)
    as (r & t & t' & Hr & Hcalls & _ & Ht & Ht' & Hout).
  exists r. split; [exact Hr |]. split; [exact Hcalls |].
  rewrite Hout. injection Ht as <-. injection Ht' as <-. reflexivity.
Defined.

(** *** The classifier *)

Lemma prefix_ci_app pat s after :
  Pattern.prefix_ci pat s = true → Pattern.prefix_ci pat (s +:+ after) = true.
Proof.
  revert s. induction pat as [|p pat IH]; intros s; [done |].
  destruct s as [|c s]; [done |]. simpl.
  intros [-> H]%andb_true_iff. simpl. by apply IH.
Qed.

Lemma test_app_r pat s after :
  Pattern.test pat s = true → Pattern.test pat (s +:+ after) = true.
Proof.
  induction s as [|c s IH]; simpl.
  - rewrite orb_false_r. intros H. destruct pat; [| done].
    by destruct after.
  - intros [H|H]%orb_true_iff.
    + apply orb_true_iff. left. by apply (prefix_ci_app pat (String c s)).
    + apply orb_true_iff. right. by apply IH.
Qed.

Lemma test_app_l pat before s :
  Pattern.test pat s = true → Pattern.test pat (before +:+ s) = true.
Proof.
  intros H. induction before as [|c before IH]; [done |].
  simpl. rewrite IH. apply orb_true_r.
Qed.

(** X5. The classifier looks for its patterns anywhere in the message: an
    error that is retryable stays retryable when text is put before and
    after its message. *)
Theorem isRetryableError_embedded (before after : string) (error : Error) :
  isRetryableError error = true →
  isRetryableError (embed_message before after error) = true.
Proof.
  unfold isRetryableError. rewrite !existsb_exists.
  intros (pat & Hin & Hpat). exists pat. split; [done |].
  apply orb_true_iff in Hpat as [Hpat|Hpat]; apply orb_true_iff; [left | by right].
  simpl. by apply test_app_l, test_app_r.
Qed.

Lemma isRetryableError_embedded_witness :
  isRetryableError (new_Error "ETIMEDOUT") = true ∧
  isRetryableError
    (embed_message "connect " " 10.0.0.1:443" (new_Error "ETIMEDOUT")) = true.
Proof.
  split; [reflexivity |].
  exact (isRetryableError_embedded "connect " " 10.0.0.1:443"
           (new_Error "ETIMEDOUT") eq_refl).
Defined.

Lemma fold_case_upper (c : ascii) : Pattern.fold_case (upper c) = Pattern.fold_case c.
Proof. by destruct c as [[] [] [] [] [] [] [] []]. Qed.

Lemma prefix_ci_upper pat s :
  Pattern.prefix_ci pat (upper_ascii_letters s) = Pattern.prefix_ci pat s.
Proof.
  revert s. induction pat as [|p pat IH]; intros s; [done |].
  destruct s as [|c s]; [done |]. simpl.
  unfold Pattern.char_eq_ci. by rewrite fold_case_upper, IH.
Qed.

Lemma test_upper pat s : Pattern.test pat (upper_ascii_letters s) = Pattern.test pat s.
Proof.
  induction s as [|c s IH]; [done |].
  change (upper_ascii_letters (String c s)) with (String (upper c) (upper_ascii_letters s)).
  cbn [Pattern.test]. rewrite IH.
  change (String (upper c) (upper_ascii_letters s)) with (upper_ascii_letters (String c s)).
  by rewrite prefix_ci_upper.
Qed.

(** X6. The classifier ignores the case of the letters [a-z]: an error
    and the same error with these letters of its name and message
    replaced by [A-Z] are classified alike. *)
Theorem isRetryableError_ignores_case (error : Error) :
  isRetryableError {| err_name := upper_ascii_letters (err_name error);
                      err_message := upper_ascii_letters (err_message error) |}
    = isRetryableError error.
Proof.
  unfold isRetryableError. cbn [err_name err_message].
  generalize retryablePatterns. intros pats.
  induction pats as [|pat pats IH]; [done |].
  cbn [existsb]. by rewrite !test_upper, IH.
Qed.

End RetryExtraTheorems.


(** ** retry.ts: CircuitBreaker *)

Module BreakerExtraTheorems.
Import CircuitBreaker BreakerFacts BreakerExtra.
Local Open Scope Z_scope.

Section calls.
Context {W T : Type}.
Variable Date_now : W → Z * W.

Lemma attempt_calls_once b (fn : W → (T + Thrown) * W) w :
  fn_calls (attempt Date_now b fn w) = 1%nat.
Proof.
  unfold attempt. destruct (fn w) as [[v|e] w1]; [done |].
  by destruct (Date_now w1).
Qed.

Lemma execute_keeps_consistent th rt b (fn : W → (T + Thrown) * W) w :
  0 < th → consistent th rt b →
  consistent th rt (breaker (execute Date_now b fn w)) ∧
  (fn_calls (execute Date_now b fn w) ≤ 1)%nat.
Proof.
  intros Hth (Ht & Hr & Hpos & Hstate).
  destruct Hstate as [[Hclosed Hlt] | (Hopen & Hge & Hlast)].
  - rewrite execute_not_open by congruence.
    split; [| by rewrite attempt_calls_once].
    destruct (fn w).1 as [v|e] eqn:Hres.
    + rewrite (attempt_success _ _ _ _ _ Hres), Hclosed. simpl.
      repeat split; try done. by left.
    + rewrite (attempt_failure _ _ _ _ _ Hres). cbv zeta.
      destruct (failures b + 1 >=? threshold b) eqn:Hcmp;
        rewrite Z.geb_leb in Hcmp;
        [apply Z.leb_le in Hcmp | apply Z.leb_gt in Hcmp];
        destruct b; unfold consistent; simpl in *; subst;
        (split; [done |]); (split; [done |]); (split; [lia |]).
      * right. repeat split; [lia | done].
      * left. split; [done | lia].
  - destruct (timeout_elapsed b (Date_now w).1) eqn:Hel.
    + rewrite execute_open_trial by done.
      split; [| by rewrite attempt_calls_once].
      destruct (fn (Date_now w).2).1 as [v|e] eqn:Hres.
      * rewrite (attempt_success _ _ _ _ _ Hres).
        destruct b; unfold consistent; simpl in *; subst.
        repeat split; try done. left. split; [done | lia].
      * rewrite (attempt_failure _ _ _ _ _ Hres). cbv zeta.
        assert ((failures (set_state half_open b) + 1
                 >=? threshold (set_state half_open b)) = true) as ->.
        { rewrite Z.geb_leb. apply Z.leb_le.
          destruct b; simpl in *. lia. }
        destruct b; unfold consistent; simpl in *; subst.
        (split; [done |]); (split; [done |]); (split; [lia |]).
        right. repeat split; [lia | done].
    + rewrite execute_open_rejects by done. simpl.
      split; [| lia]. repeat split; try done. right. by repeat split.
Qed.

Lemma execute_all_keeps_consistent th rt (fns : list (W → (T + Thrown) * W)) :
  ∀ b w, 0 < th → consistent th rt b →
    consistent th rt (execute_all Date_now b fns w).1.2 ∧
    Forall (λ r, (fn_calls r ≤ 1)%nat) (execute_all Date_now b fns w).1.1.
Proof.
  induction fns as [|fn fns IH]; intros b w Hth Hb; simpl; [by split |].
  destruct (execute_keeps_consistent th rt b fn w Hth Hb) as [Hb' Hcalls].
  specialize (IH _ (world (execute Date_now b fn w)) Hth Hb').
  destruct (execute_all Date_now (breaker (execute Date_now b fn w)) fns
              (world (execute Date_now b fn w))) as [[rs b''] w''].
  simpl in *. destruct IH as [IH1 IH2]. split; [done | by constructor].
Qed.
End calls.

(** X7. After any sequence of calls on a fresh breaker with a positive
    threshold, whatever the calls and the clock do: the breaker is closed
    with fewer failures counted than the threshold, or open with at least
    as many and the time of the last failure recorded; it is never left
    half-open; threshold and timeout are the ones it was made with; and no
    call has invoked the wrapped function more than once. *)
Theorem breaker_stays_consistent {W T} (Date_now : W → Z * W)
    (threshold resetTimeout : Z)
    (fns : list (W → (T + Thrown) * W)) (w : W) :
  0 < threshold →
  consistent threshold resetTimeout
    (execute_all Date_now (new threshold resetTimeout) fns w).1.2 ∧
  state (execute_all Date_now (new threshold resetTimeout) fns w).1.2 ≠ half_open ∧
  Forall (λ r, (fn_calls r ≤ 1)%nat)
    (execute_all Date_now (new threshold resetTimeout) fns w).1.1.
Proof.
  intros Hth.
  destruct (execute_all_keeps_consistent Date_now threshold resetTimeout fns
              (new threshold resetTimeout) w Hth) as [Hinv Hcalls].
  { repeat split; simpl; try done. left. by split. }
  split; [done |]. split; [| done].
  destruct Hinv as (_ & _ & _ & [[-> _] | [-> _]]); done.
Qed.

Lemma breaker_stays_consistent_witness :
  0 < 3 ∧
  consistent 3 30000
    (execute_all Scenario.clock (new 3 30000)
       [Scenario.failing_call; Scenario.working_call; Scenario.failing_call;
        Scenario.failing_call; Scenario.working_call] 1000).1.2.
Proof.
  split; [lia |].
  exact (proj1 (breaker_stays_consistent Scenario.clock 3 30000
                  [Scenario.failing_call; Scenario.working_call;
                   Scenario.failing_call; Scenario.failing_call;
                   Scenario.working_call] 1000 ltac:(lia))).
Defined.

(** X8. While the clock stays within [resetTimeout] of the last failure,
    an open breaker turns every call away without invoking it and is not
    changed by doing so: rejected calls neither count as failures nor move
    the window. *)
Theorem rejections_leave_breaker_alone {W T} (Date_now : W → Z * W)
    (b : t) (last : Z) (fns : list (W → (T + Thrown) * W)) (w : W) :
  state b = open → lastFailureTime b = Some last →
  (∀ w', (Date_now w').1 - last <= resetTimeout b) →
  (execute_all Date_now b fns w).1.2 = b ∧
  Forall (λ r, fn_calls r = 0%nat ∧ result r = inr (ThrownError open_error))
    (execute_all Date_now b fns w).1.1.
Proof.
  intros Hopen Hlast Hclock. revert w.
  induction fns as [|fn fns IH]; intros w; simpl; [by split |].
  rewrite execute_open_rejects;
    [| done | by apply (elapsed_false _ _ last)].
  simpl. specialize (IH (Date_now w).2).
  destruct (execute_all Date_now b fns (Date_now w).2) as [[rs b'] w'].
  simpl in *. destruct IH as [-> IH]. split; [done | by constructor].
Qed.

Lemma rejections_leave_breaker_alone_witness :
  state (mk 3 (Some 1000) open 3 30000) = open ∧
  lastFailureTime (mk 3 (Some 1000) open 3 30000) = Some 1000 ∧
  (∀ w', (frozen 2000 w').1 - 1000 <= resetTimeout (mk 3 (Some 1000) open 3 30000)) ∧
  (execute_all (frozen 2000) (mk 3 (Some 1000) open 3 30000)
     [working_now; working_now] ()).1.2 = mk 3 (Some 1000) open 3 30000.
Proof.
  assert (∀ w', (frozen 2000 w').1 - 1000
                <= resetTimeout (mk 3 (Some 1000) open 3 30000)) as Hclock
    by (intros w'; simpl; lia).
  split; [reflexivity |]. split; [reflexivity |]. split; [exact Hclock |].
  exact (proj1 (rejections_leave_breaker_alone (frozen 2000)
                  (mk 3 (Some 1000) open 3 30000) 1000
                  [working_now; working_now] () eq_refl eq_refl Hclock)).
Defined.

(** X9. Successful calls never open a breaker, whatever its threshold, zero
    or negative included: after any number of them a fresh breaker is
    closed with counter 0, and each call was made. *)
Theorem successes_never_open {W T} (Date_now : W → Z * W)
    (threshold resetTimeout : Z)
    (fns : list (W → (T + Thrown) * W)) (w : W) :
  Forall always_succeeds fns →
  (execute_all Date_now (new threshold resetTimeout) fns w).1.2
    = new threshold resetTimeout ∧
  all_attempted (execute_all Date_now (new threshold resetTimeout) fns w).1.1 ∧
  failed_calls (execute_all Date_now (new threshold resetTimeout) fns w).1.1 = 0.
Proof.
  intros Hfns. revert w.
  induction Hfns as [|fn fns Hfn _ IH]; intros w; simpl.
  { split; [done |]. split; [constructor | done]. }
  rewrite execute_not_open by done.
  destruct (Hfn w) as [v Hv]. rewrite (attempt_success _ _ _ _ _ Hv). simpl.
  specialize (IH (fn w).2).
  destruct (execute_all Date_now (new threshold resetTimeout) fns (fn w).2)
    as [[rs b'] w'].
  simpl in *. destruct IH as (-> & Hatt & Hfailed).
  split; [done |]. split; [by constructor |].
  unfold failed_calls in *. simpl. done.
Qed.

Lemma working_call_always_succeeds : always_succeeds Scenario.working_call.
Proof. intros w. by eexists. Qed.

Lemma successes_never_open_witness :
  Forall always_succeeds [Scenario.working_call; Scenario.working_call] ∧
  (execute_all Scenario.clock (new 0 30000)
     [Scenario.working_call; Scenario.working_call] 1000).1.2 = new 0 30000.
Proof.
  assert (Forall always_succeeds [Scenario.working_call; Scenario.working_call])
    as H by (repeat constructor; exact working_call_always_succeeds).
  split; [exact H |].
  exact (proj1 (successes_never_open Scenario.clock 0 30000
                  [Scenario.working_call; Scenario.working_call] 1000 H)).
Defined.

End BreakerExtraTheorems.


(** ** workflow.ts and nodes.ts *)

Module WorkflowExtraFacts.
Import McpClient Nodes Workflow WorkflowFacts WorkflowExtra.

Section graph.
Context {W : Type}.
Variable now_iso : M W string.
Variable Date_getTime : string → JS.number.
Variable figmaClient : FigmaMCPClient W.
Variable edsClient : EDSGeneratorMCPClient W.

Local Abbreviation run_node := (run_node now_iso Date_getTime figmaClient edsClient).
Local Abbreviation steps := (steps now_iso Date_getTime figmaClient edsClient).

(** What a node leaves in [errors], [endTime] and [duration]. *)
Lemma node_account resume node state w :
  match (run_node resume node state w).1 with
  | Return update =>
      let s' := Update.merge state update in
      (node = fail ∨ WorkflowState.currentStep s' ≠ FAILED →
         WorkflowState.errors s' = WorkflowState.errors state) ∧
      (node ≠ fail → WorkflowState.currentStep s' = FAILED →
         ∃ e, WorkflowError.step e = stage_of node ∧
              WorkflowState.errors s' =
                WorkflowState.errors state ++ WorkflowState.errors state ++ [e]) ∧
      (node = complete ∨ node = fail →
         is_Some (WorkflowState.endTime s') ∧
         is_Some (WorkflowState.duration s'))
  | Interrupted _ => True
  end.
Proof.
  destruct node; unfold Workflow.run_node, initializeWorkflow,
    extractDesignContext, getScreenshot, analyzeBlockStructure,
    generateEdsBlock, validateBlock, completeWorkflow, handleFailure,
    stamp, failed, mbind, M_bind, mret, M_ret;
    repeat case_match; simpl in *; simplify_eq; cbn;
    repeat case_match;
    repeat split; intros; simplify_eq; rewrite ?app_nil_r;
    try done; try (by destruct_or!); try (by eexists; split; [| reflexivity]);
    by eauto.
Qed.

Local Ltac pick :=
  first [reflexivity | left; reflexivity | right; pick].

(** Following an edge extends a way through the graph. *)
Lemma tails_cons node (state : WorkflowState.t) node' p :
  leaves node (WorkflowState.currentStep state) = true →
  route node state = Goto node' →
  p ∈ tails node' →
  node :: p ∈ tails node ∧ node ≠ fail ∧
  (node' = fail ↔ WorkflowState.currentStep state = FAILED).
Proof.
  unfold route.
  destruct node, (WorkflowState.currentStep state); simpl; try done;
    repeat case_decide; simplify_eq; intros _ [= <-]; simpl;
    rewrite !elem_of_cons, ?elem_of_nil; intros Hp;
    (split; [destruct_or!; try done; subst p; pick |]);
    (split; [done |]); done.
Qed.

Lemma route_end node (state : WorkflowState.t) :
  leaves node (WorkflowState.currentStep state) = true →
  route node state = END →
  (node = complete ∧ WorkflowState.currentStep state = COMPLETED) ∨
  (node = fail ∧ WorkflowState.currentStep state = FAILED).
Proof.
  unfold route.
  destruct node, (WorkflowState.currentStep state); simpl; try done;
    repeat case_decide; simplify_eq; auto.
Qed.

Lemma steps_account (fuel : nat) :
  ∀ node state checkpoints seen thread w,
    (distance node ≤ fuel)%nat →
    enters node (WorkflowState.currentStep state) = true →
    accounted node state seen
      (steps fuel None thread node state checkpoints seen w).1.
Proof.
  induction fuel as [|fuel IH]; intros node state cps seen thread w Hfuel Henter.
  { destruct node; simpl in Hfuel; lia. }
  rewrite steps_unfold.
  pose proof (node_marker now_iso Date_getTime figmaClient edsClient
                None node state w) as Hmarker.
  pose proof (node_account None node state w) as Hnode.
  destruct (run_node None node state w) as [[update|payload] w'];
    simpl in Hmarker, Hnode.
  - destruct Hmarker as [Hleaves _].
    destruct Hnode as (Hsame & Hfailed & Hstamp).
    pose proof (route_after node _ Hleaves) as Hroute.
    destruct (route node (Update.merge state update)) as [node'|] eqn:Hedge.
    + destruct Hroute as [Henter' Hdist].
      destruct (IH node' (Update.merge state update)
                  (<[thread := Update.merge state update]> cps)
                  (seen ++ [node]) thread w')
        as (s & p & Hs & Hstarted & Hp & Hend); [lia | done |].
      destruct (tails_cons node _ node' p Hleaves Hedge Hp)
        as (Hpath & Hnotfail & Hfail).
      assert (last (node :: p) = last p) as Hlast.
      { destruct p as [|n p]; [| done].
        destruct node'; simpl in Hp;
          rewrite ?elem_of_cons, ?elem_of_nil in Hp; destruct_or!; done. }
      exists s, (node :: p). split; [done |].
      split; [by rewrite Hstarted, <- app_assoc |]. split; [done |].
      rewrite Hlast.
      destruct (interrupt _) as [payload|].
      * destruct Hend as [Hget Herrors]. split; [done |].
        rewrite Herrors. apply Hsame. right. intros Hstep.
        apply Hfail in Hstep. subst node'. simpl in Hp.
        rewrite list_elem_of_singleton in Hp. by subst p.
      * destruct Hend as (Hend1 & Hend2 & Hend).
        split; [done |]. split; [done |].
        destruct Hend as [(Hl & Hstep & Herrors)
                         | (Hl & Hstep & [[-> Herrors]
                                         | (e & stage & pre & -> & He & Herrors)])].
        -- left. split; [done |]. split; [done |].
           rewrite Herrors. apply Hsame. right. intros Hfailed'.
           apply Hfail in Hfailed'. subst node'. simpl in Hp.
           rewrite list_elem_of_singleton in Hp. by subst p.
        -- right. split; [done |]. split; [done |]. right.
           simpl in Hp. rewrite list_elem_of_singleton in Hp. subst p.
           destruct (Hfailed Hnotfail (proj1 Hfail eq_refl)) as (e & He & Herr).
           exists e, node, []. split; [done |]. split; [done |].
           by rewrite Herrors.
        -- right. split; [done |]. split; [done |]. right.
           exists e, stage, (node :: pre). split; [done |]. split; [done |].
           rewrite Herrors.
           assert (node' ≠ fail) as Hnot.
           { intros ->. simpl in Hp. rewrite list_elem_of_singleton in Hp.
             destruct pre as [|? [|? ?]]; simplify_eq. }
           assert (WorkflowState.errors (Update.merge state update)
                   = WorkflowState.errors state) as ->; [| done].
           apply Hsame. right. intros Hstep'. by apply Hfail in Hstep'.
    + destruct (route_end node _ Hleaves Hedge) as [[-> Hstep] | [-> Hstep]].
      * exists (Update.merge state update), [complete]. simpl.
        split; [done |]. split; [done |].
        split; [by apply list_elem_of_singleton |].
        destruct Hstamp as [? ?]; [by left |].
        split; [done |]. split; [done |]. left.
        split; [done |]. split; [done |]. apply Hsame. right. by rewrite Hstep.
      * exists (Update.merge state update), [fail]. simpl.
        split; [done |]. split; [done |].
        split; [by apply list_elem_of_singleton |].
        destruct Hstamp as [? ?]; [by right |].
        split; [done |]. split; [done |]. right.
        split; [done |]. split; [done |]. left. split; [done |].
        apply Hsame. by left.
  - destruct Hmarker as [-> _]. exists state, [get_screenshot]. simpl.
    split; [done |]. split; [done |]. split; [| done].
    rewrite !elem_of_cons. by left.
Qed.


(** The checkpoint of the thread follows the state; the other threads
    are not written. *)
Lemma steps_saver (fuel : nat) :
  ∀ resume node state checkpoints seen thread w,
    checkpoints !! thread = Some state →
    (∀ s, settled (steps fuel resume thread node state checkpoints seen w).1
            = Resolved (Some s) →
          saver (steps fuel resume thread node state checkpoints seen w).1
            !! thread = Some s) ∧
    (∀ other, other ≠ thread →
       saver (steps fuel resume thread node state checkpoints seen w).1
         !! other = checkpoints !! other).
Proof.
  induction fuel as [|fuel IH]; intros resume node state cps seen thread w Hcp.
  { by split. }
  rewrite steps_unfold.
  destruct (run_node resume node state w) as [[update|payload] w'].
  - destruct (route node (Update.merge state update)) as [node'|].
    + destruct (IH resume node' (Update.merge state update)
                  (<[thread := Update.merge state update]> cps)
                  (seen ++ [node]) thread w') as [IH1 IH2].
      { by rewrite lookup_insert_eq. }
      split; [done |]. intros other Hother.
      rewrite IH2 by done. by rewrite lookup_insert_ne.
    + simpl. split.
      * intros s [= <-]. by rewrite lookup_insert_eq.
      * intros other Hother. by rewrite lookup_insert_ne.
  - simpl. split; [| done]. by intros s [= <-].
Qed.

(** No node but [initialize] writes [input], and [initialize] only
    fills in what the URL gives when the node id is missing. *)
Lemma node_request resume node state w :
  match (run_node resume node state w).1 with
  | Return update =>
      same_request (WorkflowState.input state)
        (WorkflowState.input (Update.merge state update))
  | Interrupted _ => True
  end.
Proof.
  destruct node; unfold Workflow.run_node, initializeWorkflow,
    extractDesignContext, getScreenshot, analyzeBlockStructure,
    generateEdsBlock, validateBlock, completeWorkflow, handleFailure,
    stamp, failed, mbind, M_bind, mret, M_ret;
    repeat case_match; simpl in *; simplify_eq; cbn;
    repeat case_match; unfold same_request; simpl;
    repeat split; try done; intros [? ?]; simplify_eq.
Qed.

Lemma same_request_trans a b c :
  same_request a b → same_request b c → same_request a c.
Proof.
  intros (H1 & H2 & H3 & H4 & H5) (H1' & H2' & H3' & H4' & H5').
  repeat split; try congruence.
  intros Hid. specialize (H5 Hid). subst b. by apply H5'.
Qed.

Lemma steps_request (fuel : nat) :
  ∀ resume node state checkpoints seen thread w s,
    settled (steps fuel resume thread node state checkpoints seen w).1
      = Resolved (Some s) →
    same_request (WorkflowState.input state) (WorkflowState.input s).
Proof.
  induction fuel as [|fuel IH]; intros resume node state cps seen thread w s;
    [done |].
  rewrite steps_unfold.
  pose proof (node_request resume node state w) as Hnode.
  destruct (run_node resume node state w) as [[update|payload] w'];
    simpl in Hnode.
  - destruct (route node (Update.merge state update)) as [node'|].
    + intros Hs. apply IH in Hs. by eapply same_request_trans.
    + by intros [= <-].
  - intros [= <-]. by repeat split.
Qed.

(** Where [runWorkflow] starts from. *)
Lemma runWorkflow_with_start checkpoints input threadId w :
  ∃ state0,
    runWorkflow_with now_iso Date_getTime figmaClient edsClient
      checkpoints input threadId w =
    steps recursionLimit None (default "default" threadId) initialize state0
      (<[default "default" threadId := state0]> checkpoints) [] (now_iso w).2 ∧
    WorkflowState.input state0 = input ∧
    WorkflowState.currentStep state0 = INITIALIZED ∧
    WorkflowState.startTime state0 = (now_iso w).1 ∧
    WorkflowState.errors state0 = errors_before checkpoints threadId.
Proof.
  unfold runWorkflow_with, mbind, M_bind, errors_before.
  destruct (now_iso w) as [startTime w0]. unfold invoke.
  destruct (checkpoints !! default "default" threadId) as [values|].
  - eexists. split; [reflexivity |]. simpl. by rewrite app_nil_r.
  - eexists. split; [reflexivity |]. by simpl.
Qed.

End graph.
End WorkflowExtraFacts.

Module WorkflowExtraTheorems.
Import McpClient Nodes Workflow WorkflowFacts WorkflowExtra WorkflowExtraFacts.

Local Ltac start_run now_iso Date_getTime figmaClient edsClient
    checkpoints input threadId w :=
  destruct (runWorkflow_with_start now_iso Date_getTime figmaClient edsClient
              checkpoints input threadId w)
    as (state0 & -> & Hinput & Hstep0 & Hstart & Herrors0).

(** X10. Whatever the thread already holds, a run of [runWorkflow]
    that returns a state (the connectors answer with data of their
    declared types, so that no node throws) has taken one of five ways
    through the graph: all seven nodes, ending in [COMPLETED]; up to
    [extract_design], [analyze] or [generate] and then [fail], ending in
    [FAILED]; or up to [get_screenshot], where it is interrupted. No
    option makes it leave out [get_screenshot] or [validate] on the way
    to [complete]. *)
Theorem runWorkflow_takes_one_of_five_ways {W} (now_iso : M W string)
    (Date_getTime : string → JS.number)
    (figmaClient : FigmaMCPClient W) (edsClient : EDSGeneratorMCPClient W)
    (checkpoints : gmap string WorkflowState.t)
    (input : WorkflowInput.t) (threadId : option string) (w : W)
    (s : WorkflowState.t) :
  settled (runWorkflow_with now_iso Date_getTime figmaClient edsClient
             checkpoints input threadId w).1 = Resolved (Some s) →
  match interrupt (runWorkflow_with now_iso Date_getTime figmaClient edsClient
                     checkpoints input threadId w).1 with
  | Some _ =>
      started (runWorkflow_with now_iso Date_getTime figmaClient edsClient
                 checkpoints input threadId w).1 = interrupted_run
  | None =>
      (started (runWorkflow_with now_iso Date_getTime figmaClient edsClient
                  checkpoints input threadId w).1 = whole_pipeline ∧
       WorkflowState.currentStep s = COMPLETED) ∨
      (started (runWorkflow_with now_iso Date_getTime figmaClient edsClient
                  checkpoints input threadId w).1 ∈ failing_runs ∧
       WorkflowState.currentStep s = FAILED)
  end.
Proof.
  start_run now_iso Date_getTime figmaClient edsClient checkpoints input threadId w.
  match goal with
  | |- context [Workflow.steps _ _ _ _ ?f ?r ?t ?n ?st ?c ?l ?w'] =>
      destruct (steps_account now_iso Date_getTime figmaClient edsClient
                  f n st c l t w') as (s' & p & Hs & Hstarted & Hp & Hend);
        [simpl; unfold recursionLimit; lia | done |]
  end.
  rewrite Hs. intros [= <-]. rewrite Hstarted. simpl app.
  simpl in Hp. rewrite !elem_of_cons, elem_of_nil in Hp.
  destruct (interrupt _) as [payload|].
  - destruct Hend as [Hlast _].
    destruct_or!; subst p; simpl in Hlast; simplify_eq; done.
  - destruct Hend as (_ & _ & [(Hlast & Hstep & _) | (Hlast & Hstep & _)]).
    + left. split; [| done].
      destruct_or!; subst p; simpl in Hlast; simplify_eq; done.
    + right. split; [| done]. unfold failing_runs.
      rewrite !elem_of_cons.
      destruct_or!; subst p; simpl in Hlast; simplify_eq; auto.
Qed.

(** The run for [{ name: "x", ref: "R1" }] with every tool answering
    goes through all seven nodes. *)
Lemma runWorkflow_takes_one_of_five_ways_witness :
  ∃ s,
    settled (Scenario.run true true true) = Resolved (Some s) ∧
    started (Scenario.run true true true) = whole_pipeline ∧
    WorkflowState.currentStep s = COMPLETED.
Proof.
  destruct (settled (Scenario.run true true true)) as [[s|]|reason] eqn:Hs;
    [| by vm_compute in Hs | by vm_compute in Hs].
  exists s. split; [reflexivity |].
  pose proof (runWorkflow_takes_one_of_five_ways Scenario.now_iso
                Scenario.Date_getTime (Scenario.figma true)
                (Scenario.eds true true) ∅ Scenario.input_x None () s Hs)
    as Hways.
  change (interrupt _) with (@None InterruptPayload) in Hways.
  destruct Hways as [Hwhole | [_ Hfailed]]; [exact Hwhole |].
  vm_compute in Hs. injection Hs as <-. discriminate Hfailed.
Defined.

(** X11. The errors a run leaves, with [es] the errors the thread held
    before: an interrupted run and a completed one leave [es] as it was;
    a failed run leaves [es ++ es ++ [e]], the earlier errors twice, where
    the one new error [e] names the stage of the node that ran just before
    [fail]. A run that is not interrupted sets [endTime] and [duration]. *)
Theorem runWorkflow_error_account {W} (now_iso : M W string)
    (Date_getTime : string → JS.number)
    (figmaClient : FigmaMCPClient W) (edsClient : EDSGeneratorMCPClient W)
    (checkpoints : gmap string WorkflowState.t)
    (input : WorkflowInput.t) (threadId : option string) (w : W) :
  ∃ s,
    settled (runWorkflow_with now_iso Date_getTime figmaClient edsClient
               checkpoints input threadId w).1 = Resolved (Some s) ∧
    match interrupt (runWorkflow_with now_iso Date_getTime figmaClient edsClient
                       checkpoints input threadId w).1 with
    | Some _ =>
        WorkflowState.errors s = errors_before checkpoints threadId
    | None =>
        is_Some (WorkflowState.endTime s) ∧
        is_Some (WorkflowState.duration s) ∧
        ((WorkflowState.currentStep s = COMPLETED ∧
          WorkflowState.errors s = errors_before checkpoints threadId) ∨
         (WorkflowState.currentStep s = FAILED ∧
          ∃ e stage pre,
            started (runWorkflow_with now_iso Date_getTime figmaClient edsClient
                       checkpoints input threadId w).1 = pre ++ [stage; fail] ∧
            WorkflowError.step e = stage_of stage ∧
            WorkflowState.errors s =
              errors_before checkpoints threadId ++
              errors_before checkpoints threadId ++ [e]))
    end.
Proof.
  start_run now_iso Date_getTime figmaClient edsClient checkpoints input threadId w.
  match goal with
  | |- context [Workflow.steps _ _ _ _ ?f ?r ?t ?n ?st ?c ?l ?w'] =>
      destruct (steps_account now_iso Date_getTime figmaClient edsClient
                  f n st c l t w') as (s & p & Hs & Hstarted & Hp & Hend);
        [simpl; unfold recursionLimit; lia | done |]
  end.
  exists s. split; [exact Hs |]. rewrite Hstarted, <- Herrors0. simpl app.
  destruct (interrupt _) as [payload|]; [by destruct Hend |].
  destruct Hend as (Hend1 & Hend2 & Hend).
  split; [done |]. split; [done |].
  destruct Hend as [(_ & Hstep & Herr)
                   | (_ & Hstep & [[[=] _] | (e & stage & pre & -> & He & Herr)])].
  - by left.
  - right. split; [done |]. by exists e, stage, pre.
Qed.

(** X12. When [runWorkflow] returns, the checkpoint of its thread is the
    state it returns, and the checkpoints of all other threads are the
    ones the saver held before. *)
Theorem runWorkflow_checkpoints_its_result {W} (now_iso : M W string)
    (Date_getTime : string → JS.number)
    (figmaClient : FigmaMCPClient W) (edsClient : EDSGeneratorMCPClient W)
    (checkpoints : gmap string WorkflowState.t)
    (input : WorkflowInput.t) (threadId : option string) (w : W) :
  (∃ s,
     settled (runWorkflow_with now_iso Date_getTime figmaClient edsClient
                checkpoints input threadId w).1 = Resolved (Some s) ∧
     saver (runWorkflow_with now_iso Date_getTime figmaClient edsClient
              checkpoints input threadId w).1 !! default "default" threadId
       = Some s) ∧
  ∀ other, other ≠ default "default" threadId →
    saver (runWorkflow_with now_iso Date_getTime figmaClient edsClient
             checkpoints input threadId w).1 !! other = checkpoints !! other.
Proof.
  start_run now_iso Date_getTime figmaClient edsClient checkpoints input threadId w.
  match goal with
  | |- context [Workflow.steps _ _ _ _ ?f ?r ?t ?n ?st ?c ?l ?w'] =>
      destruct (steps_end now_iso Date_getTime figmaClient edsClient
                  f n st c l t w') as (s & Hs & _);
        [simpl; unfold recursionLimit; lia | done |];
      destruct (steps_saver now_iso Date_getTime figmaClient edsClient
                  f r n st c l t w') as [Hthread Hothers];
        [by rewrite lookup_insert_eq |]
  end.
  split.
  - exists s. split; [exact Hs | by apply Hthread].
  - intros other Hother. rewrite Hothers by done. by rewrite lookup_insert_ne.
Qed.

(** X13. A run never rewrites the request it was given: in the state it
    returns, block name, URL, output path and options are those of the
    input, and an input that came with a node id is returned as it was.
    Only a missing node id, with the file key, is filled in from the URL. *)
Theorem runWorkflow_keeps_the_request {W} (now_iso : M W string)
    (Date_getTime : string → JS.number)
    (figmaClient : FigmaMCPClient W) (edsClient : EDSGeneratorMCPClient W)
    (checkpoints : gmap string WorkflowState.t)
    (input : WorkflowInput.t) (threadId : option string) (w : W) :
  ∃ s,
    settled (runWorkflow_with now_iso Date_getTime figmaClient edsClient
               checkpoints input threadId w).1 = Resolved (Some s) ∧
    same_request input (WorkflowState.input s).
Proof.
  start_run now_iso Date_getTime figmaClient edsClient checkpoints input threadId w.
  match goal with
  | |- context [Workflow.steps _ _ _ _ ?f ?r ?t ?n ?st ?c ?l ?w'] =>
      destruct (steps_end now_iso Date_getTime figmaClient edsClient
                  f n st c l t w') as (s & Hs & _);
        [simpl; unfold recursionLimit; lia | done |];
      pose proof (steps_request now_iso Date_getTime figmaClient edsClient
                    f r n st c l t w' s Hs) as Hsame
  end.
  exists s. split; [exact Hs |]. by rewrite <- Hinput.
Qed.

(** X14. An interrupted run cannot be resumed. When the design source
    answers and the screenshot call fails, [runWorkflow] is stopped by the
    interrupt of [get_screenshot] and the state it returns is the
    checkpoint of its thread; yet [resumeWorkflow] for that thread,
    whatever the user hands in, starts no node and resolves with the
    empty values: it compiles its graph on a saver of its own. *)
Theorem resume_after_run_does_nothing {W} (now_iso : M W string)
    (Date_getTime : string → JS.number)
    (figmaClient : FigmaMCPClient W) (edsClient : EDSGeneratorMCPClient W)
    (input : WorkflowInput.t) (threadId : option string) (w : W)
    (nodeId : string) (userInput : UserInput) (w' : W) :
  truthy (WorkflowInput.figmaNodeId input) = Some nodeId →
  Scenario.succeeds (getDesignContext figmaClient nodeId) →
  Scenario.fails (McpClient.getScreenshot figmaClient nodeId) →
  ∃ s,
    settled (runWorkflow now_iso Date_getTime figmaClient edsClient
               input threadId w).1 = Resolved (Some s) ∧
    is_Some (interrupt (runWorkflow now_iso Date_getTime figmaClient edsClient
                          input threadId w).1) ∧
    saver (runWorkflow now_iso Date_getTime figmaClient edsClient
             input threadId w).1 !! default "default" threadId = Some s ∧
    resumeWorkflow now_iso Date_getTime figmaClient edsClient
      userInput threadId w' =
    ({| settled := Resolved None; started := []; interrupt := None;
        saver := ∅ |}, w').
Proof.
  intros Hid Hdesign Hshot.
  unfold runWorkflow, runWorkflow_with, mbind, M_bind.
  destruct (now_iso w) as [startTime w0].
  unfold invoke. rewrite lookup_empty.
  destruct (Update.first_state _) as [state0|] eqn:Hfirst; [| done].
  cbv in Hfirst. injection Hfirst as <-.
  unfold recursionLimit.
  destruct (Hdesign (now_iso w0).2) as [d Hd].
  erewrite steps_goto;
    [| by apply (NodeFacts.initialize_with_nodeId _ _ _ _ _ _ _ nodeId)
     | reflexivity].
  erewrite steps_goto;
    [| by apply (NodeFacts.extract_design_ok _ _ _ _ _ _ _ nodeId d)
     | unfold input_flag; simpl; by destruct (WorkflowInput.option_flag _ _)].
  erewrite steps_interrupted;
    [| by apply (NodeFacts.get_screenshot_interrupts _ _ _ _ _ _ nodeId)].
  eexists. simpl. split; [reflexivity |]. split; [by eexists |].
  split; [by rewrite lookup_insert_eq |].
  unfold resumeWorkflow, createWorkflow. simpl. by rewrite lookup_empty.
Qed.

(** The run for [{ name: "x", ref: "R1" }] with the screenshot tool
    disabled, and then the screenshot handed to [resumeWorkflow]. *)
Lemma resume_after_run_does_nothing_witness :
  truthy (WorkflowInput.figmaNodeId Scenario.input_x) = Some "R1" ∧
  Scenario.succeeds (getDesignContext (Scenario.figma false) "R1") ∧
  Scenario.fails (McpClient.getScreenshot (Scenario.figma false) "R1") ∧
  ∃ s,
    settled (Scenario.run false true true) = Resolved (Some s) ∧
    is_Some (interrupt (Scenario.run false true true)) ∧
    (resumeWorkflow Scenario.now_iso Scenario.Date_getTime
       (Scenario.figma false) (Scenario.eds true true)
       (Image "iVBORw0KGgo=" png) None ()).1
      = {| settled := Resolved None; started := []; interrupt := None;
           saver := ∅ |}.
Proof.
  split; [reflexivity |].
  split; [exact (WorkflowTheorems.ok_succeeds Scenario.design) |].
  split; [exact (WorkflowTheorems.ko_fails "Tool disabled by user") |].
  destruct (resume_after_run_does_nothing Scenario.now_iso
              Scenario.Date_getTime (Scenario.figma false)
              (Scenario.eds true true) Scenario.input_x None () "R1"
              (Image "iVBORw0KGgo=" png) ()
              eq_refl (WorkflowTheorems.ok_succeeds Scenario.design)
              (WorkflowTheorems.ko_fails "Tool disabled by user"))
    as (s & Hs & Hint & _ & Hresume).
  exists s. split; [exact Hs |]. split; [exact Hint |].
  exact (f_equal fst Hresume).
Defined.

Lemma initialize_without_nodeId {W} (now_iso : M W string)
    (Date_getTime : string → JS.number)
    (figmaClient : FigmaMCPClient W) (edsClient : EDSGeneratorMCPClient W)
    resume state w :
  truthy (WorkflowInput.figmaNodeId (WorkflowState.input state)) = None →
  (∀ url, truthy (WorkflowInput.figmaUrl (WorkflowState.input state)) = Some url →
          parseFigmaUrl url = None) →
  run_node now_iso Date_getTime figmaClient edsClient resume initialize state w =
    (Return [Update.currentStep EXTRACTING_DESIGN;
             Update.startTime (now_iso w).1;
             Update.errors []],
     (now_iso w).2).
Proof.
  intros Hid Hurl. unfold run_node, initializeWorkflow. rewrite Hid.
  destruct (truthy (WorkflowInput.figmaUrl _)) as [url|];
    [rewrite (Hurl url eq_refl) |];
    unfold mbind, M_bind, mret, M_ret; by destruct (now_iso w).
Qed.

Lemma extract_design_without_nodeId {W} (now_iso : M W string)
    (Date_getTime : string → JS.number)
    (figmaClient : FigmaMCPClient W) (edsClient : EDSGeneratorMCPClient W)
    resume state w :
  truthy (WorkflowInput.figmaNodeId (WorkflowState.input state)) = None →
  run_node now_iso Date_getTime figmaClient edsClient resume extract_design state w =
    (Return [Update.currentStep FAILED;
             Update.errors
               (WorkflowState.errors state ++
                [stage_error EXTRACTING_DESIGN "No Figma node ID provided"
                   (now_iso w).1 false])],
     (now_iso w).2).
Proof.
  intros Hid. unfold run_node, extractDesignContext. rewrite Hid.
  unfold failed, mbind, M_bind, mret, M_ret. by destruct (now_iso w).
Qed.

(** X15. An input with no node id, and with no URL from which one can be
    read, fails in [extract_design] without any connector being asked:
    the run is [initialize], [extract_design], [fail], the one error says
    [No Figma node ID provided] and is not retryable, and the outcome is
    the same whatever the connectors are. *)
Theorem missing_node_id_fails_before_any_call {W} (now_iso : M W string)
    (Date_getTime : string → JS.number)
    (figmaClient figmaClient' : FigmaMCPClient W)
    (edsClient edsClient' : EDSGeneratorMCPClient W)
    (input : WorkflowInput.t) (threadId : option string) (w : W) :
  truthy (WorkflowInput.figmaNodeId input) = None →
  (∀ url, truthy (WorkflowInput.figmaUrl input) = Some url →
          parseFigmaUrl url = None) →
  runWorkflow now_iso Date_getTime figmaClient edsClient input threadId w =
    runWorkflow now_iso Date_getTime figmaClient' edsClient' input threadId w ∧
  ∃ s e,
    settled (runWorkflow now_iso Date_getTime figmaClient edsClient
               input threadId w).1 = Resolved (Some s) ∧
    started (runWorkflow now_iso Date_getTime figmaClient edsClient
               input threadId w).1 = [initialize; extract_design; fail] ∧
    WorkflowState.currentStep s = FAILED ∧
    WorkflowState.errors s = [e] ∧
    WorkflowError.step e = EXTRACTING_DESIGN ∧
    WorkflowError.message e = "No Figma node ID provided" ∧
    WorkflowError.retryable e = false ∧
    WorkflowState.designContext s = None.
Proof.
  intros Hid Hurl.
  unfold runWorkflow, runWorkflow_with, mbind, M_bind.
  destruct (now_iso w) as [startTime w0].
  assert (∃ r,
            (∀ (figma : FigmaMCPClient W) (eds : EDSGeneratorMCPClient W),
               invoke now_iso Date_getTime figma eds ∅
                 [Update.input input; Update.currentStep INITIALIZED;
                  Update.errors []; Update.startTime startTime]
                 (default "default" threadId) w0 = r) ∧
            ∃ s e,
              settled r.1 = Resolved (Some s) ∧
              started r.1 = [initialize; extract_design; fail] ∧
              WorkflowState.currentStep s = FAILED ∧
              WorkflowState.errors s = [e] ∧
              WorkflowError.step e = EXTRACTING_DESIGN ∧
              WorkflowError.message e = "No Figma node ID provided" ∧
              WorkflowError.retryable e = false ∧
              WorkflowState.designContext s = None) as (r & Hrun & Hr).
  { eexists. split.
    - intros figma eds.
      unfold invoke. rewrite lookup_empty.
      match goal with
      | |- context [Update.first_state ?u] =>
          let v := eval cbv in (Update.first_state u) in
          change (Update.first_state u) with v
      end.
      unfold recursionLimit.
      erewrite steps_goto;
        [| by apply initialize_without_nodeId | reflexivity].
      erewrite steps_goto;
        [| by apply extract_design_without_nodeId | reflexivity].
      erewrite steps_finish; [| apply NodeFacts.stamp_spec | reflexivity].
      reflexivity.
    - eexists _, _. simpl. by repeat split. }
  rewrite !Hrun. split; [done | exact Hr].
Qed.

Lemma missing_node_id_fails_before_any_call_witness :
  truthy (WorkflowInput.figmaNodeId ScenarioExtra.input_without_node) = None ∧
  (∀ url, truthy (WorkflowInput.figmaUrl ScenarioExtra.input_without_node) = Some url →
          parseFigmaUrl url = None) ∧
  Workflow.runWorkflow Scenario.now_iso Scenario.Date_getTime
    (Scenario.figma true) (Scenario.eds true true)
    ScenarioExtra.input_without_node None () =
  Workflow.runWorkflow Scenario.now_iso Scenario.Date_getTime
    (Scenario.figma false) (Scenario.eds false false)
    ScenarioExtra.input_without_node None ().
Proof.
  assert (∀ url, truthy (WorkflowInput.figmaUrl ScenarioExtra.input_without_node)
                   = Some url → parseFigmaUrl url = None) as Hurl.
  { intros url [= <-]. vm_compute. reflexivity. }
  split; [reflexivity |]. split; [exact Hurl |].
  exact (proj1 (missing_node_id_fails_before_any_call Scenario.now_iso
                  Scenario.Date_getTime (Scenario.figma true) (Scenario.figma false)
                  (Scenario.eds true true) (Scenario.eds false false)
                  ScenarioExtra.input_without_node None () eq_refl Hurl)).
Defined.

(** X16. When every connector succeeds for an input with a node id, the
    run goes through all seven nodes and ends in [COMPLETED] without an
    error and without interrupt; the state holds the design, the
    screenshot, the generated files, the validation and the analysis, the
    analysis under the block name of the input; the screenshot is not
    marked as provided by the user, and [sectionModelUpdated] is never
    written, whatever the options ask for. *)
Theorem successful_run_completes {W} (now_iso : M W string)
    (Date_getTime : string → JS.number)
    (figmaClient : FigmaMCPClient W) (edsClient : EDSGeneratorMCPClient W)
    (input : WorkflowInput.t) (threadId : option string) (w : W)
    (nodeId : string) :
  truthy (WorkflowInput.figmaNodeId input) = Some nodeId →
  Scenario.delivers_code figmaClient →
  Scenario.succeeds (McpClient.getScreenshot figmaClient nodeId) →
  (∀ code shot meta, Scenario.succeeds
                       (McpClient.analyzeBlockStructure edsClient code shot meta)) →
  (∀ name path code opts, Scenario.succeeds
                            (McpClient.generateEdsBlock edsClient name path code opts)) →
  (∀ path name strict, Scenario.succeeds
                         (McpClient.validateBlockOutput edsClient path name strict)) →
  ∃ s,
    settled (runWorkflow now_iso Date_getTime figmaClient edsClient
               input threadId w).1 = Resolved (Some s) ∧
    started (runWorkflow now_iso Date_getTime figmaClient edsClient
               input threadId w).1 = whole_pipeline ∧
    interrupt (runWorkflow now_iso Date_getTime figmaClient edsClient
                 input threadId w).1 = None ∧
    WorkflowState.currentStep s = COMPLETED ∧
    WorkflowState.errors s = [] ∧
    WorkflowState.input s = input ∧
    is_Some (WorkflowState.designContext s) ∧
    is_Some (WorkflowState.screenshot s) ∧
    WorkflowState.userProvidedScreenshot s = None ∧
    BlockAnalysis.blockName <$> WorkflowState.analysis s
      = Some (WorkflowInput.blockName input) ∧
    is_Some (WorkflowState.generatedFiles s) ∧
    is_Some (WorkflowState.validation s) ∧
    WorkflowState.sectionModelUpdated s = None.
Proof.
  intros Hid Hdesign Hshot Hanalysis Hgen Hval.
  unfold runWorkflow, runWorkflow_with, mbind, M_bind.
  destruct (now_iso w) as [startTime w0].
  unfold invoke. rewrite lookup_empty.
  destruct (Update.first_state _) as [state0|] eqn:Hfirst; [| done].
  cbv in Hfirst. injection Hfirst as <-.
  unfold recursionLimit.
  erewrite steps_goto;
    [| by apply (NodeFacts.initialize_with_nodeId _ _ _ _ _ _ _ nodeId)
     | reflexivity].
  destruct (Hdesign nodeId (now_iso w0).2) as (d & Hd & Hcode).
  assert (truthy (Some (DesignContext.generatedCode d))
          = Some (DesignContext.generatedCode d)) as Htruthy
    by (by destruct (DesignContext.generatedCode d)).
  erewrite steps_goto;
    [| by apply (NodeFacts.extract_design_ok _ _ _ _ _ _ _ nodeId d)
     | unfold input_flag; simpl; by destruct (WorkflowInput.option_flag _ _)].
  match goal with
  | |- context [Workflow.steps _ _ _ _ _ _ _ get_screenshot _ _ _ ?w'] =>
      destruct (Hshot w') as [p Hp]
  end.
  erewrite steps_goto;
    [| by apply (NodeFacts.get_screenshot_ok _ _ _ _ _ _ _ nodeId p)
     | reflexivity].
  match goal with
  | |- context [Workflow.steps _ _ _ _ _ _ _ analyze ?st _ _ ?w'] =>
      destruct (Hanalysis (DesignContext.generatedCode d) (screenshot_data st)
                  (metadata_json st) w') as [a Ha]
  end.
  erewrite steps_goto;
    [| apply (NodeFacts.analyze_ok _ _ _ _ _ _ _ (DesignContext.generatedCode d) a);
       [exact Htruthy | exact Ha]
     | reflexivity].
  match goal with
  | |- context [Workflow.steps _ _ _ _ _ _ _ generate ?st _ _ ?w'] =>
      destruct (Hgen (WorkflowInput.blockName (WorkflowState.input st))
                  (WorkflowInput.outputPath (WorkflowState.input st))
                  (DesignContext.generatedCode d)
                  {| opt_screenshot := screenshot_data st;
                     opt_metadata := metadata_json st;
                     opt_persistContext :=
                       WorkflowOptions.persistContext <$>
                         WorkflowInput.options (WorkflowState.input st);
                     opt_updateSectionModel :=
                       WorkflowOptions.updateSectionModel <$>
                         WorkflowInput.options (WorkflowState.input st);
                     opt_validateOutput := Some false |} w') as [g Hg]
  end.
  erewrite steps_goto;
    [| apply (NodeFacts.generate_ok _ _ _ _ _ _ _ (DesignContext.generatedCode d) g);
       [exact Htruthy | exact Hg]
     | unfold input_flag; simpl;
       by repeat destruct (WorkflowInput.option_flag _ _)].
  match goal with
  | |- context [Workflow.steps _ _ _ _ _ _ _ validate ?st _ _ ?w'] =>
      destruct (Hval (WorkflowInput.outputPath (WorkflowState.input st) +:+ "/" +:+
                      WorkflowInput.blockName (WorkflowState.input st))
                  (WorkflowInput.blockName (WorkflowState.input st))
                  (input_flag WorkflowOptions.strictValidation st) w') as [v Hv]
  end.
  erewrite steps_goto;
    [| apply (NodeFacts.validate_ok _ _ _ _ _ _ _ v); exact Hv
     | unfold after_validation, input_flag; simpl;
       by repeat destruct (WorkflowInput.option_flag _ _)].
  erewrite steps_finish; [| apply NodeFacts.stamp_spec | reflexivity].
  eexists. simpl. by repeat split.
Qed.

Lemma successful_run_completes_witness :
  truthy (WorkflowInput.figmaNodeId Scenario.input_x) = Some "R1" ∧
  Scenario.delivers_code (Scenario.figma true) ∧
  Scenario.succeeds (McpClient.getScreenshot (Scenario.figma true) "R1") ∧
  (∀ code shot meta,
     Scenario.succeeds
       (McpClient.analyzeBlockStructure (Scenario.eds true true) code shot meta)) ∧
  (∀ name path code opts,
     Scenario.succeeds
       (McpClient.generateEdsBlock (Scenario.eds true true) name path code opts)) ∧
  (∀ path name strict,
     Scenario.succeeds
       (McpClient.validateBlockOutput (Scenario.eds true true) path name strict)) ∧
  ∃ s,
    settled (Scenario.run true true true) = Resolved (Some s) ∧
    started (Scenario.run true true true) = whole_pipeline.
Proof.
  assert (∀ T (x : T), Scenario.succeeds (Scenario.ok x)) as Hok
    by (intros T x []; by eexists).
  assert (Scenario.delivers_code (Scenario.figma true)) as Hdesign
    by (intros nodeId []; by exists Scenario.design).
  split; [reflexivity |]. split; [exact Hdesign |].
  split; [exact (Hok _ Scenario.picture) |].
  split; [exact (λ _ _ _, Hok _ Scenario.blockAnalysis) |].
  split; [exact (λ _ _ _ _, Hok _ Scenario.files) |].
  split; [exact (λ _ _ _, Hok _ Scenario.verdict) |].
  destruct (successful_run_completes Scenario.now_iso Scenario.Date_getTime
              (Scenario.figma true) (Scenario.eds true true) Scenario.input_x
              None () "R1" eq_refl Hdesign (Hok _ Scenario.picture)
              (λ _ _ _, Hok _ Scenario.blockAnalysis)
              (λ _ _ _ _, Hok _ Scenario.files)
              (λ _ _ _, Hok _ Scenario.verdict))
    as (s & Hs & Hstarted & _).
  exists s. split; [exact Hs | exact Hstarted].
Defined.

(** X17. While a screenshot is awaited, [resumeWithUserInput] moves the
    state to [ANALYZING] whatever the user sends. An image with data
    becomes the screenshot, marked as provided by the user; every text,
    [skip] or not, and an image without data leave the screenshot as it
    was. Design, analysis, errors and request are not touched, and all
    texts give the same update. *)
Theorem resumeWithUserInput_for_screenshot {W} (now_iso : M W string)
    (state : WorkflowState.t) (awaiting : AwaitingUserInput.t)
    (userInput : UserInput) (w : W) :
  WorkflowState.awaitingUserInput state = Some awaiting →
  AwaitingUserInput.inputType awaiting = screenshot_input →
  let s' := Update.merge state (resumeWithUserInput now_iso state userInput w).1 in
  WorkflowState.currentStep s' = ANALYZING ∧
  WorkflowState.input s' = WorkflowState.input state ∧
  WorkflowState.designContext s' = WorkflowState.designContext state ∧
  WorkflowState.analysis s' = WorkflowState.analysis state ∧
  WorkflowState.errors s' = WorkflowState.errors state ∧
  match userInput with
  | Image (String c data) format =>
      WorkflowState.screenshot s' =
        Some {| Screenshot.data := String c data;
                Screenshot.format := format;
                Screenshot.timestamp := (now_iso w).1 |} ∧
      WorkflowState.userProvidedScreenshot s' = Some true
  | Image EmptyString _ =>
      WorkflowState.screenshot s' = WorkflowState.screenshot state ∧
      WorkflowState.userProvidedScreenshot s'
        = WorkflowState.userProvidedScreenshot state
  | Text text =>
      WorkflowState.screenshot s' = WorkflowState.screenshot state ∧
      WorkflowState.userProvidedScreenshot s'
        = WorkflowState.userProvidedScreenshot state ∧
      resumeWithUserInput now_iso state (Text text) w
        = resumeWithUserInput now_iso state (Text "skip") w
  end.
Proof.
  intros Hawaiting Htype. unfold resumeWithUserInput.
  rewrite Hawaiting, Htype.
  destruct userInput as [text | [|c data] format]; simpl.
  - destruct (is_skip text); simpl; by repeat split.
  - by repeat split.
  - unfold mbind, M_bind, mret, M_ret. destruct (now_iso w) as [ts w'].
    simpl. by repeat split.
Qed.

Lemma resumeWithUserInput_for_screenshot_witness :
  WorkflowState.awaitingUserInput ScenarioExtra.awaiting_screenshot
    = Some {| AwaitingUserInput.requestedAt := Scenario.instant;
              AwaitingUserInput.promptMessage := "Please provide a screenshot";
              AwaitingUserInput.inputType := screenshot_input |} ∧
  WorkflowState.screenshot
    (Update.merge ScenarioExtra.awaiting_screenshot
       (resumeWithUserInput Scenario.now_iso ScenarioExtra.awaiting_screenshot
          (Image "iVBORw0KGgo=" png) ()).1)
    = Some Scenario.picture.
Proof.
  split; [reflexivity |].
  exact (proj1 (proj2 (proj2 (proj2 (proj2 (proj2
    (resumeWithUserInput_for_screenshot Scenario.now_iso
       ScenarioExtra.awaiting_screenshot _ (Image "iVBORw0KGgo=" png) ()
       eq_refl eq_refl))))))).
Defined.

(** X18. When no input is awaited, or an input of another kind than a
    screenshot, [resumeWithUserInput] changes nothing: merging what it
    returns gives the state back, and the clock is not read. *)
Theorem resumeWithUserInput_without_request {W} (now_iso : M W string)
    (state : WorkflowState.t) (userInput : UserInput) (w : W) :
  (∀ awaiting, WorkflowState.awaitingUserInput state = Some awaiting →
               AwaitingUserInput.inputType awaiting ≠ screenshot_input) →
  Update.merge state (resumeWithUserInput now_iso state userInput w).1 = state ∧
  (resumeWithUserInput now_iso state userInput w).2 = w.
Proof.
  intros Hrequest. unfold resumeWithUserInput.
  destruct (WorkflowState.awaitingUserInput state) as [awaiting|] eqn:Hawaiting.
  - specialize (Hrequest awaiting eq_refl).
    destruct (AwaitingUserInput.inputType awaiting); [done | |];
      by destruct state.
  - by destruct state.
Qed.

Lemma resumeWithUserInput_without_request_witness :
  (∀ awaiting,
     WorkflowState.awaitingUserInput Scenario.finished = Some awaiting →
     AwaitingUserInput.inputType awaiting ≠ screenshot_input) ∧
  Update.merge Scenario.finished
    (resumeWithUserInput Scenario.now_iso Scenario.finished (Text "skip") ()).1
    = Scenario.finished.
Proof.
  assert (∀ awaiting,
            WorkflowState.awaitingUserInput Scenario.finished = Some awaiting →
            AwaitingUserInput.inputType awaiting ≠ screenshot_input) as Hrequest
    by (intros awaiting [=]).
  split; [exact Hrequest |].
  exact (proj1 (resumeWithUserInput_without_request Scenario.now_iso
                  Scenario.finished (Text "skip") () Hrequest)).
Defined.

End WorkflowExtraTheorems.


(** ** mcp-client.ts: parseFigmaUrl *)

Module McpClientExtraTheorems.
Import McpClient McpClientExtra.

Lemma strip_prefix_app p s : strip_prefix p (p +:+ s) = Some s.
Proof.
  induction p as [|a p IH]; simpl; [done |]. by rewrite Ascii.eqb_refl.
Qed.

(** The run [span_not] takes is free of the character. *)
Lemma span_not_free c s : occurs c (span_not c s).1 = false.
Proof.
  induction s as [|a s IH]; simpl; [done |].
  destruct (Ascii.eqb a c) eqn:Hac; [done |].
  destruct (span_not c s) as [run rest]. simpl in *. by rewrite Hac.
Qed.

(** A run that is free of the character is taken whole, up to the
    character or to the end. *)
Lemma span_not_stop c run rest :
  occurs c run = false →
  span_not c (run +:+ String c rest) = (run, String c rest).
Proof.
  induction run as [|a run IH]; simpl.
  - by rewrite Ascii.eqb_refl.
  - intros [Hac Hrun]%orb_false_iff. by rewrite Hac, IH.
Qed.

Lemma span_not_end c run :
  occurs c run = false → span_not c run = (run, EmptyString).
Proof.
  induction run as [|a run IH]; simpl; [done |].
  intros [Hac Hrun]%orb_false_iff. by rewrite Hac, IH.
Qed.

Lemma span_not_before c run rest :
  occurs c run = false → ends_node_id rest = true → c = "&"%char →
  (span_not c (run +:+ rest)).1 = run.
Proof.
  intros Hrun Hrest ->. destruct rest as [|a rest].
  - assert (∀ r : string, r +:+ EmptyString = r) as Happ.
    { clear. induction r as [|a r IH]; [done |].
      change (String a (r +:+ EmptyString) = String a r). by f_equal. }
    by rewrite Happ, span_not_end.
  - simpl in Hrest. apply Ascii.eqb_eq in Hrest. subst a.
    by rewrite span_not_stop.
Qed.

Lemma match_here_shape lit s fileKey nodeId :
  match_here lit s = Some (fileKey, nodeId) →
  fileKey ≠ "" ∧ occurs "/" fileKey = false ∧
  nodeId ≠ "" ∧ occurs "&" nodeId = false.
Proof.
  unfold match_here. intros H.
  destruct (strip_prefix lit s) as [r0|]; [| done].
  cbn [mbind option_bind] in H.
  pose proof (span_not_free "/" r0) as Hkey.
  destruct (span_not "/" r0) as [g1 r1]. simpl in Hkey.
  destruct g1 as [|k1 g1]; [done |].
  cbn [mbind option_bind nonempty] in H.
  destruct (strip_prefix "/" r1) as [r2|]; [| done].
  cbn [mbind option_bind] in H.
  destruct (span_not "?" r2) as [g r3].
  destruct (strip_prefix "?node-id=" r3) as [r4|]; [| done].
  cbn [mbind option_bind] in H.
  pose proof (span_not_free "&" r4) as Hnode.
  destruct (span_not "&" r4) as [g2 r5]. simpl in Hnode.
  destruct g2 as [|n1 g2]; [done |].
  cbn [mbind option_bind nonempty] in H.
  by injection H as <- <-.
Qed.

Lemma match_anywhere_shape lit s fileKey nodeId :
  match_anywhere lit s = Some (fileKey, nodeId) →
  fileKey ≠ "" ∧ occurs "/" fileKey = false ∧
  nodeId ≠ "" ∧ occurs "&" nodeId = false.
Proof.
  induction s as [|a s IH]; simpl.
  - destruct (match_here lit "") as [m|] eqn:Hm; [| done].
    intros [= ->]. by apply (match_here_shape lit "").
  - destruct (match_here lit (String a s)) as [m|] eqn:Hm; [| exact IH].
    intros [= ->]. by apply (match_here_shape lit (String a s)).
Qed.

Lemma dashes_to_colons_shape s :
  occurs "-" (dashes_to_colons s) = false ∧
  occurs "&" (dashes_to_colons s) = occurs "&" s ∧
  (s ≠ "" → dashes_to_colons s ≠ "").
Proof.
  split; [| split].
  - induction s as [|a s IH]; simpl; [done |]. rewrite IH.
    destruct (Ascii.eqb a "-") eqn:Ha; [done |]. by rewrite Ha.
  - induction s as [|a s IH]; simpl; [done |]. rewrite IH.
    destruct (Ascii.eqb a "-") eqn:Ha; [| done].
    apply Ascii.eqb_eq in Ha. by subst a.
  - by destruct s.
Qed.

(** X19. Whatever [parseFigmaUrl] reads from a URL can be used: the file
    key is not empty and has no [/]; the node id is not empty and holds
    neither [-], each of which has become [:], nor [&]. *)
Theorem parseFigmaUrl_result_is_well_formed (url fileKey nodeId : string) :
  parseFigmaUrl url = Some (fileKey, nodeId) →
  fileKey ≠ "" ∧ occurs "/" fileKey = false ∧
  nodeId ≠ "" ∧ occurs "-" nodeId = false ∧ occurs "&" nodeId = false ∧
  truthy (Some nodeId) = Some nodeId.
Proof.
  unfold parseFigmaUrl, patterns. intros H.
  assert (∃ lit raw, match_anywhere lit url = Some (fileKey, raw) ∧
                     nodeId = dashes_to_colons raw) as (lit & raw & Hm & ->).
  { destruct (match_anywhere "figma.com/design/" url) as [[k n]|] eqn:H1.
    - injection H as <- <-. by eexists _, _.
    - destruct (match_anywhere "figma.com/file/" url) as [[k n]|] eqn:H2; [| done].
      injection H as <- <-. by eexists _, _. }
  destruct (match_anywhere_shape _ _ _ _ Hm) as (Hk1 & Hk2 & Hn1 & Hn2).
  destruct (dashes_to_colons_shape raw) as (Hd1 & Hd2 & Hd3).
  assert (dashes_to_colons raw ≠ "") as Hne by auto.
  repeat split; try done; [congruence |].
  by destruct (dashes_to_colons raw).
Qed.

Lemma parseFigmaUrl_result_is_well_formed_witness :
  parseFigmaUrl "https://www.figma.com/file/abc123/My-File?node-id=13157-13513&t=x"
    = Some ("abc123", "13157:13513") ∧
  occurs "-" "13157:13513" = false.
Proof.
  assert (parseFigmaUrl
            "https://www.figma.com/file/abc123/My-File?node-id=13157-13513&t=x"
          = Some ("abc123", "13157:13513")) as H by (vm_compute; reflexivity).
  split; [exact H |].
  exact (proj1 (proj2 (proj2 (proj2
    (parseFigmaUrl_result_is_well_formed _ _ _ H))))).
Defined.

Lemma match_here_design fileKey fileName nodeId rest :
  fileKey ≠ "" → occurs "/" fileKey = false →
  occurs "?" fileName = false →
  nodeId ≠ "" → occurs "&" nodeId = false →
  ends_node_id rest = true →
  match_here "figma.com/design/" (design_url "" fileKey fileName nodeId rest)
    = Some (fileKey, nodeId).
Proof.
  intros Hk1 Hk2 Hname Hn1 Hn2 Hrest.
  change (design_url "" fileKey fileName nodeId rest)
    with ("figma.com/design/" +:+
            (fileKey +:+ String "/"%char
               (fileName +:+ String "?"%char ("node-id=" +:+ (nodeId +:+ rest))))).
  unfold match_here. rewrite strip_prefix_app. cbn [mbind option_bind].
  rewrite span_not_stop by done.
  destruct fileKey as [|k1 fileKey]; [done |].
  cbn [mbind option_bind nonempty].
  change (String "/"%char
            (fileName +:+ String "?"%char ("node-id=" +:+ (nodeId +:+ rest))))
    with ("/" +:+
            (fileName +:+ String "?"%char ("node-id=" +:+ (nodeId +:+ rest)))).
  rewrite strip_prefix_app. cbn [mbind option_bind].
  rewrite span_not_stop by done.
  change (String "?"%char ("node-id=" +:+ (nodeId +:+ rest)))
    with ("?node-id=" +:+ (nodeId +:+ rest)).
  rewrite strip_prefix_app. cbn [mbind option_bind].
  pose proof (span_not_before "&" nodeId rest Hn2 Hrest eq_refl) as Hspan.
  destruct (span_not "&" (nodeId +:+ rest)) as [g2 r5]. simpl in Hspan.
  subst g2. by destruct nodeId.
Qed.

Lemma match_anywhere_here lit s m :
  match_here lit s = Some m → match_anywhere lit s = Some m.
Proof. intros H. destruct s; cbn [match_anywhere]; by rewrite H. Qed.

Lemma match_anywhere_skip lit a s :
  match_here lit (String a s) = None →
  match_anywhere lit (String a s) = match_anywhere lit s.
Proof. intros H. cbn [match_anywhere]. by rewrite H. Qed.

Lemma match_here_other_letter a s :
  Ascii.eqb a "f" = false →
  match_here "figma.com/design/" (String a s) = None.
Proof.
  intros H. destruct a as [[] [] [] [] [] [] [] []];
    first [reflexivity | vm_compute in H; discriminate].
Qed.

(** X20. A design URL is read back: for
    [<before>figma.com/design/<fileKey>/<fileName>?node-id=<nodeId><rest>],
    with no letter [f] in what comes before, a file key without [/], a file
    name without [?], a node id without [&], and nothing or further
    parameters behind it, [parseFigmaUrl] gives the file key and the node
    id with [:] for every [-]. *)
Theorem parseFigmaUrl_reads_design_url
    (before fileKey fileName nodeId rest : string) :
  occurs "f" before = false →
  fileKey ≠ "" → occurs "/" fileKey = false →
  occurs "?" fileName = false →
  nodeId ≠ "" → occurs "&" nodeId = false →
  ends_node_id rest = true →
  parseFigmaUrl (design_url before fileKey fileName nodeId rest)
    = Some (fileKey, dashes_to_colons nodeId).
Proof.
  intros Hbefore Hk1 Hk2 Hname Hn1 Hn2 Hrest.
  assert (match_anywhere "figma.com/design/"
            (design_url before fileKey fileName nodeId rest)
          = Some (fileKey, nodeId)) as Hm.
  { induction before as [|a before IH].
    - apply match_anywhere_here. by apply match_here_design.
    - simpl in Hbefore. apply orb_false_iff in Hbefore as [Ha Hbefore].
      change (design_url (String a before) fileKey fileName nodeId rest)
        with (String a (design_url before fileKey fileName nodeId rest)).
      rewrite match_anywhere_skip by (by apply match_here_other_letter).
      by apply IH. }
  unfold parseFigmaUrl, patterns. by rewrite Hm.
Qed.

Lemma parseFigmaUrl_reads_design_url_witness :
  occurs "f" "https://www." = false ∧
  "abc123" ≠ "" ∧ occurs "/" "abc123" = false ∧
  occurs "?" "My-File" = false ∧
  "13157-13513" ≠ "" ∧ occurs "&" "13157-13513" = false ∧
  ends_node_id "&t=x" = true ∧
  parseFigmaUrl "https://www.figma.com/design/abc123/My-File?node-id=13157-13513&t=x"
    = Some ("abc123", "13157:13513").
Proof.
  repeat (split; [done || reflexivity |]).
  exact (parseFigmaUrl_reads_design_url "https://www." "abc123" "My-File"
           "13157-13513" "&t=x" eq_refl ltac:(done) eq_refl eq_refl
           ltac:(done) eq_refl eq_refl).
Defined.

End McpClientExtraTheorems.


(** ** persistence.ts *)

Module PersistenceExtraTheorems.
Import JS JSONFacts JSONExtra Persistence PersistenceExtra McpClientExtra.

(** A document is printed as it was parsed, and what is parsed has an
    exact JSON form. *)
Lemma stringify_parse (j : json) : stringify (parse j) = Some j.
Proof.
  induction j as [|b|z|s|items IH|members IH] using json_ind; try done.
  - simpl. do 2 f_equal.
    induction IH as [|x items Hx _ IHitems]; [done |].
    simpl. by rewrite Hx, IHitems.
  - simpl. do 2 f_equal.
    induction IH as [|[k x] members Hx _ IHmembers]; [done |].
    simpl in *. by rewrite Hx, IHmembers.
Qed.

Lemma representable_parse (j : json) : JS.representable (parse j) = true.
Proof.
  induction j as [|b|z|s|items IH|members IH] using json_ind; try done.
  - simpl. induction IH as [|x items Hx _ IHitems]; [done |].
    simpl. by rewrite Hx, IHitems.
  - simpl. induction IH as [|[k x] members Hx _ IHmembers]; [done |].
    simpl in *. by rewrite Hx, IHmembers.
Qed.

Lemma state_is_printed (state : WorkflowState.t) :
  is_Some (stringify (WorkflowState.to_js state)).
Proof. unfold WorkflowState.to_js. by eexists. Qed.

(** X21. Whatever a state holds, an [Error] object made by [new Error]
    or an infinite duration as well: if [saveState] under a non-empty
    relative file name resolves, [loadState] under that name reads back
    a value that has an exact JSON form and that a further round trip
    leaves as it is. *)
Theorem saved_state_is_read_back_clean
    (config : PersistenceConfig) (now : string)
    (state : WorkflowState.t) (filename : string)
    (disk disk' : Fs.t) (path : string) :
  filename ≠ "" →
  Path.isAbsolute filename = false →
  saveState config now state (Some filename) disk = (inl path, disk') →
  ∃ loaded,
    loadState config filename disk' = inl loaded ∧
    reread (WorkflowState.to_js state) = Some loaded ∧
    JS.representable loaded = true ∧
    reread loaded = Some loaded.
Proof.
  intros Hname Hrel Hsave.
  destruct (PersistenceTheorems.saveState_resolved _ _ _ _ _ _ _ Hname Hsave)
    as (-> & text & disk1 & Htext & _ & Hwrite).
  exists (parse text). unfold loadState, located. rewrite Hrel.
  rewrite (FsFacts.read_after_write _ _ _ _ Hwrite).
  split; [done |]. split; [by unfold reread; rewrite Htext |].
  split; [apply representable_parse |].
  unfold reread. by rewrite stringify_parse.
Qed.

Lemma saved_state_is_read_back_clean_witness :
  "s.json" ≠ "" ∧
  Path.isAbsolute "s.json" = false ∧
  ∃ disk' loaded,
    saveState DEFAULT_PERSISTENCE_CONFIG Scenario.instant
      Scenario.state_with_Error (Some "s.json") Fs.empty
      = (inl ".tmp/block-builder-states/s.json", disk') ∧
    loadState DEFAULT_PERSISTENCE_CONFIG "s.json" disk' = inl loaded ∧
    reread loaded = Some loaded.
Proof.
  split; [done |]. split; [reflexivity |].
  eexists. 
  assert (saveState DEFAULT_PERSISTENCE_CONFIG Scenario.instant
            Scenario.state_with_Error (Some "s.json") Fs.empty
          = (inl ".tmp/block-builder-states/s.json",
             (saveState DEFAULT_PERSISTENCE_CONFIG Scenario.instant
                Scenario.state_with_Error (Some "s.json") Fs.empty).2)) as Hsave
    by (vm_compute; reflexivity).
  destruct (saved_state_is_read_back_clean DEFAULT_PERSISTENCE_CONFIG
              Scenario.instant Scenario.state_with_Error "s.json" Fs.empty _ _
              ltac:(done) eq_refl Hsave)
    as (loaded & Hload & _ & _ & Hagain).
  exists loaded. split; [exact Hsave |]. split; [exact Hload | exact Hagain].
Defined.

Lemma dashed_free (s : string) :
  occurs ":" (dashed s) = false ∧ occurs "." (dashed s) = false ∧
  String.length (dashed s) = String.length s.
Proof.
  induction s as [|a s (IH1 & IH2 & IH3)]; [done |]. simpl.
  rewrite IH1, IH2, IH3.
  destruct (Ascii.eqb a ":") eqn:H1; simpl; [done |].
  destruct (Ascii.eqb a ".") eqn:H2; simpl; [done |].
  by rewrite H1, H2.
Qed.

(** X22. Without a file name, and just so with the empty one,
    [saveState] uses [<blockName>-<stamp>.json], where the stamp is the
    clock reading with [-] for every [:] and [.]: as long as the
    reading, and free of both. If the save resolves, it resolves with
    that name joined to the state directory, and the file there holds the
    text of the state. *)
Theorem saveState_makes_up_a_name
    (config : PersistenceConfig) (now : string)
    (state : WorkflowState.t) (disk : Fs.t) :
  saveState config now state (Some "") disk
    = saveState config now state None disk ∧
  occurs ":" (dashed now) = false ∧
  occurs "." (dashed now) = false ∧
  String.length (dashed now) = String.length now ∧
  ∀ path disk',
    saveState config now state None disk = (inl path, disk') →
    path = Path.join (stateDir config) (default_name state now) ∧
    ∃ text,
      stringify (WorkflowState.to_js state) = Some text ∧
      Fs.readFile path disk' = inl text.
Proof.
  destruct (dashed_free now) as (H1 & H2 & H3).
  split; [done |]. split; [done |]. split; [done |]. split; [done |].
  intros path disk'. unfold saveState.
  destruct (Fs.mkdir_recursive _ disk) as [[e|] disk1]; [done |].
  destruct (stringify (WorkflowState.to_js state)) as [text|]; [| done].
  cbn [or_else]. fold (default_name state now).
  destruct (Fs.writeFile _ text disk1) as [disk2|e] eqn:Hwrite; [| done].
  intros [= <- <-]. split; [done |]. exists text. split; [done |].
  by apply (FsFacts.read_after_write _ _ disk1).
Qed.

(** The made-up name on an empty disk; and a block name with a [/],
    which makes a name with a directory part that does not exist. *)
Lemma saveState_made_up_names :
  (saveState DEFAULT_PERSISTENCE_CONFIG Scenario.instant Scenario.state_x
     None Fs.empty).1
    = inl ".tmp/block-builder-states/x-2025-12-05T10-30-00-000Z.json" ∧
  (saveState DEFAULT_PERSISTENCE_CONFIG Scenario.instant
     (Scenario.state_named "a/b") None Fs.empty).1 = inr Fs.ENOENT.
Proof. split; vm_compute; reflexivity. Qed.

(** X23. The path [saveState] returns can be handed to [loadState] when
    it is absolute, as it is when the state directory is: the saved state
    is read back under it. *)
Theorem returned_path_is_loaded_when_absolute
    (config : PersistenceConfig) (now : string)
    (state : WorkflowState.t) (filename : string)
    (disk disk' : Fs.t) (path : string) :
  filename ≠ "" →
  saveState config now state (Some filename) disk = (inl path, disk') →
  Path.isAbsolute path = true →
  ∃ text,
    stringify (WorkflowState.to_js state) = Some text ∧
    loadState config path disk' = inl (parse text).
Proof.
  intros Hname Hsave Habs.
  destruct (PersistenceTheorems.saveState_resolved _ _ _ _ _ _ _ Hname Hsave)
    as (Hpath & text & disk1 & Htext & _ & Hwrite).
  exists text. split; [done |].
  unfold loadState, located. rewrite Habs.
  by rewrite (FsFacts.read_after_write _ _ _ _ Hwrite).
Qed.

Lemma returned_path_is_loaded_when_absolute_witness :
  "s.json" ≠ "" ∧
  ∃ disk' loaded,
    saveState Scenario.absolute_states Scenario.instant
      Scenario.state_x (Some "s.json") Fs.empty
      = (inl "/var/states/s.json", disk') ∧
    Path.isAbsolute "/var/states/s.json" = true ∧
    loadState Scenario.absolute_states "/var/states/s.json" disk' = inl loaded.
Proof.
  split; [done |].
  assert (saveState Scenario.absolute_states Scenario.instant
            Scenario.state_x (Some "s.json") Fs.empty
          = (inl "/var/states/s.json",
             (saveState Scenario.absolute_states Scenario.instant
                Scenario.state_x (Some "s.json") Fs.empty).2)) as Hsave
    by (vm_compute; reflexivity).
  destruct (returned_path_is_loaded_when_absolute Scenario.absolute_states
              Scenario.instant Scenario.state_x "s.json" Fs.empty _ _
              ltac:(done) Hsave eq_refl)
    as (text & _ & Hload).
  eexists _, _. split; [exact Hsave |]. split; [reflexivity | exact Hload].
Defined.

(** X24. [deleteState] under the name a state was saved with removes
    the file: if the save under a non-empty relative name resolved,
    [deleteState] resolves, after it [loadState] under the name is
    rejected with ENOENT, and so is a second [deleteState]. *)
Theorem deleteState_removes_the_saved_file
    (config : PersistenceConfig) (now : string)
    (state : WorkflowState.t) (filename : string)
    (disk disk' : Fs.t) (path : string) :
  filename ≠ "" →
  Path.isAbsolute filename = false →
  saveState config now state (Some filename) disk = (inl path, disk') →
  ∃ disk'',
    deleteState config filename disk' = inl disk'' ∧
    loadState config filename disk'' = inr Fs.ENOENT ∧
    deleteState config filename disk'' = inr Fs.ENOENT.
Proof.
  intros Hname Hrel Hsave.
  destruct (PersistenceTheorems.saveState_resolved _ _ _ _ _ _ _ Hname Hsave)
    as (-> & text & disk1 & _ & _ & Hwrite).
  destruct (FsFacts.unlink_after_write _ _ _ _ Hwrite)
    as (disk'' & Hunlink & Hread & Hagain).
  exists disk''. unfold deleteState, loadState, located. rewrite Hrel.
  by rewrite Hunlink, Hread, Hagain.
Qed.

Lemma deleteState_removes_the_saved_file_witness :
  "s.json" ≠ "" ∧
  Path.isAbsolute "s.json" = false ∧
  ∃ disk' disk'',
    saveState DEFAULT_PERSISTENCE_CONFIG Scenario.instant
      Scenario.state_x (Some "s.json") Fs.empty
      = (inl ".tmp/block-builder-states/s.json", disk') ∧
    deleteState DEFAULT_PERSISTENCE_CONFIG "s.json" disk' = inl disk'' ∧
    loadState DEFAULT_PERSISTENCE_CONFIG "s.json" disk'' = inr Fs.ENOENT.
Proof.
  split; [done |]. split; [reflexivity |].
  assert (saveState DEFAULT_PERSISTENCE_CONFIG Scenario.instant
            Scenario.state_x (Some "s.json") Fs.empty
          = (inl ".tmp/block-builder-states/s.json",
             (saveState DEFAULT_PERSISTENCE_CONFIG Scenario.instant
                Scenario.state_x (Some "s.json") Fs.empty).2)) as Hsave
    by (vm_compute; reflexivity).
  destruct (deleteState_removes_the_saved_file DEFAULT_PERSISTENCE_CONFIG
              Scenario.instant Scenario.state_x "s.json" Fs.empty _ _
              ltac:(done) eq_refl Hsave)
    as (disk'' & Hdelete & Hload & _).
  eexists _, disk''. split; [exact Hsave |]. split; [exact Hdelete | exact Hload].
Defined.

Lemma append_nonempty_r (a b : string) : b ≠ "" → a +:+ b ≠ "".
Proof. intros Hb. destruct a; [done |]. by simpl. Qed.

Lemma checkpoint_name_nonempty state label now :
  checkpoint_name state label now ≠ "".
Proof. unfold checkpoint_name. by apply append_nonempty_r. Qed.

(** X25. A checkpoint can be read back under its name: [createCheckpoint]
    saves the state as [<blockName>-checkpoint[-<label>]-<stamp>.json],
    a name that is never empty, so that [saveState] never falls back to
    its own, an empty label counting as none. If that name is relative
    and [createCheckpoint] resolves, it resolves with the name joined to
    the state directory, and [loadState] under the name returns what the
    round trip through JSON makes of the state. *)
Theorem checkpoint_is_read_back
    (config : PersistenceConfig) (now : string)
    (state : WorkflowState.t) (label : option string)
    (disk disk' : Fs.t) (path : string) :
  Path.isAbsolute (checkpoint_name state label now) = false →
  createCheckpoint config now state label disk = (inl path, disk') →
  createCheckpoint config now state (Some "") disk
    = createCheckpoint config now state None disk ∧
  path = Path.join (stateDir config) (checkpoint_name state label now) ∧
  ∃ loaded,
    loadState config (checkpoint_name state label now) disk' = inl loaded ∧
    reread (WorkflowState.to_js state) = Some loaded.
Proof.
  intros Hrel Hsave. split; [done |].
  unfold createCheckpoint in Hsave.
  fold (checkpoint_name state label now) in Hsave.
  destruct (PersistenceTheorems.saveState_resolved _ _ _ _ _ _ _
              (checkpoint_name_nonempty state label now) Hsave)
    as (-> & text & disk1 & Htext & _ & Hwrite).
  split; [done |]. exists (parse text).
  unfold loadState, located. rewrite Hrel.
  rewrite (FsFacts.read_after_write _ _ _ _ Hwrite).
  split; [done |]. by unfold reread; rewrite Htext.
Qed.

Lemma checkpoint_is_read_back_witness :
  Path.isAbsolute
    (checkpoint_name Scenario.state_x (Some "before-generate") Scenario.instant)
    = false ∧
  ∃ disk' loaded,
    createCheckpoint DEFAULT_PERSISTENCE_CONFIG
      Scenario.instant Scenario.state_x (Some "before-generate") Fs.empty
    = (inl ".tmp/block-builder-states/x-checkpoint-before-generate-2025-12-05T10-30-00-000Z.json",
       disk') ∧
    loadState DEFAULT_PERSISTENCE_CONFIG
      (checkpoint_name Scenario.state_x (Some "before-generate") Scenario.instant)
      disk' = inl loaded.
Proof.
  split; [reflexivity |].
  assert (createCheckpoint DEFAULT_PERSISTENCE_CONFIG
            Scenario.instant Scenario.state_x (Some "before-generate") Fs.empty
          = (inl ".tmp/block-builder-states/x-checkpoint-before-generate-2025-12-05T10-30-00-000Z.json",
             (createCheckpoint DEFAULT_PERSISTENCE_CONFIG
                Scenario.instant Scenario.state_x (Some "before-generate")
                Fs.empty).2)) as Hsave
    by (vm_compute; reflexivity).
  destruct (checkpoint_is_read_back DEFAULT_PERSISTENCE_CONFIG Scenario.instant
              Scenario.state_x (Some "before-generate") Fs.empty _ _
              eq_refl Hsave)
    as (_ & _ & loaded & Hload & _).
  eexists _, loaded. split; [exact Hsave | exact Hload].
Defined.

(** A label with a [/] makes a name with a directory part. *)
Lemma createCheckpoint_rejects :
  (createCheckpoint DEFAULT_PERSISTENCE_CONFIG Scenario.instant
     Scenario.state_x (Some "a/b") Fs.empty).1 = inr Fs.ENOENT.
Proof. vm_compute. reflexivity. Qed.

End PersistenceExtraTheorems.


(** ** mcp-client.ts: FigmaMCPClient *)

Module McpClientImplTheorems.
Import McpClient McpClientImpl Nodes Workflow WorkflowFacts WorkflowExtraFacts.

Lemma truthy_Some_nonempty (o : option string) (s : string) :
  truthy o = Some s → o = Some s ∧ s ≠ "".
Proof. destruct o as [[|c o]|]; simpl; by intros [= <-]. Qed.

Lemma design_answer {W} (now_iso : M W string)
    (client : MCPClient W) (nodeId : string) (w : W) :
  match MCPToolResult.payload
          (McpClientImpl.getDesignContext now_iso client nodeId w).1 with
  | Some d =>
      MCPToolResult.success
        (McpClientImpl.getDesignContext now_iso client nodeId w).1 = true ∧
      DesignContext.generatedCode d ≠ "" ∧
      DesignContext.nodeId d = nodeId
  | None =>
      MCPToolResult.success
        (McpClientImpl.getDesignContext now_iso client nodeId w).1 = false ∧
      is_Some (MCPToolResult.error
                 (McpClientImpl.getDesignContext now_iso client nodeId w).1)
  end.
Proof.
  unfold McpClientImpl.getDesignContext.
  destruct (callTool client _ _ w) as [[result|thrown] w1]; [| by simpl].
  destruct (answer result) as [code|] eqn:Hanswer; [| by simpl].
  destruct (now_iso w1) as [ts w2]. simpl.
  unfold answer in Hanswer. destruct (MCPToolResult.success result); [| done].
  by destruct (truthy_Some_nonempty _ _ Hanswer).
Qed.

(** X26. The Figma connector never throws and never reports success
    without content, whatever the [MCPClient] under it does: a rejected
    tool call, an unsuccessful one and one that answers with nothing or
    with the empty string all give [success: false] with an error
    message; with [success: true] the design code, or the image, is not
    empty, the node id is the one asked for and the image format is
    [png]. *)
Theorem figma_connector_answers_with_content {W} (now_iso : M W string)
    (client : MCPClient W) (nodeId : string) (w : W) :
  (match MCPToolResult.payload
           (McpClientImpl.getDesignContext now_iso client nodeId w).1 with
   | Some d =>
       MCPToolResult.success
         (McpClientImpl.getDesignContext now_iso client nodeId w).1 = true ∧
       DesignContext.generatedCode d ≠ "" ∧
       DesignContext.nodeId d = nodeId
   | None =>
       MCPToolResult.success
         (McpClientImpl.getDesignContext now_iso client nodeId w).1 = false ∧
       is_Some (MCPToolResult.error
                  (McpClientImpl.getDesignContext now_iso client nodeId w).1)
   end) ∧
  (match MCPToolResult.payload
           (McpClientImpl.getScreenshot now_iso client nodeId w).1 with
   | Some p =>
       MCPToolResult.success
         (McpClientImpl.getScreenshot now_iso client nodeId w).1 = true ∧
       Screenshot.data p ≠ "" ∧
       Screenshot.format p = png
   | None =>
       MCPToolResult.success
         (McpClientImpl.getScreenshot now_iso client nodeId w).1 = false ∧
       is_Some (MCPToolResult.error
                  (McpClientImpl.getScreenshot now_iso client nodeId w).1)
   end).
Proof.
  split; [apply design_answer |].
  unfold McpClientImpl.getScreenshot.
  destruct (callTool client _ _ w) as [[result|thrown] w1].
  - destruct (answer result) as [image|] eqn:Hanswer.
    + destruct (now_iso w1) as [ts w2]. simpl.
      unfold answer in Hanswer.
      destruct (MCPToolResult.success result); [| done].
      by destruct (truthy_Some_nonempty _ _ Hanswer).
    + simpl. by split.
  - simpl. by split.
Qed.

Lemma new_FigmaMCPClient_never_empty {W} (now_iso : M W string)
    (client : MCPClient W) :
  never_empty (new_FigmaMCPClient now_iso client).
Proof.
  intros nodeId w d Hd.
  pose proof (design_answer now_iso client nodeId w) as H.
  change (McpClient.getDesignContext (new_FigmaMCPClient now_iso client))
    with (McpClientImpl.getDesignContext now_iso client) in Hd.
  rewrite Hd in H. by destruct H as (_ & H & _).
Qed.

Section graph.
Context {W : Type}.
Variable now_iso : M W string.
Variable Date_getTime : string → JS.number.
Variable figmaClient : FigmaMCPClient W.
Variable edsClient : EDSGeneratorMCPClient W.
Hypothesis Hcode : never_empty figmaClient.

Local Abbreviation run_node := (run_node now_iso Date_getTime figmaClient edsClient).
Local Abbreviation steps := (steps now_iso Date_getTime figmaClient edsClient).

Lemma truthy_code (state : WorkflowState.t) d :
  WorkflowState.designContext state = Some d →
  DesignContext.generatedCode d ≠ "" →
  truthy (DesignContext.generatedCode <$> WorkflowState.designContext state)
    = Some (DesignContext.generatedCode d).
Proof. intros -> Hd. simpl. by destruct (DesignContext.generatedCode d). Qed.

(** A node keeps the recorded errors of the two kinds, and hands the
    design on to the nodes that need it. *)
Lemma node_retryable resume node state w :
  ready node state →
  Forall retryable_or_no_node (WorkflowState.errors state) →
  match (run_node resume node state w).1 with
  | Return update =>
      Forall retryable_or_no_node
        (WorkflowState.errors (Update.merge state update)) ∧
      ∀ node', route node (Update.merge state update) = Goto node' →
               ready node' (Update.merge state update)
  | Interrupted _ => True
  end.
Proof.
  intros Hready Herrors.
  assert (∀ e, retryable_or_no_node e →
            Forall retryable_or_no_node
              (WorkflowState.errors state ++ WorkflowState.errors state ++ [e]))
    as Hmore.
  { intros e He. rewrite !Forall_app. repeat split; try done.
    by apply Forall_singleton. }
  destruct node; simpl in Hready.
  - unfold Workflow.run_node, initializeWorkflow, mbind, M_bind, mret, M_ret.
    repeat case_match; simpl in *; simplify_eq; simpl; rewrite ?app_nil_r;
      (split; [done |]); by intros node' [= <-].
  - unfold Workflow.run_node, extractDesignContext, failed,
      mbind, M_bind, mret, M_ret.
    destruct (truthy _) as [nodeId|].
    + pose proof (Hcode nodeId w) as Hd.
      destruct (McpClient.getDesignContext figmaClient nodeId w) as [result w1].
      simpl in Hd.
      destruct (MCPToolResult.payload result) as [d|].
      * simpl. split; [done |]. intros node'. unfold route. simpl.
        destruct (input_flag _ _); simpl; intros [= <-]; simpl;
          exists d; split; [done | by apply Hd | done | by apply Hd].
      * destruct (now_iso w1) as [ts w2]. simpl.
        split; [apply Hmore; by left |].
        intros node'. unfold route. simpl. by intros [= <-].
    + destruct (now_iso w) as [ts w1]. simpl.
      split; [apply Hmore; by right |].
      intros node'. unfold route. simpl. by intros [= <-].
  - unfold Workflow.run_node, getScreenshot, mbind, M_bind, mret, M_ret.
    repeat case_match; simpl in *; simplify_eq; simpl; try done;
      (split; [done |]); intros node'; unfold route; simpl;
      intros [= <-]; exact Hready.
  - destruct Hready as (d & Hd & Hne).
    unfold Workflow.run_node, analyzeBlockStructure, failed,
      mbind, M_bind, mret, M_ret.
    rewrite (truthy_code state d Hd Hne).
    destruct (McpClient.analyzeBlockStructure _ _ _ _ _) as [result w1].
    destruct (MCPToolResult.payload result) as [a|].
    + simpl. split; [done |]. intros node'. unfold route. simpl.
      intros [= <-]. by exists d.
    + destruct (now_iso w1) as [ts w2]. simpl.
      split; [apply Hmore; by left |].
      intros node'. unfold route. simpl. by intros [= <-].
  - destruct Hready as (d & Hd & Hne).
    unfold Workflow.run_node, generateEdsBlock, failed,
      mbind, M_bind, mret, M_ret.
    rewrite (truthy_code state d Hd Hne).
    destruct (McpClient.generateEdsBlock _ _ _ _ _ _) as [result w1].
    destruct (MCPToolResult.payload result) as [g|].
    + simpl. split; [done |]. intros node'. unfold route. simpl.
      repeat case_match; by intros [= <-].
    + destruct (now_iso w1) as [ts w2]. simpl.
      split; [apply Hmore; by left |].
      intros node'. unfold route. simpl. by intros [= <-].
  - unfold Workflow.run_node, validateBlock, mbind, M_bind, mret, M_ret.
    repeat case_match; simpl in *; simplify_eq; simpl; (split; [done |]);
      intros node'; unfold route; simpl; repeat case_match; by intros [= <-].
  - unfold Workflow.run_node, completeWorkflow, stamp, mbind, M_bind, mret, M_ret.
    destruct (now_iso w) as [ts w1]. simpl. by split.
  - unfold Workflow.run_node, handleFailure, stamp, mbind, M_bind, mret, M_ret.
    destruct (now_iso w) as [ts w1]. simpl. by split.
Qed.

Lemma steps_retryable (fuel : nat) :
  ∀ resume node state checkpoints seen thread w s,
    ready node state →
    Forall retryable_or_no_node (WorkflowState.errors state) →
    settled (steps fuel resume thread node state checkpoints seen w).1
      = Resolved (Some s) →
    Forall retryable_or_no_node (WorkflowState.errors s).
Proof.
  induction fuel as [|fuel IH];
    intros resume node state cps seen thread w s Hready Herrors; [done |].
  rewrite steps_unfold.
  pose proof (node_retryable resume node state w Hready Herrors) as Hnode.
  destruct (run_node resume node state w) as [[update|payload] w'];
    simpl in Hnode.
  - destruct Hnode as [Herrors' Hnext].
    destruct (route node (Update.merge state update)) as [node'|].
    + intros Hs. eapply IH; [| | exact Hs]; [by apply Hnext | done].
    + by intros [= <-].
  - by intros [= <-].
Qed.
End graph.

(** X27. With the Figma connector of [mcp-client.ts] over any
    [MCPClient], every error a run records is marked retryable, except the
    report of a request without node id: the non-retryable failures of
    [analyze] and [generate] for a missing design cannot occur, because
    the connector never hands out empty code. *)
Theorem recorded_errors_are_retryable {W} (now_iso : M W string)
    (Date_getTime : string → JS.number)
    (client : MCPClient W) (edsClient : EDSGeneratorMCPClient W)
    (input : WorkflowInput.t) (threadId : option string) (w : W) :
  ∃ s,
    settled (runWorkflow now_iso Date_getTime
               (new_FigmaMCPClient now_iso client) edsClient
               input threadId w).1 = Resolved (Some s) ∧
    Forall retryable_or_no_node (WorkflowState.errors s).
Proof.
  unfold runWorkflow.
  destruct (runWorkflow_with_start now_iso Date_getTime
              (new_FigmaMCPClient now_iso client) edsClient ∅ input threadId w)
    as (state0 & -> & _ & _ & _ & Herrors0).
  match goal with
  | |- context [Workflow.steps _ _ _ _ ?f ?r ?t ?n ?st ?c ?l ?w'] =>
      destruct (steps_end now_iso Date_getTime
                  (new_FigmaMCPClient now_iso client) edsClient
                  f n st c l t w') as (s & Hs & _);
        [simpl; unfold recursionLimit; lia | done |];
      pose proof (steps_retryable now_iso Date_getTime
                    (new_FigmaMCPClient now_iso client) edsClient
                    (new_FigmaMCPClient_never_empty now_iso client)
                    f r n st c l t w' s) as Hok
  end.
  exists s. split; [exact Hs |]. apply Hok; [done | | exact Hs].
  rewrite Herrors0. unfold WorkflowExtra.errors_before.
  by rewrite lookup_empty.
Qed.

End McpClientImplTheorems.


(** ** chat-integration.ts: analyzeFigmaDesign *)

Module ChatIntegrationTheorems.
Import McpClient ChatIntegration.

(** X28. The report of [analyzeFigmaDesign] is well formed whatever the
    connectors answer: with [success: true] it holds the design code and
    no error; with [success: false] it holds an error message and nothing
    else. *)
Theorem analyzeFigmaDesign_report_is_well_formed {W}
    (figmaClient : FigmaMCPClient W) (edsClient : EDSGeneratorMCPClient W)
    (TypeError_message : string)
    (figmaUrl figmaNodeId : option string) (w : W) :
  if success (analyzeFigmaDesign figmaClient edsClient TypeError_message
                figmaUrl figmaNodeId w).1
  then
    is_Some (designContext (analyzeFigmaDesign figmaClient edsClient
                              TypeError_message figmaUrl figmaNodeId w).1) ∧
    error (analyzeFigmaDesign figmaClient edsClient TypeError_message
             figmaUrl figmaNodeId w).1 = None
  else
    ∃ message,
      (analyzeFigmaDesign figmaClient edsClient TypeError_message
         figmaUrl figmaNodeId w).1 = refused message.
Proof.
  unfold analyzeFigmaDesign, mbind, M_bind, mret, M_ret.
  destruct (truthy (match truthy figmaUrl, truthy figmaNodeId with
                    | Some url, None => snd <$> parseFigmaUrl url
                    | _, _ => figmaNodeId
                    end)) as [nodeId|]; [| by eexists].
  destruct (getDesignContext figmaClient nodeId w) as [designResult w1].
  destruct (MCPToolResult.success designResult); [| by eexists].
  destruct (getScreenshot figmaClient nodeId w1) as [screenshotResult w2].
  destruct (MCPToolResult.data designResult) as [design|]; [| by eexists].
  destruct (analyzeBlockStructure edsClient _ _ _ w2) as [analysisResult w3].
  simpl. by split.
Qed.

(** X29. Only the design decides: for a request with a node id whose
    design call delivers, the report is a success with the design code,
    whatever the screenshot and the analysis calls answer; a failed
    screenshot or analysis just leaves its field out. Unlike the
    workflow, the preview neither stops for a missing screenshot nor
    rejects empty code. *)
Theorem analyzeFigmaDesign_depends_on_design_only {W}
    (figmaClient : FigmaMCPClient W) (edsClient : EDSGeneratorMCPClient W)
    (TypeError_message : string)
    (figmaUrl figmaNodeId : option string) (w : W)
    (nodeId : string) (design : DesignContext.t) :
  truthy figmaNodeId = Some nodeId →
  MCPToolResult.payload (getDesignContext figmaClient nodeId w).1 = Some design →
  let w1 := (getDesignContext figmaClient nodeId w).2 in
  let shot := (getScreenshot figmaClient nodeId w1).1 in
  let w2 := (getScreenshot figmaClient nodeId w1).2 in
  let report := (analyzeFigmaDesign figmaClient edsClient TypeError_message
                   figmaUrl figmaNodeId w).1 in
  success report = true ∧
  designContext report = Some (DesignContext.generatedCode design) ∧
  error report = None ∧
  screenshot report = Screenshot.data <$> MCPToolResult.payload shot ∧
  analysis report =
    MCPToolResult.payload
      (analyzeBlockStructure edsClient (DesignContext.generatedCode design)
         (screenshot report) None w2).1.
Proof.
  intros Hid Hdesign. cbv zeta.
  unfold analyzeFigmaDesign, mbind, M_bind, mret, M_ret. rewrite Hid.
  assert (truthy (match truthy figmaUrl with
                  | Some _ => figmaNodeId
                  | None => figmaNodeId
                  end) = Some nodeId) as ->.
  { by destruct (truthy figmaUrl). }
  destruct (getDesignContext figmaClient nodeId w) as [designResult w1].
  simpl in *. unfold MCPToolResult.payload in Hdesign.
  destruct (MCPToolResult.success designResult); [| done]. rewrite Hdesign.
  destruct (getScreenshot figmaClient nodeId w1) as [screenshotResult w2].
  simpl.
  destruct (analyzeBlockStructure edsClient _ _ _ w2)
    as [analysisResult w3] eqn:Hanalysis.
  simpl. repeat split; try done.
  - unfold MCPToolResult.payload. by destruct (MCPToolResult.success _).
  - by rewrite Hanalysis.
Qed.

Lemma analyzeFigmaDesign_depends_on_design_only_witness :
  truthy (Some "R1") = Some "R1" ∧
  MCPToolResult.payload (getDesignContext (Scenario.figma false) "R1" ()).1
    = Some Scenario.design ∧
  (analyzeFigmaDesign (Scenario.figma false) (Scenario.eds true true)
     "Cannot read properties of undefined" None (Some "R1") ()).1
  = {| success := true;
       designContext := Some "<div/>";
       screenshot := None;
       analysis := Some Scenario.blockAnalysis;
       error := None |}.
Proof.
  split; [reflexivity |]. split; [reflexivity |].
  pose proof (analyzeFigmaDesign_depends_on_design_only (Scenario.figma false)
                (Scenario.eds true true) "Cannot read properties of undefined"
                None (Some "R1") () "R1" Scenario.design eq_refl eq_refl) as H.
  cbv zeta in H. destruct H as (H1 & H2 & H3 & H4 & H5).
  destruct (analyzeFigmaDesign _ _ _ _ _ _).1 as [s d p a e].
  simpl in *. by subst.
Defined.

(** X30. With no node id and no URL from which one can be read, the
    condition under which [runWorkflow] fails with [No Figma node ID
    provided], [analyzeFigmaDesign] refuses as well, without calling a
    connector: the world is left as it was. *)
Theorem analyzeFigmaDesign_refuses_without_node {W}
    (figmaClient : FigmaMCPClient W) (edsClient : EDSGeneratorMCPClient W)
    (TypeError_message : string)
    (figmaUrl figmaNodeId : option string) (w : W) :
  truthy figmaNodeId = None →
  (∀ url, truthy figmaUrl = Some url → parseFigmaUrl url = None) →
  analyzeFigmaDesign figmaClient edsClient TypeError_message
    figmaUrl figmaNodeId w
  = (refused "No Figma node ID provided or could not parse from URL", w).
Proof.
  intros Hid Hurl. unfold analyzeFigmaDesign. rewrite Hid.
  destruct (truthy figmaUrl) as [url|].
  - by rewrite (Hurl url eq_refl).
  - by rewrite Hid.
Qed.

Lemma analyzeFigmaDesign_refuses_without_node_witness :
  truthy None = None ∧
  (∀ url, truthy (Some "https://example.com/page") = Some url →
          parseFigmaUrl url = None) ∧
  analyzeFigmaDesign (Scenario.figma true) (Scenario.eds true true)
    "Cannot read properties of undefined"
    (Some "https://example.com/page") None ()
  = (refused "No Figma node ID provided or could not parse from URL", ()).
Proof.
  assert (∀ url, truthy (Some "https://example.com/page") = Some url →
                 parseFigmaUrl url = None) as Hurl.
  { intros url [= <-]. vm_compute. reflexivity. }
  split; [reflexivity |]. split; [exact Hurl |].
  exact (analyzeFigmaDesign_refuses_without_node (Scenario.figma true)
           (Scenario.eds true true) "Cannot read properties of undefined"
           (Some "https://example.com/page") None () eq_refl Hurl).
Defined.

End ChatIntegrationTheorems.


(** ** Runs and [resumeWorkflow] *)

Module ResumeTheorems.
Import McpClient Nodes Workflow WorkflowFacts WorkflowExtra WorkflowExtraFacts.

(** [resumeWorkflow] compiles its graph on a new [MemorySaver], which
    holds no checkpoint: it is the same for every payload and thread. *)
Lemma resumeWorkflow_new_saver {W} (now_iso : M W string)
    (Date_getTime : string → JS.number)
    (figmaClient : FigmaMCPClient W) (edsClient : EDSGeneratorMCPClient W)
    (userInput : UserInput) (threadId : option string) (w : W) :
  resumeWorkflow now_iso Date_getTime figmaClient edsClient userInput threadId w =
    ({| settled := Resolved None; started := []; interrupt := None; saver := ∅ |}, w).
Proof. unfold resumeWorkflow, createWorkflow. simpl. by rewrite lookup_empty. Qed.

(** What a run that returned a state left behind: that state is the
    checkpoint of its thread, and its marker is not
    [AWAITING_USER_INPUT]. *)
Lemma run_leaves_checkpoint {W} (now_iso : M W string)
    (Date_getTime : string → JS.number)
    (figmaClient : FigmaMCPClient W) (edsClient : EDSGeneratorMCPClient W)
    (input : WorkflowInput.t) (threadId : option string) (w : W)
    (s : WorkflowState.t) :
  settled (runWorkflow now_iso Date_getTime figmaClient edsClient
             input threadId w).1 = Resolved (Some s) →
  saver (runWorkflow now_iso Date_getTime figmaClient edsClient
           input threadId w).1 !! default "default" threadId = Some s ∧
  WorkflowState.currentStep s ≠ AWAITING_USER_INPUT.
Proof.
  unfold runWorkflow.
  destruct (runWorkflow_with_start now_iso Date_getTime figmaClient edsClient
              ∅ input threadId w)
    as (state0 & -> & Hinput & Hstep0 & Hstart & Herrors0).
  intros Hs.
  match goal with
  | |- context [Workflow.steps _ _ _ _ ?f ?r ?t ?n ?st ?c ?l ?w0] =>
      destruct (steps_end now_iso Date_getTime figmaClient edsClient
                  f n st c l t w0) as (s' & Hs' & _ & Hend);
        [simpl; unfold recursionLimit; lia | by rewrite Hstep0 |];
      destruct (steps_saver now_iso Date_getTime figmaClient edsClient
                  f r n st c l t w0) as [Hthread _];
        [by rewrite lookup_insert_eq |]
  end.
  split; [by apply Hthread |].
  rewrite Hs in Hs'. injection Hs' as <-.
  intros Hstep. rewrite Hstep in Hend.
  destruct (interrupt _); [by destruct Hend as [[?|?] _] | by destruct Hend].
Qed.

(** C2 (code as it is). A run of [runWorkflow] that returned a state
    left that state as the checkpoint of its thread, with a marker other
    than [AWAITING_USER_INPUT]. [resumeWorkflow] for that thread, called
    next with whatever payload, starts no node, reads no clock and calls
    no tool, but it does not return the stored state: it looks into a
    saver of its own and resolves with the empty values of a thread that
    has no checkpoint. *)
Theorem resumeWorkflow_finds_no_checkpoint {W} (now_iso : M W string)
    (Date_getTime : string → JS.number)
    (figmaClient : FigmaMCPClient W) (edsClient : EDSGeneratorMCPClient W)
    (input : WorkflowInput.t) (threadId : option string) (w : W)
    (userInput : UserInput) (s : WorkflowState.t) :
  settled (runWorkflow now_iso Date_getTime figmaClient edsClient
             input threadId w).1 = Resolved (Some s) →
  saver (runWorkflow now_iso Date_getTime figmaClient edsClient
           input threadId w).1 !! default "default" threadId = Some s ∧
  WorkflowState.currentStep s ≠ AWAITING_USER_INPUT ∧
  resumeWorkflow now_iso Date_getTime figmaClient edsClient userInput threadId
    (runWorkflow now_iso Date_getTime figmaClient edsClient input threadId w).2 =
    ({| settled := Resolved None; started := []; interrupt := None; saver := ∅ |},
     (runWorkflow now_iso Date_getTime figmaClient edsClient input threadId w).2) ∧
  Resolved None ≠ Resolved (Some s).
Proof.
  intros Hs.
  destruct (run_leaves_checkpoint now_iso Date_getTime figmaClient edsClient
              input threadId w s Hs) as [Hsaver Hstep].
  split; [done |]. split; [done |]. split; [| done].
  apply resumeWorkflow_new_saver.
Qed.

(** The run for [{ name: "x", ref: "R1" }] with every tool answering
    ends in [COMPLETED]; resuming its thread with "skip" returns the empty
    values. *)
Lemma resumeWorkflow_finds_no_checkpoint_witness :
  ∃ s,
    settled (Scenario.run true true true) = Resolved (Some s) ∧
    WorkflowState.currentStep s = COMPLETED ∧
    saver (Scenario.run true true true) !! "default" = Some s ∧
    (resumeWorkflow Scenario.now_iso Scenario.Date_getTime
       (Scenario.figma true) (Scenario.eds true true) (Text "skip") None ()).1
      = {| settled := Resolved None; started := []; interrupt := None;
           saver := ∅ |}.
Proof.
  destruct (settled (Scenario.run true true true)) as [[s|]|reason] eqn:Hs;
    [| by vm_compute in Hs | by vm_compute in Hs].
  exists s. split; [reflexivity |].
  split; [vm_compute in Hs; by injection Hs as <- |].
  destruct (resumeWorkflow_finds_no_checkpoint Scenario.now_iso
              Scenario.Date_getTime (Scenario.figma true) (Scenario.eds true true)
              Scenario.input_x None () (Text "skip") s Hs)
    as (Hsaver & _ & Hresume & _).
  split; [exact Hsaver |].
  exact (f_equal fst Hresume).
Defined.

End ResumeTheorems.
